(** * dump_wfs: a shallow embedding of [src/dump_wfs.py]

    The script pages through the features of a WFS layer with OGR, retries
    the cursor advance with an exponential backoff, and prints one JSON
    document per non-null geometry field to standard output.

    The embedding follows the script function by function.  Side effects
    (writes to the two streams, sleeps, calls of the cursor) are recorded in
    a chronological trace; Python exceptions are the [Raise] results of a
    small trace-and-error monad.  The OGR, shapely and json calls are
    capabilities of an external library and are taken as the methods of the
    class [GeoLib] and of the records [Feature], [Layer] and [DataSource]. *)

From Stdlib Require Import ZArith List String Ascii Bool Lia DecimalString.
Import ListNotations.
Local Open Scope Z_scope.
Local Open Scope list_scope.

(** ** Python values and exceptions *)

#[local] Set Warnings "-register-all".

(** The values [feat.GetField] returns and [json.dump] receives.  A Python
    [float] is kept as its binary64 bit pattern: the script never computes
    with attribute or coordinate values, it only passes them on.  A [dict]
    is an association list in insertion order. *)
Inductive pyval : Type :=
| PyNone
| PyBool (b : bool)
| PyInt (z : Z)
| PyFloat (bits : Z)
| PyStr (s : string)
| PyList (l : list pyval)
| PyDict (d : list (string * pyval)).

Inductive exn : Type :=
| GdalError                (* an Exception raised inside a GDAL/OGR call *)
| OutOfData (backoff : Z)  (* Exception(f'Out of data? backoff:{backoff}') *)
| IndexError
| AssertionError
| AttributeError           (* a method called on None *)
| UnboundLocalError
| ZeroDivisionError
| ShapelyError
| JsonError.

Inductive result (A : Type) : Type :=
| Ok (a : A)
| Raise (e : exn).
Arguments Ok {A} a.
Arguments Raise {A} e.

Definition newline : string := String "010"%char EmptyString.

(** ** Dictionaries in insertion order *)

Section Dict.
Context {V : Type}.

(** [d[k] = v]: an existing key keeps its position and takes the new
    value, a new key goes last. *)
Fixpoint dict_set (d : list (string * V)) (k : string) (v : V)
  : list (string * V) :=
  match d with
  | [] => [(k, v)]
  | (k', v') :: d' =>
      if String.eqb k' k then (k', v) :: d' else (k', v') :: dict_set d' k v
  end.

Fixpoint dict_get (d : list (string * V)) (k : string) : option V :=
  match d with
  | [] => None
  | (k', v') :: d' => if String.eqb k' k then Some v' else dict_get d' k
  end.

Definition dict_keys (d : list (string * V)) : list string := map fst d.

(** [{k: get(i) for i, k in enumerate(keys)}], continued from index [i]
    with the entries [acc] already made. *)
Fixpoint dict_comp_from (get : nat -> result V) (i : nat)
         (keys : list string) (acc : list (string * V))
  : result (list (string * V)) :=
  match keys with
  | [] => Ok acc
  | k :: ks =>
      match get i with
      | Ok v => dict_comp_from get (S i) ks (dict_set acc k v)
      | Raise e => Raise e
      end
  end.

Definition dict_comp (get : nat -> result V) (keys : list string)
  : result (list (string * V)) :=
  dict_comp_from get 0%nat keys [].
End Dict.

(** [[f(x) for x in xs]] where [f] may raise. *)
Fixpoint list_comp {A B : Type} (f : A -> result B) (xs : list A)
  : result (list B) :=
  match xs with
  | [] => Ok []
  | x :: xs' =>
      match f x with
      | Ok y =>
          match list_comp f xs' with
          | Ok ys => Ok (y :: ys)
          | Raise e => Raise e
          end
      | Raise e => Raise e
      end
  end.

Fixpoint enumerate_from {A : Type} (i : nat) (xs : list A) : list (nat * A) :=
  match xs with
  | [] => []
  | x :: xs' => (i, x) :: enumerate_from (S i) xs'
  end.

Definition enumerate {A : Type} (xs : list A) : list (nat * A) :=
  enumerate_from 0%nat xs.

(** [format(n, 'd')] for the layer listing. *)
Definition str_of_Z (z : Z) : string := NilZero.string_of_int (Z.to_int z).

(** ** Text and lines *)

Fixpoint no_newline (s : string) : bool :=
  match s with
  | EmptyString => true
  | String ch s' => negb (Ascii.eqb ch "010"%char) && no_newline s'
  end.

(** The lines of a text that end with a newline, and what follows the last
    newline. *)
Fixpoint split_lines (s : string) : list string * string :=
  match s with
  | EmptyString => ([], EmptyString)
  | String ch s' =>
      let (ls, rest) := split_lines s' in
      if Ascii.eqb ch "010"%char then (EmptyString :: ls, rest)
      else match ls with
           | [] => ([], String ch rest)
           | l :: ls' => (String ch l :: ls', rest)
           end
  end.

(** The text a sequence of writes leaves on a stream. *)
Definition text_of (ws : list string) : string :=
  fold_right String.append EmptyString ws.

(** ** The external geospatial library *)

Record SpatialRef : Type := { ExportToWkt : string }.

Record FieldDefn : Type := { fd_GetName : string; fd_GetTypeName : string }.

Record GeomFieldDefn : Type :=
  { gd_GetName : string; gd_GetSpatialRef : option SpatialRef }.

(** The geometry engine and the JSON writer.  [json_dump v] is
    [json.dump(v, sys.stdout, ensure_ascii=False, separators=(',',':'))]:
    the text it wrote to the stream, and whether it then raised. *)
Class GeoLib : Type := {
  Geometry : Type;
  BaseGeometry : Type;
  GetLinearGeometry : Geometry -> result Geometry;
  ExportToWkb : Geometry -> result (list Byte.byte);
  wkb_loads : list Byte.byte -> result BaseGeometry;
  mapping : BaseGeometry -> result (list (string * pyval));
  json_dump : pyval -> string * result unit
}.

Section Pipeline.
Context {lib : GeoLib}.

(** A raw feature is the handle the cursor returns; the script only calls
    these methods on it. *)
Record Feature : Type := {
  GetFieldCount : nat;
  GetFieldDefnRef : nat -> result FieldDefn;
  GetField : nat -> result pyval;
  GetGeomFieldCount : nat;
  GetGeomFieldDefnRef : nat -> result GeomFieldDefn;
  GetGeomFieldRef : nat -> result (option Geometry)
}.

(** One call of [layer.GetNextFeature()]: it returns a feature or [None],
    or it raises. *)
Inductive fetch_outcome : Type :=
| Returns (feat : option Feature)
| Throws.

(** A layer of the service.  [features flt] is what the successive calls
    of [GetNextFeature] give with the attribute filter [flt] in force;
    past its end the cursor returns [None] on every call. *)
Record Layer : Type := {
  GetSpatialRef : option SpatialRef;
  GetName : string;
  GetFeatureCount : Z;
  features : option string -> list fetch_outcome
}.

Record DataSource : Type := {
  GetLayerByName : string -> option Layer;
  GetLayerCount : nat;
  GetLayerByIndex : nat -> option Layer
}.

(** ** Traces *)

Definition attrs_t : Type := list (string * pyval).
Definition g_attrs_t : Type := list (string * option Geometry).

(** The lines printed to [sys.stderr].  Elapsed times are not modelled. *)
Inductive diag : Type :=
| DUsage (prog : string)
| DWFS (url : string)
| DLayer (layer_name : string)
| DFiltering (flt : string)
| DFeaturesUnknown
| DFeatures (num_features : Z)
| DSR (wkt : string)
| DTraceback (ex : exn)
| DMaxRetries (backoff : Z)
| DTryingAgain (secs : Z) (backoff : Z)
| DLastFeature
| DFirstFeature (fields : list (string * string * pyval))
| DGeomDefn (g : GeomFieldDefn) (wkt : string)
| DProgress (n_features : Z) (num_features : Z)
| DFinished
| DFinalCount (n_features : Z)
| DSkipEmptyGeom (name : string) (feat : Feature) (attributes : attrs_t).

(** What the trace records: the calls [SetAttributeFilter],
    [GetFeatureCount] and [GetNextFeature] on the layer, the sleeps, the
    writes to the two streams and the yields of the iterator.  The other
    calls of the script on OGR objects ([GetDescription],
    [GetSpatialRef], [GetName], the accessors of fields and geometries)
    are reads of the records [Layer] and [Feature] and leave no
    event. *)
Inductive event : Type :=
| EvSetAttributeFilter (flt : string)
| EvGetFeatureCount
| EvGetNextFeature
| EvSleep (secs : Z)
| EvStdout (text : string)
| EvStderr (d : diag)
| EvYield (feat : Feature) (attributes : attrs_t) (geom_attributes : g_attrs_t).

Definition trace : Type := list event.

(** ** The monad: a trace, and a value, an exception, or no answer
    ([None]) when a loop used up its fuel. *)

Definition M (A : Type) : Type := trace * option (result A).

Definition ret {A : Type} (a : A) : M A := ([], Some (Ok a)).

Definition bind {A B : Type} (m : M A) (f : A -> M B) : M B :=
  match m with
  | (t, Some (Ok a)) => let (t', r) := f a in (t ++ t', r)
  | (t, Some (Raise e)) => (t, Some (Raise e))
  | (t, None) => (t, None)
  end.

Definition emit (e : event) : M unit := ([e], Some (Ok tt)).
Definition raise {A : Type} (e : exn) : M A := ([], Some (Raise e)).
Definition lift {A : Type} (r : result A) : M A := ([], Some r).

Definition stderr (d : diag) : M unit := emit (EvStderr d).
Definition stdout (s : string) : M unit := emit (EvStdout s).


Declare Scope prog_scope.
Delimit Scope prog_scope with prog.
Notation "x <- m ;; k" := (bind m (fun x => k))
  (at level 61, m at next level, right associativity) : prog_scope.
Notation "m ;;; k" := (bind m (fun _ => k))
  (at level 61, right associativity) : prog_scope.
Local Open Scope prog_scope.

(** [for x in xs: body(x)] *)
Fixpoint for_each {A : Type} (xs : list A) (body : A -> M unit) : M unit :=
  match xs with
  | [] => ret tt
  | x :: xs' => body x ;;; for_each xs' body
  end.

(** ** get_features: the paged feature iterator *)

(** [layer.GetNextFeature()]: the cursor moves on; at its end it keeps
    returning [None]. *)
Definition GetNextFeature (cursor : list fetch_outcome)
  : fetch_outcome * list fetch_outcome :=
  match cursor with
  | [] => (Returns None, [])
  | o :: cursor' => (o, cursor')
  end.

(** The local variables of [get_features] that live across iterations,
    with the cursor of the layer.  [names] and [gnames] are unbound
    ([None]) until the first feature binds them. *)
Record locals : Type := {
  cursor : list fetch_outcome;
  n_features : Z;
  backoff : Z;
  names : option (list string);
  gnames : option (list string)
}.

Definition initial (c : list fetch_outcome) : locals :=
  {| cursor := c; n_features := 0; backoff := 0;
     names := None; gnames := None |}.

Inductive stop_reason : Type :=
| ABORTED     (* the [break] after 'Maximum retries exceeded' *)
| EXHAUSTED.  (* the [break] after 'Looks like this is the last feature' *)

Inductive control : Type :=
| Continue (st : locals)
| Break (why : stop_reason) (st : locals).

(** Lines 72-78, the body of the [try]: the value of [feat] and of
    [backoff] when it completes, or the exception it raises. *)
Definition try_block (o : fetch_outcome) (backoff : Z)
  : result (option Feature * Z) :=
  match o with
  | Throws => Raise GdalError
  | Returns None => Raise (OutOfData backoff)
  | Returns (Some f) => Ok (Some f, 0)
  end.

(** Lines 96-107: the schema capture on the first feature. *)
Definition capture_schema (feat : Feature) : M (list string * list string) :=
  defns <- lift (list_comp (GetFieldDefnRef feat)
                           (seq 0 (GetFieldCount feat))) ;;
  let names := map fd_GetName defns in
  gdefns <- lift (list_comp (GetGeomFieldDefnRef feat)
                            (seq 0 (GetGeomFieldCount feat))) ;;
  let gnames := map gd_GetName gdefns in
  first <- lift (list_comp
                   (fun id : nat * FieldDefn =>
                      match GetField feat (fst id) with
                      | Ok v => Ok (fd_GetName (snd id),
                                    fd_GetTypeName (snd id), v)
                      | Raise e => Raise e
                      end)
                   (enumerate defns)) ;;
  stderr (DFirstFeature first) ;;;
  for_each gdefns
    (fun g => match gd_GetSpatialRef g with
              | Some srs => stderr (DGeomDefn g (ExportToWkt srs))
              | None => raise AttributeError
              end) ;;;
  ret (names, gnames).

(** Reading a local variable that may be unbound. *)
Definition read_local {A : Type} (x : option A) : M A :=
  match x with
  | Some a => ret a
  | None => raise UnboundLocalError
  end.

(** Lines 113-124: the count and the progress line, after the consumer
    has taken the feature. *)
Definition count_and_report (num_features : Z) (n_features : Z) : M Z :=
  let n_features := n_features + 1 in
  (if n_features mod 10000 =? 0
   then if num_features =? 0
        then raise ZeroDivisionError
        else stderr (DProgress n_features num_features)
   else ret tt) ;;;
  ret n_features.

(** Lines 96-107: [names] and [gnames] after the [if n_features == 0]. *)
Definition bound_schema (feat : Feature) (st : locals)
  : M (option (list string) * option (list string)) :=
  if n_features st =? 0
  then s <- capture_schema feat ;; ret (Some (fst s), Some (snd s))
  else ret (names st, gnames st).

(** Lines 109-110: the two dictionaries of the feature. *)
Definition read_attributes (feat : Feature)
           (sch : option (list string) * option (list string))
  : M (attrs_t * g_attrs_t) :=
  ns <- read_local (fst sch) ;;
  attrs <- lift (dict_comp (GetField feat) ns) ;;
  gns <- read_local (snd sch) ;;
  g_attrs <- lift (dict_comp (GetGeomFieldRef feat) gns) ;;
  ret (attrs, g_attrs).

(** Lines 96-124: what one iteration does with a fetched feature.
    [consume] is the body of the [async for] that receives the yielded
    triple. *)
Definition process_feature
           (consume : Feature * attrs_t * g_attrs_t -> M unit)
           (num_features : Z) (feat : Feature) (st : locals) : M locals :=
  sch <- bound_schema feat st ;;
  item <- read_attributes feat sch ;;
  consume (feat, fst item, snd item) ;;;
  n <- count_and_report num_features (n_features st) ;;
  ret {| cursor := cursor st; n_features := n; backoff := backoff st;
         names := fst sch; gnames := snd sch |}.

(** Lines 71-124: one iteration of [while True]. *)
Definition while_body
           (consume : Feature * attrs_t * g_attrs_t -> M unit)
           (num_features : Z) (st : locals) : M control :=
  let (o, cursor') := GetNextFeature (cursor st) in
  let st := {| cursor := cursor'; n_features := n_features st;
               backoff := backoff st;
               names := names st; gnames := gnames st |} in
  emit EvGetNextFeature ;;;
  match try_block o (backoff st) with
  | Raise ex =>
      stderr (DTraceback ex) ;;;
      if 3 <=? backoff st then
        stderr (DMaxRetries (backoff st)) ;;;
        ret (Break ABORTED st)
      else
        stderr (DTryingAgain (2 ^ backoff st) (backoff st)) ;;;
        emit (EvSleep (2 ^ backoff st)) ;;;
        ret (Continue {| cursor := cursor st;
                         n_features := n_features st;
                         backoff := backoff st + 1;
                         names := names st; gnames := gnames st |})
  | Ok (feat, backoff0) =>
      let st := {| cursor := cursor st; n_features := n_features st;
                   backoff := backoff0;
                   names := names st; gnames := gnames st |} in
      match feat with
      | None =>
          stderr DLastFeature ;;;
          ret (Break EXHAUSTED st)
      | Some f =>
          st' <- process_feature consume num_features f st ;;
          ret (Continue st')
      end
  end.

(** The [while True] loop, run for at most [fuel] iterations. *)
Fixpoint while_true (fuel : nat)
         (consume : Feature * attrs_t * g_attrs_t -> M unit)
         (num_features : Z) (st : locals) : M (stop_reason * locals) :=
  match fuel with
  | O => ([], None)
  | S fuel' =>
      c <- while_body consume num_features st ;;
      match c with
      | Continue st' => while_true fuel' consume num_features st'
      | Break why st' => ret (why, st')
      end
  end.

(** Iterations that always suffice: every iteration takes one outcome
    from the cursor, and past its end four failures in a row stop the
    loop. *)
Definition enough_fuel (cursor : list fetch_outcome) : nat :=
  (List.length cursor + 4)%nat.

(** Python truth value of the optional filter expression. *)
Definition truthy (s : option string) : bool :=
  match s with
  | Some s => negb (String.eqb s "")
  | None => false
  end.

(** Line 39, [assert wfs_ds]: the truth value of what [Open] returned.
    [None] (the service does not open) is false; a data source object
    has the length [GetLayerCount()], so one without layers is false
    too. *)
Definition ds_truthy (wfs_ds : DataSource) : bool :=
  negb (GetLayerCount wfs_ds =? 0)%nat.

(** Lines 43-64: the layer session.  It gives the estimated count and the
    outcomes the cursor is going to produce. *)
Definition open_layer (wfs_ds : DataSource) (layer_name : string)
           (server_attribute_filter : option string)
  : M (Z * list fetch_outcome) :=
  layer <- match GetLayerByName wfs_ds layer_name with
           | Some l => ret l
           | None => raise AttributeError
           end ;;
  let srs := GetSpatialRef layer in
  (if truthy server_attribute_filter
   then emit (EvSetAttributeFilter
                (match server_attribute_filter with
                 | Some f => f | None => ""%string end))
   else ret tt) ;;;
  num_features <-
    (if truthy server_attribute_filter
     then stderr DFeaturesUnknown ;;; ret 1000000
     else emit EvGetFeatureCount ;;;
          stderr (DFeatures (GetFeatureCount layer)) ;;;
          ret (GetFeatureCount layer)) ;;
  match srs with
  | Some s => stderr (DSR (ExportToWkt s))
  | None => raise AttributeError
  end ;;;
  ret (num_features,
       features layer (if truthy server_attribute_filter
                       then server_attribute_filter else None)).

(** Lines 66-127: the scan proper, from the estimated count and the
    cursor. *)
Definition run (consume : Feature * attrs_t * g_attrs_t -> M unit)
           (num_features : Z) (st : locals) : M (stop_reason * locals) :=
  while_true (enough_fuel (cursor st)) consume num_features st.

Definition scan (consume : Feature * attrs_t * g_attrs_t -> M unit)
           (num_features : Z) (c : list fetch_outcome)
  : M (stop_reason * locals) :=
  r <- run consume num_features (initial c) ;;
  stderr DFinished ;;;
  stderr (DFinalCount (n_features (snd r))) ;;;
  ret r.

Definition get_features (wfs_ds : DataSource) (layer_name : string)
           (server_attribute_filter : option string)
           (consume : Feature * attrs_t * g_attrs_t -> M unit)
  : M (stop_reason * locals) :=
  lc <- open_layer wfs_ds layer_name server_attribute_filter ;;
  scan consume (fst lc) (snd lc).

(** ** print_features_geojson: the record normalizer *)

(** Lines 140-144: the record for one geometry. *)
Definition geo_record (attributes : attrs_t) (geom : Geometry)
  : result pyval :=
  match GetLinearGeometry geom with
  | Raise e => Raise e
  | Ok lin_geom =>
      match ExportToWkb lin_geom with
      | Raise e => Raise e
      | Ok wkb =>
          match wkb_loads wkb with
          | Raise e => Raise e
          | Ok shgeom_source_crs =>
              match mapping shgeom_source_crs with
              | Raise e => Raise e
              | Ok geo_dict =>
                  Ok (PyDict (dict_set geo_dict "properties"
                                       (PyDict attributes)))
              end
          end
      end
  end.

(** Lines 137-146: one geometry field of one feature. *)
Definition print_geometry (feat : Feature) (attributes : attrs_t)
           (name : string) (geom : option Geometry) : M unit :=
  match geom with
  | None => stderr (DSkipEmptyGeom name feat attributes)
  | Some geom =>
      geo_dict <- lift (geo_record attributes geom) ;;
      stdout (fst (json_dump geo_dict)) ;;;
      lift (snd (json_dump geo_dict)) ;;;
      stdout newline
  end.

(** Lines 132-146: the body of the [async for]. *)
Definition print_feature (item : Feature * attrs_t * g_attrs_t) : M unit :=
  let '(feat, attributes, geom_attributes) := item in
  for_each geom_attributes
           (fun ng => print_geometry feat attributes (fst ng) (snd ng)).

Definition print_features_geojson (wfs_ds : DataSource)
           (layer_name : string) (server_attribute_filter : option string)
  : M (stop_reason * locals) :=
  get_features wfs_ds layer_name server_attribute_filter print_feature.

(** The iterator on its own: the consumer only records what it is
    handed. *)
Definition yield_only (item : Feature * attrs_t * g_attrs_t) : M unit :=
  let '(feat, attributes, geom_attributes) := item in
  emit (EvYield feat attributes geom_attributes).

(** ** The script *)

(** Lines 21-30. *)
Definition parse_args (argv : list string)
  : result (string * string * option string) :=
  match nth_error argv 1 with
  | None => Raise IndexError
  | Some url =>
      match nth_error argv 2 with
      | None => Raise IndexError
      | Some layer_name => Ok (url, layer_name, nth_error argv 3)
      end
  end.

(** Lines 149-158; the [sys.exit(0)] of line 159 is in [main]. *)
Definition list_layers (wfs_ds : DataSource) : M unit :=
  stdout ("Printing server layer list and exiting." ++ newline)%string ;;;
  let num_layers := GetLayerCount wfs_ds in
  stdout ("Layer count: " ++ str_of_Z (Z.of_nat num_layers)
                          ++ newline)%string ;;;
  for_each (seq 0 num_layers)
    (fun i => match GetLayerByIndex wfs_ds i with
              | None => raise AttributeError
              | Some layer =>
                  stdout ("Layer " ++ str_of_Z (Z.of_nat i) ++ ": "
                            ++ GetName layer ++ newline)%string
              end).

(** How the process ends. *)
Inductive termination : Type :=
| Exited (code : Z)    (* [sys.exit(code)], or the end of the script *)
| Uncaught (e : exn).  (* an exception nobody caught *)

Definition exit_status (x : termination) : Z :=
  match x with
  | Exited code => code
  | Uncaught _ => 1
  end.

(** The end of a part of the script that exits with [code] when it
    completes. *)
Definition terminate {A : Type} (m : M A) (code : Z)
  : trace * option termination :=
  match m with
  | (t, Some (Ok _)) => (t, Some (Exited code))
  | (t, Some (Raise e)) => (t, Some (Uncaught e))
  | (t, None) => (t, None)
  end.

(** Lines 33-36. *)
Definition banner (url layer_name : string)
           (server_attribute_filter : option string) : M unit :=
  stderr (DWFS url) ;;;
  stderr (DLayer (if String.eqb layer_name "" then "<EMPTY>"
                  else layer_name)) ;;;
  if truthy server_attribute_filter
  then stderr (DFiltering
                 (match server_attribute_filter with
                  | Some f => f | None => ""%string end))
  else ret tt.

(** The script: the arguments (lines 21-30), the banner, the service
    and its [assert] (lines 38-39), then the layer listing (lines
    149-159) or the scan (lines 162-167). *)
Definition main (Open : string -> option DataSource) (argv : list string)
  : trace * option termination :=
  match parse_args argv with
  | Raise _ =>
      terminate (stderr (DUsage (nth 0 argv ""%string))) 1
  | Ok (url, layer_name, server_attribute_filter) =>
      terminate
        (banner url layer_name server_attribute_filter ;;;
         wfs_ds <- match Open ("WFS:" ++ url)%string with
                   | Some ds => if ds_truthy ds then ret ds
                                else raise AssertionError
                   | None => raise AssertionError
                   end ;;
         if String.eqb layer_name ""
         then list_layers wfs_ds
         else print_features_geojson wfs_ds layer_name
                                     server_attribute_filter ;;;
              ret tt)
        0
  end.

Definition stdout_of (t : trace) : list string :=
  flat_map (fun e => match e with EvStdout s => [s] | _ => [] end) t.

Definition sleeps_of (t : trace) : list Z :=
  flat_map (fun e => match e with EvSleep s => [s] | _ => [] end) t.

Definition fetches_of (t : trace) : nat :=
  List.length (filter (fun e => match e with EvGetNextFeature => true
                                   | _ => false end) t).

(** ** Vocabulary of the statements *)

(** A cursor advance fails when it raises or returns [None]. *)
Definition is_failure (o : fetch_outcome) : bool :=
  match o with
  | Returns (Some _) => false
  | _ => true
  end.

(** The exception the handler of line 80 receives. *)
Definition caught (o : fetch_outcome) (backoff : Z) : exn :=
  match o with
  | Throws => GdalError
  | _ => OutOfData backoff
  end.

(** What a failed advance followed by a retry leaves in the trace. *)
Definition retry_events (o : fetch_outcome) (backoff : Z) : trace :=
  [EvGetNextFeature; EvStderr (DTraceback (caught o backoff));
   EvStderr (DTryingAgain (2 ^ backoff) backoff); EvSleep (2 ^ backoff)].

(** What the failed advance that stops the loop leaves in the trace. *)
Definition abort_events (o : fetch_outcome) (backoff : Z) : trace :=
  [EvGetNextFeature; EvStderr (DTraceback (caught o backoff));
   EvStderr (DMaxRetries backoff)].

Fixpoint retries_trace (fails : list fetch_outcome) (backoff : Z) : trace :=
  match fails with
  | [] => []
  | o :: fails' => retry_events o backoff ++ retries_trace fails' (backoff + 1)
  end.

Definition prepend {A : Type} (t : trace) (m : M A) : M A :=
  (t ++ fst m, snd m).

Definition with_cursor (st : locals) (c : list fetch_outcome) : locals :=
  {| cursor := c; n_features := n_features st; backoff := backoff st;
     names := names st; gnames := gnames st |}.

Definition with_backoff (st : locals) (b : Z) : locals :=
  {| cursor := cursor st; n_features := n_features st; backoff := b;
     names := names st; gnames := gnames st |}.

(** What follows an iteration of the loop. *)
Definition next (consume : Feature * attrs_t * g_attrs_t -> M unit)
           (num_features : Z) (fuel : nat) (c : control)
  : M (stop_reason * locals) :=
  match c with
  | Continue st' => while_true fuel consume num_features st'
  | Break why st' => ret (why, st')
  end.

(** The cursor at its end: [retries] more sleeps, then the stop. *)
Fixpoint end_trace (retries : nat) (backoff : Z) : trace :=
  match retries with
  | O => abort_events (Returns None) backoff
  | S r => retry_events (Returns None) backoff ++ end_trace r (backoff + 1)
  end.

(** The part of the trace that a run of consecutive failures starting
    at level 0 accounts for: up to three retries and, when there is a
    fourth failure, the stop. *)
Definition failure_run_trace (fails : list fetch_outcome) : trace :=
  retries_trace (firstn 3 fails) 0
  ++ match nth_error fails 3 with
     | Some o => abort_events o 3
     | None => []
     end.

(** The locals at the head of the loop after [n] completed iterations,
    when the loop is still running then. *)
Fixpoint state_after (consume : Feature * attrs_t * g_attrs_t -> M unit)
         (num_features : Z) (n : nat) (st : locals) : option locals :=
  match n with
  | O => Some st
  | S n' =>
      match snd (while_body consume num_features st) with
      | Some (Ok (Continue st')) => state_after consume num_features n' st'
      | _ => None
      end
  end.

(** The outcomes of the first [n] advances of the cursor [c]. *)
Definition consumed (c : list fetch_outcome) (n : nat) : list fetch_outcome :=
  map (fun i => nth i c (Returns None)) (seq 0 n).

Fixpoint failures_in_a_row (os : list fetch_outcome) : nat :=
  match os with
  | [] => O
  | o :: os' => if is_failure o then S (failures_in_a_row os') else O
  end.

(** The number of consecutive failures since the last success, or since
    the start, after the advances [os]. *)
Definition consecutive_failures (os : list fetch_outcome) : nat :=
  failures_in_a_row (rev os).

(** A computation that gives an answer. *)
Definition total {A : Type} (m : M A) : Prop := snd m <> None.

Fixpoint first_feature (c : list fetch_outcome) : option Feature :=
  match c with
  | [] => None
  | Returns (Some f) :: _ => Some f
  | _ :: c' => first_feature c'
  end.

(** The names lines 97-100 read from a feature. *)
Definition schema_of (feat : Feature) : result (list string * list string) :=
  match list_comp (GetFieldDefnRef feat) (seq 0 (GetFieldCount feat)) with
  | Raise e => Raise e
  | Ok defns =>
      match list_comp (GetGeomFieldDefnRef feat)
                      (seq 0 (GetGeomFieldCount feat)) with
      | Raise e => Raise e
      | Ok gdefns => Ok (map fd_GetName defns, map gd_GetName gdefns)
      end
  end.

Definition is_summary (e : event) : bool :=
  match e with
  | EvStderr DFinished | EvStderr (DFinalCount _) => true
  | _ => false
  end.

Definition is_capture (e : event) : bool :=
  match e with
  | EvStderr (DFirstFeature _) => true
  | _ => false
  end.

Definition is_yield (e : event) : bool :=
  match e with
  | EvYield _ _ _ => true
  | _ => false
  end.

(** The arguments ask for the layer listing. *)
Definition listing_mode (argv : list string) : Prop :=
  exists url flt, parse_args argv = Ok (url, ""%string, flt).

(** The arguments ask for a scan, the service opens and passes the
    [assert] of line 39, and the iterator stops for the reason [why]
    with the trace [ts] and the locals [st]. *)
Definition scan_stopped (Open : string -> option DataSource)
           (argv : list string) (why : stop_reason) (ts : trace)
           (st : locals) : Prop :=
  exists url layer_name flt wfs_ds,
    parse_args argv = Ok (url, layer_name, flt)
    /\ layer_name <> ""%string
    /\ Open ("WFS:" ++ url)%string = Some wfs_ds
    /\ ds_truthy wfs_ds = true
    /\ print_features_geojson wfs_ds layer_name flt
       = (ts, Some (Ok (why, st))).

(** The events of the advance of the cursor and of its retries. *)
Definition advance_event (e : event) : bool :=
  match e with
  | EvGetNextFeature | EvSleep _ => true
  | EvStderr (DTraceback _) | EvStderr (DMaxRetries _)
  | EvStderr (DTryingAgain _ _) => true
  | _ => false
  end.

(** The diagnostics of the schema capture and of the progress report. *)
Definition bookkeeping_event (e : event) : bool :=
  match e with
  | EvStderr (DFirstFeature _) | EvStderr (DGeomDefn _ _)
  | EvStderr (DProgress _ _) => true
  | _ => false
  end.

(** The events the loop of [get_features] itself leaves in the trace. *)
Definition iterator_event (e : event) : bool :=
  advance_event e || bookkeeping_event e.

(** The events [print_features_geojson] adds for the features it is
    handed. *)
Definition printer_event (e : event) : bool :=
  match e with
  | EvStdout _ | EvStderr (DSkipEmptyGeom _ _ _) => true
  | _ => false
  end.

(** All the events of a computation satisfy [P]. *)
Definition events_in {A : Type} (P : event -> Prop) (m : M A) : Prop :=
  Forall P (fst m).

(** Lines 140-145 raise [e] on the geometry [geom]: in the
    linearization, the WKB export, the WKB parsing or the mapping, or in
    [json.dump]. *)
Definition geometry_raises (attributes : attrs_t) (geom : Geometry)
           (e : exn) : Prop :=
  geo_record attributes geom = Raise e
  \/ exists r, geo_record attributes geom = Ok r
               /\ snd (json_dump r) = Raise e.

(** The entry of [geom_attributes] is null or is printed without an
    exception. *)
Definition printed_ok (attributes : attrs_t)
           (ng : string * option Geometry) : Prop :=
  match snd ng with
  | None => True
  | Some geom => exists r, geo_record attributes geom = Ok r
                           /\ snd (json_dump r) = Ok tt
  end.

(** The first geometry that cannot be printed raises [e]. *)
Definition print_raises (attributes : attrs_t)
           (geom_attributes : g_attrs_t) (e : exn) : Prop :=
  exists pre name geom post,
    geom_attributes = pre ++ (name, Some geom) :: post
    /\ Forall (printed_ok attributes) pre
    /\ geometry_raises attributes geom e.

(** Handling the fetched feature [feat] raises [e]: in the schema
    capture, in the reading of the attribute or geometry fields, or in
    the printing of a geometry. *)
Definition raises_in_feature (feat : Feature) (st : locals) (e : exn)
  : Prop :=
  snd (bound_schema feat st) = Some (Raise e)
  \/ exists t sch,
      bound_schema feat st = (t, Some (Ok sch))
      /\ (snd (read_attributes feat sch) = Some (Raise e)
          \/ exists item,
              snd (read_attributes feat sch) = Some (Ok item)
              /\ print_raises (fst item) (snd item) e).

(** A trace with no capture and no yield. *)
Definition quiet (t : trace) : Prop :=
  Forall (fun e => is_capture e = false /\ is_yield e = false) t.

(** How many times the schema was captured. *)
Definition captures_of (t : trace) : nat :=
  List.length (filter is_capture t).

(** No feature is yielded before the schema capture: [seen] tells whether
    the capture has already happened. *)
Fixpoint yields_after_capture (seen : bool) (t : trace) : bool :=
  match t with
  | [] => true
  | e :: t' =>
      if is_yield e then seen && yields_after_capture seen t'
      else yields_after_capture (seen || is_capture e) t'
  end.

(** The field names the loop works with from the state [st] on: the
    cached ones, or those of the next feature to come when none has been
    seen yet. *)
Definition expected_schema (st : locals)
  : option (list string * list string) :=
  if n_features st =? 0
  then match first_feature (cursor st) with
       | Some f0 => match schema_of f0 with
                    | Ok s => Some s
                    | Raise _ => None
                    end
       | None => None
       end
  else match names st, gnames st with
       | Some ns, Some gns => Some (ns, gns)
       | _, _ => None
       end.

(** The writes to standard output for the geometry fields [fields] of a
    feature, in order: the JSON document and the newline of each field
    that is not null. *)
Definition lines_for (attributes : attrs_t)
           (fields : list (option Geometry)) : list string :=
  flat_map (fun og => match og with
                      | Some geom =>
                          match geo_record attributes geom with
                          | Ok r => [fst (json_dump r); newline]
                          | Raise _ => []
                          end
                      | None => []
                      end) fields.

Definition non_null (fields : list (option Geometry)) : nat :=
  List.length (filter (fun og => match og with
                                 | Some _ => true
                                 | None => false
                                 end) fields).

(** The two writes of lines 145-146 for the record [r]. *)
Definition line_writes (r : pyval) : list string :=
  [fst (json_dump r); newline].

(** The answer of a computation without its value. *)
Definition forget {A : Type} (r : option (result A))
  : option (result unit) :=
  match r with
  | Some (Ok _) => Some (Ok tt)
  | Some (Raise e) => Some (Raise e)
  | None => None
  end.

(** The number of writes to standard output in a trace. *)
Definition count_writes (t : trace) : Z :=
  fold_left (fun n e => match e with EvStdout _ => n + 1 | _ => n end) t 0.

(** A trace without its progress lines. *)
Definition erase_progress (t : trace) : trace :=
filter (fun e => match e with
                 | EvStderr (DProgress _ _) => false
                 | _ => true
                 end) t.

(** Two computations that differ at most in their progress lines. *)
Definition same_but_progress {A : Type} (m1 m2 : M A) : Prop :=
erase_progress (fst m1) = erase_progress (fst m2) /\ snd m1 = snd m2.

(** The answer of the script as an answer of the monad. *)
Definition answer_of (x : option termination) : option (result unit) :=
match x with
| Some (Exited _) => Some (Ok tt)
| Some (Uncaught e) => Some (Raise e)
| None => None
end.

(** ** Vocabulary of the delivery statements *)

(** The features a scan delivers: those the cursor returns before its
    first four failures in a row.  [fails] counts the failures since the
    last feature. *)
Fixpoint served_from (fails : nat) (c : list fetch_outcome)
  : list Feature :=
  match c with
  | [] => []
  | Returns (Some f) :: c' => f :: served_from 0 c'
  | _ :: c' => if (3 <=? fails)%nat then [] else served_from (S fails) c'
  end.

Definition served (c : list fetch_outcome) : list Feature :=
  served_from 0 c.

(** The triples handed to the consumer, in order. *)
Definition yields_of (t : trace)
  : list (Feature * attrs_t * g_attrs_t) :=
  flat_map (fun e => match e with
                     | EvYield f a g => [(f, a, g)]
                     | _ => []
                     end) t.

(** Lines 109-111 for the feature [f] under the cached names [s]. *)
Definition item_of (s : list string * list string) (f : Feature)
  : result (Feature * attrs_t * g_attrs_t) :=
  match dict_comp (GetField f) (fst s) with
  | Raise e => Raise e
  | Ok a =>
      match dict_comp (GetGeomFieldRef f) (snd s) with
      | Raise e => Raise e
      | Ok g => Ok (f, a, g)
      end
  end.

(** The progress lines of a trace: the count and the estimate shown. *)
Definition progress_of (t : trace) : list (Z * Z) :=
  flat_map (fun e => match e with
                     | EvStderr (DProgress n num) => [(n, num)]
                     | _ => []
                     end) t.

(** The field names the scan of the cursor [c] caches: those of its
    first feature. *)
Definition cached_schema (c : list fetch_outcome)
  : list string * list string :=
  match first_feature c with
  | Some f0 => match schema_of f0 with
               | Ok s => s
               | Raise _ => ([], [])
               end
  | None => ([], [])
  end.

(** The writes to standard output for the feature [f] under the cached
    names [s]. *)
Definition lines_of_feature (s : list string * list string) (f : Feature)
  : list string :=
  match item_of s f with
  | Ok (_, a, g) => lines_for a (map snd g)
  | Raise _ => []
  end.

(** The arguments name the layer [layer] of a service that opens and
    passes the [assert] of line 39, with the filter argument [flt], and
    the layer has a spatial reference. *)
Definition scans (Open : string -> option DataSource) (argv : list string)
           (layer : Layer) (flt : option string) : Prop :=
  exists url layer_name wfs_ds srs,
    parse_args argv = Ok (url, layer_name, flt)
    /\ layer_name <> ""%string
    /\ Open ("WFS:" ++ url)%string = Some wfs_ds
    /\ ds_truthy wfs_ds = true
    /\ GetLayerByName wfs_ds layer_name = Some layer
    /\ GetSpatialRef layer = Some srs.

(** The cursor and the estimated count the scan of [layer] works with. *)
Definition scanned (layer : Layer) (flt : option string)
  : list fetch_outcome :=
  features layer (if truthy flt then flt else None).

Definition estimate (layer : Layer) (flt : option string) : Z :=
  if truthy flt then 1000000 else GetFeatureCount layer.

(** The sum of the sleeps of a trace. *)
Definition slept (t : trace) : Z := fold_right Z.add 0 (sleeps_of t).

(** The counts at which a progress line is due while the count goes
    from [n] to [n + len]. *)
Definition due (n : Z) (len : nat) : list Z :=
  filter (fun m => m mod 10000 =? 0)
         (map (fun i => n + Z.of_nat i) (seq 1 len)).

(** What the script leaves in the trace before the scan: the banner of
    lines 33-36 and the layer session of lines 43-64. *)
Definition prologue (url layer_name : string) (flt : option string)
           (layer : Layer) (srs : SpatialRef) : trace :=
  [EvStderr (DWFS url); EvStderr (DLayer layer_name)]
  ++ (if truthy flt
      then let f := match flt with Some f => f | None => ""%string end in
           [EvStderr (DFiltering f); EvSetAttributeFilter f;
            EvStderr DFeaturesUnknown]
      else [EvGetFeatureCount;
            EvStderr (DFeatures (GetFeatureCount layer))])
  ++ [EvStderr (DSR (ExportToWkt srs))].

(** The number of advances that returned a feature. *)
Definition successes (os : list fetch_outcome) : nat :=
  List.length (filter (fun o => negb (is_failure o)) os).

(** ** Vocabulary of the statements on the script *)

(** The line of the layer listing for the layer at index [i]. *)
Definition layer_line (wfs_ds : DataSource) (i : nat) : string :=
  match GetLayerByIndex wfs_ds i with
  | Some layer =>
      ("Layer " ++ str_of_Z (Z.of_nat i) ++ ": " ++ GetName layer
                ++ newline)%string
  | None => EmptyString
  end.

(** The indices of [ixs], in order, up to the first one for which the
    service has no layer. *)
Fixpoint resolvable (wfs_ds : DataSource) (ixs : list nat) : list nat :=
  match ixs with
  | [] => []
  | i :: ixs' =>
      match GetLayerByIndex wfs_ds i with
      | Some _ => i :: resolvable wfs_ds ixs'
      | None => []
      end
  end.

(** The keys of a comprehension over [keys]: each key once, at the place
    of its first occurrence.  [seen] holds the keys already there. *)
Fixpoint distinct (seen keys : list string) : list string :=
  match keys with
  | [] => []
  | k :: ks =>
      if existsb (String.eqb k) seen then distinct seen ks
      else k :: distinct (seen ++ [k]) ks
  end.

(** The last position of the key [k] in [keys], counted from [i];
    [found] when it does not occur. *)
Fixpoint last_index_from (i : nat) (k : string) (keys : list string)
         (found : option nat) : option nat :=
  match keys with
  | [] => found
  | k' :: ks =>
      last_index_from (S i) k ks (if String.eqb k' k then Some i else found)
  end.

Definition last_index (k : string) (keys : list string) : option nat :=
  last_index_from 0 k keys None.

(** ** Vocabulary of the statements on the records *)

(** What lines 136-146 leave in the trace for one geometry field: the
    warning when it is null, the two writes of its record otherwise. *)
Definition field_events (feat : Feature) (attributes : attrs_t)
           (name : string) (og : option Geometry) : trace :=
  match og with
  | None => [EvStderr (DSkipEmptyGeom name feat attributes)]
  | Some geom =>
      match geo_record attributes geom with
      | Ok r => [EvStdout (fst (json_dump r)); EvStdout newline]
      | Raise _ => []
      end
  end.

(** The warnings of lines 138 in a trace: the names of the fields
    skipped. *)
Definition skipped_of (t : trace) : list string :=
  flat_map (fun e => match e with
                     | EvStderr (DSkipEmptyGeom name _ _) => [name]
                     | _ => []
                     end) t.

(** The names of the null fields among the geometry fields [fields]
    named [gns]. *)
Definition null_names (gns : list string) (fields : list (option Geometry))
  : list string :=
  flat_map (fun ng : string * option Geometry =>
              match snd ng with
              | None => [fst ng]
              | Some _ => []
              end) (combine gns fields).

(** The records of lines 140-144 for the entries of the dictionary of
    geometries [g] that are not null, in order. *)
Definition records_for (attributes : attrs_t) (g : g_attrs_t) : list pyval :=
  flat_map (fun ng : string * option Geometry =>
              match snd ng with
              | Some geom =>
                  match geo_record attributes geom with
                  | Ok r => [r]
                  | Raise _ => []
                  end
              | None => []
              end) g.

(** The records of the feature [f] under the cached names [s]. *)
Definition records_of (s : list string * list string) (f : Feature)
  : list pyval :=
  match item_of s f with
  | Ok (_, a, g) => records_for a g
  | Raise _ => []
  end.

(** The names the loop works with from the state [st] on: the cached
    ones, or those of the first feature to come when none has been seen
    yet. *)
Definition schema_from (st : locals) : list string * list string :=
  if n_features st =? 0 then cached_schema (cursor st)
  else match names st, gnames st with
       | Some ns, Some gns => (ns, gns)
       | _, _ => ([], [])
       end.

(** [out] is what a computation with the answer [res] has written of
    the records [expected]: the two writes of each of the first of
    them, all of them when it completed, and after them, when it was
    [json.dump] that raised on the next record, the text it had
    written. *)
Definition streamed (res : option (result unit)) (expected : list pyval)
           (out : list string) : Prop :=
  exists recs rest frag,
    expected = recs ++ rest
    /\ out = flat_map line_writes recs ++ frag
    /\ (res = Some (Ok tt) -> rest = [] /\ frag = [])
    /\ (frag = []
        \/ exists r rest' e,
            rest = r :: rest' /\ frag = [fst (json_dump r)]
            /\ snd (json_dump r) = Raise e /\ res = Some (Raise e)).

End Pipeline.

(** * A small service to run the script on *)

Module Sample.

(** A JSON writer for the values of the sample: compact separators, and
    no support for floats, on which it raises after the opening brace. *)
Fixpoint has_float (v : pyval) : bool :=
  match v with
  | PyFloat _ => true
  | PyList l => existsb has_float l
  | PyDict d => existsb (fun kv => has_float (snd kv)) d
  | _ => false
  end.

Definition quote (s : string) : string :=
  String "034"%char (s ++ String "034"%char EmptyString).

Fixpoint render (v : pyval) : string :=
  match v with
  | PyNone => "null"
  | PyBool true => "true"
  | PyBool false => "false"
  | PyInt z => str_of_Z z
  | PyFloat _ => ""
  | PyStr s => quote s
  | PyList l =>
      ("[" ++ (fix items (l : list pyval) : string :=
                 match l with
                 | [] => ""
                 | [x] => render x
                 | x :: l' => render x ++ "," ++ items l'
                 end) l ++ "]")%string
  | PyDict d =>
      ("{" ++ (fix items (d : list (string * pyval)) : string :=
                 match d with
                 | [] => ""
                 | [kv] => quote (fst kv) ++ ":" ++ render (snd kv)
                 | kv :: d' => quote (fst kv) ++ ":" ++ render (snd kv)
                                     ++ "," ++ items d'
                 end) d ++ "}")%string
  end.

(** Line breaks are written as the two characters of their escape. *)
Fixpoint escape (s : string) : string :=
  match s with
  | EmptyString => EmptyString
  | String ch s' =>
      if Ascii.eqb ch "010"%char then String "\"%char (String "n"%char (escape s'))
      else String ch (escape s')
  end.

#[export] Instance lib : GeoLib := {|
  Geometry := list Byte.byte;
  BaseGeometry := list Byte.byte;
  GetLinearGeometry := fun g => Ok g;
  ExportToWkb := fun g => Ok g;
  wkb_loads := fun wkb => match wkb with
                          | [] => Raise ShapelyError
                          | _ => Ok wkb
                          end;
  mapping := fun sh =>
               Ok [("type"%string, PyStr "Point");
                   ("coordinates"%string,
                    PyList (map (fun b => PyInt (Z.of_N (Byte.to_N b)))
                                sh))];
  json_dump := fun v => if has_float v then ("{"%string, Raise JsonError)
                        else (escape (render v), Ok tt)
|}.

Definition epsg4326 : SpatialRef := {| ExportToWkt := "GEOGCS[WGS 84]" |}.

(** A feature from its attribute fields (name, type, value) and its
    geometry fields (name, geometry). *)
Definition feature (fields : list (string * string * pyval))
           (geoms : list (string * option (list Byte.byte))) : Feature :=
  {| GetFieldCount := List.length fields;
     GetFieldDefnRef :=
       fun i => match nth_error fields i with
                | Some (n, t, _) =>
                    Ok {| fd_GetName := n; fd_GetTypeName := t |}
                | None => Raise GdalError
                end;
     GetField :=
       fun i => match nth_error fields i with
                | Some (_, _, v) => Ok v
                | None => Raise GdalError
                end;
     GetGeomFieldCount := List.length geoms;
     GetGeomFieldDefnRef :=
       fun i => match nth_error geoms i with
                | Some (n, _) =>
                    Ok {| gd_GetName := n;
                          gd_GetSpatialRef := Some epsg4326 |}
                | None => Raise GdalError
                end;
     GetGeomFieldRef :=
       fun i => match nth_error geoms i with
                | Some (_, g) => Ok g
                | None => Raise GdalError
                end |}.

Definition point (x y : Byte.byte) : option (list Byte.byte) :=
  Some [x; y].

Definition road : Feature :=
  feature [("name"%string, "String"%string, PyStr "A1");
           ("lanes"%string, "Integer"%string, PyInt 2)]
          [("geom"%string, point Byte.x01 Byte.x02)].

Definition path : Feature :=
  feature [("name"%string, "String"%string, PyStr "B7");
           ("lanes"%string, "Integer"%string, PyNone)]
          [("geom"%string, None)].

(** Two geometry fields under one name. *)
Definition twin : Feature :=
  feature [("name"%string, "String"%string, PyStr "C3")]
          [("geom"%string, point Byte.x01 Byte.x02);
           ("geom"%string, point Byte.x03 Byte.x04)].

Definition two_geoms : Feature :=
  feature [("name"%string, "String"%string, PyStr "D4")]
          [("centre"%string, point Byte.x05 Byte.x06);
           ("gate"%string, None);
           ("exit"%string, point Byte.x07 Byte.x08)].

(** A geometry with an empty WKB, which shapely refuses. *)
Definition broken : Feature :=
  feature [("name"%string, "String"%string, PyStr "E5")]
          [("geom"%string, Some [])].

(** A float attribute, which the sample JSON writer refuses. *)
Definition measured : Feature :=
  feature [("width"%string, "Real"%string, PyFloat 4612811918334230528)]
          [("geom"%string, point Byte.x01 Byte.x01)].

Definition layer (count : Z) (c : list fetch_outcome) : Layer :=
  {| GetSpatialRef := Some epsg4326;
     GetName := "roads";
     GetFeatureCount := count;
     features := fun _ => c |}.

(** A service with one layer, [roads]. *)
Definition service (count : Z) (c : list fetch_outcome) : DataSource :=
  {| GetLayerByName :=
       fun n => if String.eqb n "roads" then Some (layer count c) else None;
     GetLayerCount := 1;
     GetLayerByIndex :=
       fun i => match i with
                | O => Some (layer count c)
                | _ => None
                end |}.

Definition Open (count : Z) (c : list fetch_outcome) (name : string)
  : option DataSource :=
  if String.eqb name "WFS:http://example.org/wfs"
  then Some (service count c) else None.

Definition argv : list string :=
  ["dump_wfs.py"%string; "http://example.org/wfs"%string; "roads"%string].

(** A cursor that stalls twice before its second feature. *)
Definition stalling : list fetch_outcome :=
  [Returns (Some road); Throws; Returns None; Returns (Some path)].

(** A layer of 10001 features. *)
Definition long_cursor : list fetch_outcome :=
  repeat (Returns (Some road)) (Z.to_nat 10001).

(** Arguments that ask for the layer listing, and arguments for a
    service that does not open. *)
Definition argv_listing : list string :=
  ["dump_wfs.py"%string; "http://example.org/wfs"%string; ""%string].

Definition argv_elsewhere : list string :=
  ["dump_wfs.py"%string; "http://elsewhere.example/wfs"%string;
   "roads"%string].

(** Two geometry fields under one name, one of them null: the null one
    last, and the null one first. *)
Definition masked : Feature :=
  feature [("name"%string, "String"%string, PyStr "F6")]
          [("geom"%string, point Byte.x01 Byte.x02);
           ("geom"%string, None)].

Definition unwarned : Feature :=
  feature [("name"%string, "String"%string, PyStr "G7")]
          [("geom"%string, None);
           ("geom"%string, point Byte.x03 Byte.x04)].

(** A service that opens without layers. *)
Definition vacant : DataSource :=
  {| GetLayerByName := fun _ => None;
     GetLayerCount := 0;
     GetLayerByIndex := fun _ => None |}.

Definition Open_vacant (name : string) : option DataSource :=
  if String.eqb name "WFS:http://example.org/wfs"
  then Some vacant else None.

(** A filter argument. *)
Definition argv_filtered : list string :=
  ["dump_wfs.py"%string; "http://example.org/wfs"%string; "roads"%string;
   "lanes>1"%string].

(** A layer without spatial reference, under the name [tracks]. *)
Definition unreferenced (count : Z) (c : list fetch_outcome) : Layer :=
  {| GetSpatialRef := None;
     GetName := "tracks";
     GetFeatureCount := count;
     features := fun _ => c |}.

Definition service_tracks (count : Z) (c : list fetch_outcome)
  : DataSource :=
  {| GetLayerByName :=
       fun n => if String.eqb n "tracks"
                then Some (unreferenced count c) else None;
     GetLayerCount := 1;
     GetLayerByIndex :=
       fun i => match i with
                | O => Some (unreferenced count c)
                | _ => None
                end |}.

Definition Open_tracks (count : Z) (c : list fetch_outcome)
           (name : string) : option DataSource :=
  if String.eqb name "WFS:http://example.org/wfs"
  then Some (service_tracks count c) else None.

Definition argv_tracks : list string :=
  ["dump_wfs.py"%string; "http://example.org/wfs"%string;
   "tracks"%string].

(** A second geometry engine, for geometry collections: as shapely
    does, [mapping] gives such a geometry the members [type] and
    [geometries], and no member [coordinates]. *)
Definition collections : GeoLib := {|
  Geometry := list Byte.byte;
  BaseGeometry := list Byte.byte;
  GetLinearGeometry := fun g => Ok g;
  ExportToWkb := fun g => Ok g;
  wkb_loads := fun wkb => match wkb with
                          | [] => Raise ShapelyError
                          | _ => Ok wkb
                          end;
  mapping := fun sh =>
               Ok [("type"%string, PyStr "GeometryCollection");
                   ("geometries"%string,
                    PyList
                      [PyDict
                         [("type"%string, PyStr "Point");
                          ("coordinates"%string,
                           PyList (map (fun b => PyInt (Z.of_N (Byte.to_N b)))
                                       sh))]])];
  json_dump := fun v => if has_float v then ("{"%string, Raise JsonError)
                        else (escape (render v), Ok tt)
|}.

Section Parks.
#[local] Existing Instance collections | 0.

(** A feature of that engine with one attribute and one geometry, a
    collection of one point. *)
Definition park : Feature :=
  {| GetFieldCount := 1;
     GetFieldDefnRef :=
       fun i => match i with
                | O => Ok {| fd_GetName := "name";
                             fd_GetTypeName := "String" |}
                | _ => Raise GdalError
                end;
     GetField :=
       fun i => match i with
                | O => Ok (PyStr "P1")
                | _ => Raise GdalError
                end;
     GetGeomFieldCount := 1;
     GetGeomFieldDefnRef :=
       fun i => match i with
                | O => Ok {| gd_GetName := "geom";
                             gd_GetSpatialRef := Some epsg4326 |}
                | _ => Raise GdalError
                end;
     GetGeomFieldRef :=
       fun i => match i with
                | O => Ok (Some [Byte.x01; Byte.x02])
                | _ => Raise GdalError
                end |}.

Definition parks : Layer :=
  {| GetSpatialRef := Some epsg4326;
     GetName := "parks";
     GetFeatureCount := 1;
     features := fun _ => [Returns (Some park)] |}.

Definition service_parks : DataSource :=
  {| GetLayerByName :=
       fun n => if String.eqb n "parks" then Some parks else None;
     GetLayerCount := 1;
     GetLayerByIndex :=
       fun i => match i with
                | O => Some parks
                | _ => None
                end |}.

Definition Open_parks (name : string) : option DataSource :=
  if String.eqb name "WFS:http://example.org/wfs"
  then Some service_parks else None.

End Parks.

Definition argv_parks : list string :=
  ["dump_wfs.py"%string; "http://example.org/wfs"%string; "parks"%string].

End Sample.

(** * Properties *)

Section Theory.
Context {lib : GeoLib}.

(** ** The loop, step by step *)

Section Loop.
Variable consume : Feature * attrs_t * g_attrs_t -> M unit.
Variable num_features : Z.

Lemma prepend_nil {A : Type} (m : M A) : prepend [] m = m.
Proof. destruct m; reflexivity. Qed.

Lemma prepend_app {A : Type} (t1 t2 : trace) (m : M A) :
  prepend (t1 ++ t2) m = prepend t1 (prepend t2 m).
Proof. unfold prepend; simpl. now rewrite app_assoc. Qed.

Lemma bind_prepend {A B : Type} (t : trace) (m : M A) (f : A -> M B) :
  bind (prepend t m) f = prepend t (bind m f).
Proof.
  destruct m as [t' [[a|e]|]]; unfold prepend, bind; simpl;
    try reflexivity.
  destruct (f a) as [t'' r]; simpl. now rewrite app_assoc.
Qed.

Lemma bind_emit {B : Type} (e : event) (f : unit -> M B) :
  bind (emit e) f = prepend [e] (f tt).
Proof. unfold bind, emit, prepend. now destruct (f tt). Qed.

Lemma bind_ret {A B : Type} (a : A) (f : A -> M B) :
  bind (ret a) f = f a.
Proof. unfold bind, ret. now destruct (f a). Qed.

Lemma while_body_retry (st : locals) (o : fetch_outcome)
      (c : list fetch_outcome) :
  GetNextFeature (cursor st) = (o, c) ->
  is_failure o = true ->
  backoff st < 3 ->
  while_body consume num_features st
  = (retry_events o (backoff st),
     Some (Ok (Continue (with_backoff (with_cursor st c)
                                      (backoff st + 1))))).
Proof.
  intros Hn Hf Hb. unfold while_body. rewrite Hn. cbn [backoff cursor].
  assert (Ht : try_block o (backoff st) = Raise (caught o (backoff st))).
  { destruct o as [[f|]|]; simpl in *; congruence. }
  rewrite Ht.
  destruct (3 <=? backoff st) eqn:E; [apply Z.leb_le in E; lia|].
  reflexivity.
Qed.

Lemma while_body_abort (st : locals) (o : fetch_outcome)
      (c : list fetch_outcome) :
  GetNextFeature (cursor st) = (o, c) ->
  is_failure o = true ->
  3 <= backoff st ->
  while_body consume num_features st
  = (abort_events o (backoff st),
     Some (Ok (Break ABORTED (with_cursor st c)))).
Proof.
  intros Hn Hf Hb. unfold while_body. rewrite Hn. cbn [backoff cursor].
  assert (Ht : try_block o (backoff st) = Raise (caught o (backoff st))).
  { destruct o as [[f|]|]; simpl in *; congruence. }
  rewrite Ht.
  destruct (3 <=? backoff st) eqn:E; [|apply Z.leb_gt in E; lia].
  reflexivity.
Qed.

Lemma while_body_feature (st : locals) (f : Feature)
      (c : list fetch_outcome) :
  GetNextFeature (cursor st) = (Returns (Some f), c) ->
  while_body consume num_features st
  = prepend [EvGetNextFeature]
            (bind (process_feature consume num_features f
                                   (with_backoff (with_cursor st c) 0))
                  (fun st' => ret (Continue st'))).
Proof.
  intros Hn. unfold while_body. rewrite Hn. cbn [try_block].
  rewrite bind_emit. reflexivity.
Qed.

Lemma bind_ok {A B : Type} (m : M A) (f : A -> M B) (t : trace) (b : B) :
  bind m f = (t, Some (Ok b)) ->
  exists t1 a t2,
    m = (t1, Some (Ok a)) /\ f a = (t2, Some (Ok b)) /\ t = t1 ++ t2.
Proof.
  destruct m as [t1 [[a|e]|]]; unfold bind; try discriminate.
  destruct (f a) as [t2 r] eqn:E. intros H. injection H as <- ->.
  now exists t1, a, t2.
Qed.

(** The iteration leaves the cursor where the advance put it. *)
Lemma process_feature_locals (f : Feature) (st st' : locals) (t : trace) :
  process_feature consume num_features f st = (t, Some (Ok st')) ->
  cursor st' = cursor st /\ backoff st' = backoff st
  /\ n_features st' = n_features st + 1.
Proof.
  unfold process_feature. intros H.
  repeat (apply bind_ok in H; destruct H as (? & ? & ? & ? & H & ?)).
  injection H as _ <-. cbn [cursor backoff n_features].
  repeat split.
  match goal with
  | H : count_and_report _ _ = _ |- _ =>
      unfold count_and_report in H; apply bind_ok in H;
      destruct H as (? & ? & ? & _ & H & _); now injection H as _ <-
  end.
Qed.

Lemma bind_value {A B : Type} (t : trace) (a : A) (f : A -> M B) :
  bind (t, Some (Ok a)) f = prepend t (f a).
Proof. unfold bind, prepend. now destruct (f a). Qed.

Lemma bind_ext {A B : Type} (m : M A) (f g : A -> M B) :
  (forall t a, m = (t, Some (Ok a)) -> f a = g a) ->
  bind m f = bind m g.
Proof.
  destruct m as [t [[a|e]|]]; intros H; try reflexivity.
  unfold bind. now rewrite (H t a eq_refl).
Qed.

Lemma bind_bind {A B C : Type} (m : M A) (f : A -> M B) (g : B -> M C) :
  bind (bind m f) g = bind m (fun a => bind (f a) g).
Proof.
  destruct m as [t [[a|e]|]]; try reflexivity.
  rewrite !bind_value. now rewrite bind_prepend.
Qed.

Lemma while_true_S (fuel : nat) (st : locals) :
  while_true (S fuel) consume num_features st
  = bind (while_body consume num_features st) (next consume num_features fuel).
Proof. reflexivity. Qed.

(** More fuel does not change an answer. *)
Lemma while_true_more_fuel (fuel : nat) :
  forall (fuel' : nat) (st : locals),
    snd (while_true fuel consume num_features st) <> None ->
    (fuel <= fuel')%nat ->
    while_true fuel' consume num_features st
    = while_true fuel consume num_features st.
Proof.
  induction fuel as [|fuel IH]; intros fuel' st Hs Hle.
  - simpl in Hs. congruence.
  - destruct fuel' as [|fuel']; [lia|].
    rewrite !while_true_S in *.
    destruct (while_body consume num_features st) as [t [[c|e]|]];
      try reflexivity.
    rewrite !bind_value in *. f_equal.
    destruct c as [st'|why st']; [|reflexivity].
    simpl in *. apply IH; [assumption|lia].
Qed.

Lemma run_retry (st : locals) (o : fetch_outcome)
      (c : list fetch_outcome) :
  cursor st = o :: c ->
  is_failure o = true ->
  backoff st < 3 ->
  run consume num_features st
  = prepend (retry_events o (backoff st))
            (run consume num_features
                 (with_backoff (with_cursor st c) (backoff st + 1))).
Proof.
  intros Hc Hf Hb. unfold run. rewrite Hc.
  change (enough_fuel (o :: c)) with (S (enough_fuel c)).
  rewrite while_true_S, (while_body_retry st o c);
    [now rewrite bind_value|now rewrite Hc|assumption|assumption].
Qed.

Lemma run_abort (st : locals) (o : fetch_outcome)
      (c : list fetch_outcome) :
  cursor st = o :: c ->
  is_failure o = true ->
  3 <= backoff st ->
  run consume num_features st
  = (abort_events o (backoff st),
     Some (Ok (ABORTED, with_cursor st c))).
Proof.
  intros Hc Hf Hb. unfold run. rewrite Hc.
  change (enough_fuel (o :: c)) with (S (enough_fuel c)).
  rewrite while_true_S, (while_body_abort st o c);
    [reflexivity|now rewrite Hc|assumption|assumption].
Qed.

Lemma run_feature (st : locals) (f : Feature) (c : list fetch_outcome) :
  cursor st = Returns (Some f) :: c ->
  run consume num_features st
  = prepend [EvGetNextFeature]
            (bind (process_feature consume num_features f
                                   (with_backoff (with_cursor st c) 0))
                  (run consume num_features)).
Proof.
  intros Hc. unfold run at 1. rewrite Hc.
  change (enough_fuel (Returns (Some f) :: c)) with (S (enough_fuel c)).
  rewrite while_true_S, (while_body_feature st f c) by now rewrite Hc.
  rewrite bind_prepend, bind_bind. f_equal.
  apply bind_ext. intros t st' Hp. rewrite bind_ret.
  apply process_feature_locals in Hp. destruct Hp as (Hc' & _).
  unfold next, run. now rewrite Hc'.
Qed.

Lemma while_true_end (r : nat) :
  forall (fuel : nat) (st : locals),
    cursor st = [] ->
    r = Z.to_nat (3 - backoff st) ->
    (r < fuel)%nat ->
    while_true fuel consume num_features st
    = (end_trace r (backoff st),
       Some (Ok (ABORTED,
                 with_backoff (with_cursor st [])
                              (backoff st + Z.of_nat r)))).
Proof.
  induction r as [|r IH]; intros fuel st Hc Hr Hlt;
    (destruct fuel as [|fuel]; [lia|]); rewrite while_true_S.
  - rewrite (while_body_abort st (Returns None) []);
      [|now rewrite Hc|reflexivity|lia].
    rewrite bind_value. unfold prepend, next, ret; simpl.
    rewrite Z.add_0_r. destruct st; simpl in *. now subst.
  - rewrite (while_body_retry st (Returns None) []);
      [|now rewrite Hc|reflexivity|lia].
    rewrite bind_value. unfold next.
    rewrite IH; [|reflexivity|cbn [backoff with_backoff]; lia|lia].
    unfold prepend; cbn [fst snd end_trace backoff with_backoff].
    do 4 f_equal. unfold with_backoff, with_cursor.
    cbn [cursor n_features backoff names gnames]. f_equal. lia.
Qed.

Lemma run_end (st : locals) :
  cursor st = [] ->
  0 <= backoff st ->
  run consume num_features st
  = (end_trace (Z.to_nat (3 - backoff st)) (backoff st),
     Some (Ok (ABORTED,
               with_backoff (with_cursor st [])
                            (backoff st
                             + Z.of_nat (Z.to_nat (3 - backoff st)))))).
Proof.
  intros Hc Hb. unfold run. rewrite Hc.
  apply while_true_end; auto. unfold enough_fuel. cbn [List.length]. lia.
Qed.

(** ** Runs of consecutive failures *)

Lemma locals_eq (a b : locals) :
  cursor a = cursor b -> n_features a = n_features b ->
  backoff a = backoff b -> names a = names b -> gnames a = gnames b ->
  a = b.
Proof. destruct a, b; simpl; intros; subst; reflexivity. Qed.

Lemma run_retries (fails : list fetch_outcome) :
  forall (st : locals) (rest : list fetch_outcome),
    forallb is_failure fails = true ->
    cursor st = fails ++ rest ->
    backoff st + Z.of_nat (List.length fails) <= 3 ->
    run consume num_features st
    = prepend (retries_trace fails (backoff st))
              (run consume num_features
                   (with_backoff (with_cursor st rest)
                      (backoff st + Z.of_nat (List.length fails)))).
Proof.
  induction fails as [|o fails IH]; intros st rest Hf Hc Hb.
  - cbn [retries_trace List.length Z.of_nat]. rewrite prepend_nil.
    f_equal. apply locals_eq; simpl; auto; lia.
  - cbn [forallb] in Hf. apply andb_prop in Hf. destruct Hf as [Ho Hf].
    cbn [List.length] in Hb.
    rewrite (run_retry st o (fails ++ rest)); auto; [|lia].
    rewrite IH with (rest := rest); auto;
      [|cbn [backoff with_backoff]; lia].
    cbn [retries_trace]. rewrite prepend_app.
    match goal with
    | |- prepend _ (prepend _ (run _ _ ?a))
         = prepend _ (prepend _ (run _ _ ?b)) =>
        replace a with b; [reflexivity|]
    end.
    apply locals_eq; cbn [List.length]; simpl; auto; lia.
Qed.

Lemma fetches_retries (fails : list fetch_outcome) (b : Z) :
  fetches_of (retries_trace fails b) = List.length fails.
Proof.
  revert b. induction fails as [|o fails IH]; intros b; [reflexivity|].
  unfold fetches_of in *. cbn [retries_trace retry_events app filter].
  cbn [List.length]. now rewrite IH.
Qed.

Lemma sleeps_retries (fails : list fetch_outcome) (b : Z) :
  sleeps_of (retries_trace fails b)
  = map (fun i => 2 ^ (b + Z.of_nat i)) (seq 0 (List.length fails)).
Proof.
  revert b. induction fails as [|o fails IH]; intros b; [reflexivity|].
  unfold sleeps_of in *.
  cbn [retries_trace retry_events app flat_map List.length seq map].
  rewrite IH, <- seq_shift, map_map. f_equal.
  - f_equal. cbn [Z.of_nat]. lia.
  - apply map_ext. intros i. f_equal. lia.
Qed.

Lemma fetches_failure_run (fails : list fetch_outcome) :
  fetches_of (failure_run_trace fails) = Nat.min (List.length fails) 4.
Proof.
  destruct fails as [|o1 [|o2 [|o3 [|o4 fails]]]]; try reflexivity.
  unfold failure_run_trace, fetches_of. cbn [firstn nth_error].
  rewrite filter_app, length_app.
  change (List.length (filter _ (retries_trace [o1; o2; o3] 0)))
    with (fetches_of (retries_trace [o1; o2; o3] 0)).
  rewrite fetches_retries. cbn. lia.
Qed.

Lemma sleeps_failure_run (fails : list fetch_outcome) :
  sleeps_of (failure_run_trace fails)
  = firstn (List.length fails) [1; 2; 4].
Proof.
  destruct fails as [|o1 [|o2 [|o3 [|o4 fails]]]]; reflexivity.
Qed.

(** Up to three failures: the loop goes on with what follows. *)
Lemma failure_run_short (st : locals) (fails rest : list fetch_outcome) :
  forallb is_failure fails = true ->
  backoff st = 0 ->
  cursor st = fails ++ rest ->
  (List.length fails <= 3)%nat ->
  run consume num_features st
  = prepend (failure_run_trace fails)
            (run consume num_features
                 (with_backoff (with_cursor st rest)
                               (Z.of_nat (List.length fails)))).
Proof.
  intros Hf Hb Hc Hn. unfold failure_run_trace.
  rewrite firstn_all2 by assumption.
  replace (nth_error fails 3) with (@None fetch_outcome)
    by (symmetry; apply nth_error_None; lia).
  rewrite app_nil_r, (run_retries fails st rest Hf Hc) by lia.
  now rewrite Hb.
Qed.

(** A fourth failure: the loop stops there. *)
Lemma failure_run_long (st : locals) (fails rest : list fetch_outcome) :
  forallb is_failure fails = true ->
  backoff st = 0 ->
  cursor st = fails ++ rest ->
  (4 <= List.length fails)%nat ->
  (exists o, failure_run_trace fails
             = retries_trace (firstn 3 fails) 0 ++ abort_events o 3)
  /\ run consume num_features st
     = (failure_run_trace fails,
        Some (Ok (ABORTED,
                  with_backoff (with_cursor st (skipn 4 fails ++ rest))
                               3))).
Proof.
  intros Hf Hb Hc Hn. unfold failure_run_trace.
  destruct fails as [|o1 [|o2 [|o3 [|o4 fails]]]];
    cbn [List.length] in Hn; try lia.
  cbn [firstn nth_error skipn]. split; [now exists o4|].
  cbn [forallb] in Hf.
  repeat (apply andb_prop in Hf; destruct Hf as [? Hf]).
  rewrite (run_retries [o1; o2; o3] st (o4 :: fails ++ rest));
    [|cbn; now repeat (apply andb_true_intro; split)
     |exact Hc|rewrite Hb; cbn; lia].
  rewrite (run_abort _ o4 (fails ++ rest));
    [|reflexivity|assumption|cbn [backoff with_backoff List.length]; lia].
  unfold prepend. cbn [fst snd]. rewrite Hb. reflexivity.
Qed.

(** C2.  From backoff level 0, a cursor that yields the [N >= 1]
    consecutive failures [fails] (an exception or [None] each) makes the
    iterator perform exactly [min N 4] advances on them and sleep 1, 2
    and 4 seconds after the first, second and third; with [N <= 3] it
    goes on with what follows at level [N], and at a fourth failure it
    stops (ABORTED) with no further sleep. *)
Theorem backoff_bound (st : locals) (fails rest : list fetch_outcome) :
  forallb is_failure fails = true ->
  (1 <= List.length fails)%nat ->
  backoff st = 0 ->
  cursor st = fails ++ rest ->
  fetches_of (failure_run_trace fails) = Nat.min (List.length fails) 4
  /\ sleeps_of (failure_run_trace fails)
     = firstn (List.length fails) [1; 2; 4]
  /\ ((List.length fails <= 3)%nat ->
      run consume num_features st
      = prepend (failure_run_trace fails)
                (run consume num_features
                     (with_backoff (with_cursor st rest)
                                   (Z.of_nat (List.length fails)))))
  /\ ((4 <= List.length fails)%nat ->
      (exists o, failure_run_trace fails
                 = retries_trace (firstn 3 fails) 0 ++ abort_events o 3)
      /\ run consume num_features st
         = (failure_run_trace fails,
            Some (Ok (ABORTED,
                      with_backoff (with_cursor st (skipn 4 fails ++ rest))
                                   3)))).
Proof.
  intros Hf Hn Hb Hc.
  split; [apply fetches_failure_run|].
  split; [apply sleeps_failure_run|].
  split; intros Hl.
  - now apply failure_run_short.
  - now apply failure_run_long.
Qed.

(** ** Induction over a run *)

Lemma run_cases (P : locals -> M (stop_reason * locals) -> Prop) :
  (forall st, cursor st = [] -> P st (run consume num_features st)) ->
  (forall st o c,
      cursor st = o :: c -> is_failure o = true -> backoff st < 3 ->
      P (with_backoff (with_cursor st c) (backoff st + 1))
        (run consume num_features
             (with_backoff (with_cursor st c) (backoff st + 1))) ->
      P st (prepend (retry_events o (backoff st))
                    (run consume num_features
                         (with_backoff (with_cursor st c)
                                       (backoff st + 1))))) ->
  (forall st o c,
      cursor st = o :: c -> is_failure o = true -> 3 <= backoff st ->
      P st (abort_events o (backoff st),
            Some (Ok (ABORTED, with_cursor st c)))) ->
  (forall st f c,
      cursor st = Returns (Some f) :: c ->
      (forall t st',
          process_feature consume num_features f
                          (with_backoff (with_cursor st c) 0)
          = (t, Some (Ok st')) ->
          P st' (run consume num_features st')) ->
      P st (prepend [EvGetNextFeature]
                    (bind (process_feature consume num_features f
                             (with_backoff (with_cursor st c) 0))
                          (run consume num_features)))) ->
  forall st, P st (run consume num_features st).
Proof.
  intros Hend Hretry Habort Hfeat st.
  remember (cursor st) as cur eqn:Hc. symmetry in Hc.
  revert st Hc. induction cur as [|o c IH]; intros st Hc.
  - now apply Hend.
  - destruct (is_failure o) eqn:Hf.
    + destruct (Z.lt_ge_cases (backoff st) 3) as [Hb|Hb].
      * rewrite (run_retry st o c) by assumption.
        apply Hretry; auto.
      * rewrite (run_abort st o c) by assumption.
        now apply Habort.
    + destruct o as [[f|]|]; try discriminate.
      rewrite (run_feature st f c) by assumption.
      apply Hfeat; auto. intros t st' Hp.
      apply IH. apply process_feature_locals in Hp. now destruct Hp.
Qed.

Lemma sleeps_end_trace :
  sleeps_of (end_trace 3 0) = [1; 2; 4]
  /\ fetches_of (end_trace 3 0) = 4%nat.
Proof. split; reflexivity. Qed.

Lemma end_trace_last (r : nat) :
  forall b, exists pre,
    end_trace r b = pre ++ abort_events (Returns None) (b + Z.of_nat r).
Proof.
  induction r as [|r IH]; intros b.
  - exists []. cbn [end_trace Z.of_nat]. now rewrite Z.add_0_r.
  - destruct (IH (b + 1)) as [pre Hpre].
    exists (retry_events (Returns None) b ++ pre).
    cbn [end_trace]. rewrite Hpre, <- app_assoc. do 3 f_equal. lia.
Qed.

(** The loop only ever stops through the [break] of line 84, taken at
    level 3. *)
Lemma run_stops_aborted (st : locals) :
  0 <= backoff st <= 3 ->
  forall t why st',
    run consume num_features st = (t, Some (Ok (why, st'))) ->
    why = ABORTED /\ backoff st' = 3
    /\ exists pre o, t = pre ++ abort_events o 3.
Proof.
  pattern st, (run consume num_features st). apply run_cases; clear st.
  - intros st Hc Hb t why st'. rewrite run_end by (auto; lia).
    remember (Z.to_nat (3 - backoff st)) as r eqn:Hr.
    intros H. injection H as <- <- <-. cbn [backoff with_backoff].
    split; [reflexivity|]. split; [lia|].
    destruct (end_trace_last r (backoff st)) as [pre Hpre].
    exists pre, (Returns None). rewrite Hpre. do 2 f_equal. lia.
  - intros st o c Hc Hf Hb IH Hb' t why st' H.
    destruct (run consume num_features _) as [t2 r2]; unfold prepend in H.
    cbn [fst snd] in H. injection H as <- ->.
    destruct (IH ltac:(cbn [backoff with_backoff]; lia) t2 why st' eq_refl)
      as (-> & Hb3 & pre & o' & ->).
    repeat split; auto.
    exists (retry_events o (backoff st) ++ pre), o'.
    reflexivity.
  - intros st o c Hc Hf Hb Hb' t why st' H. injection H as <- <- <-.
    cbn [backoff with_cursor]. repeat split; [lia|].
    exists [], o. replace (backoff st) with 3 by lia. reflexivity.
  - intros st f c Hc IH Hb t why st' H.
    destruct (process_feature consume num_features f _)
      as [tp [[stp|e]|]] eqn:Hp;
      unfold prepend, bind in H; cbn [fst snd] in H; try discriminate.
    destruct (run consume num_features stp) as [t2 r2] eqn:Hr.
    cbn [fst snd] in H. injection H as <- ->.
    pose proof (process_feature_locals _ _ _ _ Hp) as (_ & Hb0 & _).
    cbn [backoff with_backoff] in Hb0.
    destruct (IH tp stp eq_refl ltac:(lia) t2 why st' Hr)
      as (-> & Hb3 & pre & o' & ->).
    repeat split; auto.
    exists (EvGetNextFeature :: tp ++ pre), o'.
    cbn [app]. f_equal. apply app_assoc.
Qed.

(** ** The loop always gives an answer *)

Lemma total_bind {A B : Type} (m : M A) (f : A -> M B) :
  total m -> (forall a, total (f a)) -> total (bind m f).
Proof.
  unfold total. destruct m as [t [[a|e]|]]; cbn; intros Hm Hf;
    try congruence.
  specialize (Hf a). now destruct (f a).
Qed.

Lemma total_prepend {A : Type} (t : trace) (m : M A) :
  total m -> total (prepend t m).
Proof. now unfold total, prepend. Qed.

Lemma total_for_each {A : Type} (xs : list A) (body : A -> M unit) :
  (forall x, total (body x)) -> total (for_each xs body).
Proof.
  intros Hb. induction xs as [|x xs IH]; cbn [for_each].
  - discriminate.
  - apply total_bind; auto.
Qed.

Lemma total_lift {A : Type} (r : result A) : total (lift r).
Proof. discriminate. Qed.

Lemma total_capture_schema (f : Feature) : total (capture_schema f).
Proof.
  unfold capture_schema.
  repeat (apply total_bind; [|intros ?]);
    try apply total_lift; try discriminate.
  apply total_for_each. intros g.
  destruct (gd_GetSpatialRef g); discriminate.
Qed.

Lemma total_process_feature (f : Feature) (st : locals) :
  (forall item, total (consume item)) ->
  total (process_feature consume num_features f st).
Proof.
  intros Hk.
  unfold process_feature, bound_schema, read_attributes,
    count_and_report, read_local.
  repeat (apply total_bind; [|intros ?]);
    repeat match goal with
           | |- total (if ?b then _ else _) => destruct b
           | |- total (match ?x with _ => _ end) => destruct x
           | |- total (bind _ _) => apply total_bind; [|intros ?]
           end;
    try apply total_lift; try apply total_capture_schema;
    try discriminate; auto.
Qed.

Lemma run_total (st : locals) :
  (forall item, total (consume item)) ->
  0 <= backoff st ->
  total (run consume num_features st).
Proof.
  intros Hk. pattern st, (run consume num_features st).
  apply run_cases; clear st.
  - intros st Hc Hb. rewrite run_end by auto. discriminate.
  - intros st o c Hc Hf Hb IH Hb'. apply total_prepend, IH.
    cbn [backoff with_backoff]. lia.
  - discriminate.
  - intros st f c Hc IH Hb. apply total_prepend.
    destruct (process_feature consume num_features f _)
      as [tp [[stp|e]|]] eqn:Hp.
    + rewrite bind_value. apply total_prepend. apply (IH tp); auto.
      apply process_feature_locals in Hp.
      destruct Hp as (_ & Hb0 & _). cbn in Hb0. lia.
    + discriminate.
    + pose proof (total_process_feature
                    f (with_backoff (with_cursor st c) 0) Hk) as Ht.
      rewrite Hp in Ht. now elim Ht.
Qed.

(** ** The level follows the failures *)

Lemma while_body_continue (st st' : locals) (t : trace) :
  while_body consume num_features st = (t, Some (Ok (Continue st'))) ->
  cursor st' = tl (cursor st)
  /\ backoff st'
     = (if is_failure (nth 0 (cursor st) (Returns None))
        then backoff st + 1 else 0)
  /\ (is_failure (nth 0 (cursor st) (Returns None)) = true ->
      backoff st < 3).
Proof.
  intros H.
  destruct (GetNextFeature (cursor st)) as [o c] eqn:Hn.
  assert (Ho : nth 0 (cursor st) (Returns None) = o
               /\ tl (cursor st) = c).
  { destruct (cursor st); cbn in *; injection Hn as <- <-; auto. }
  destruct Ho as [-> <-].
  destruct (is_failure o) eqn:Hf.
  - destruct (Z.lt_ge_cases (backoff st) 3) as [Hb|Hb].
    + rewrite (while_body_retry st o _ Hn Hf Hb) in H.
      injection H as _ <-. auto.
    + rewrite (while_body_abort st o _ Hn Hf Hb) in H. discriminate.
  - destruct o as [[f|]|]; try discriminate.
    rewrite (while_body_feature st f _ Hn) in H.
    destruct (process_feature consume num_features f _)
      as [tp [[stp|e]|]] eqn:Hp; try discriminate.
    rewrite bind_value in H. injection H as _ <-.
    apply process_feature_locals in Hp.
    destruct Hp as (Hc' & Hb' & _). cbn in Hc', Hb'.
    repeat split; auto; discriminate.
Qed.

Lemma consecutive_failures_snoc (os : list fetch_outcome)
      (o : fetch_outcome) :
  consecutive_failures (os ++ [o])
  = if is_failure o then S (consecutive_failures os) else O.
Proof.
  unfold consecutive_failures. now rewrite rev_app_distr.
Qed.

Lemma consumed_S (c : list fetch_outcome) (n : nat) :
  consumed c (S n) = consumed c n ++ [nth n c (Returns None)].
Proof. unfold consumed. now rewrite seq_S, map_app. Qed.

Lemma nth_tl {A : Type} (i : nat) (l : list A) (d : A) :
  nth i (tl l) d = nth (S i) l d.
Proof. destruct l; [now destruct i|reflexivity]. Qed.

(** The state after [n] iterations, seen from the state after [m]. *)
Lemma state_after_add (m n : nat) (st : locals) :
  state_after consume num_features (m + n) st
  = match state_after consume num_features m st with
    | Some st' => state_after consume num_features n st'
    | None => None
    end.
Proof.
  revert st. induction m as [|m IH]; intros st; [reflexivity|].
  cbn [Nat.add state_after].
  destruct (snd (while_body consume num_features st))
    as [[[st1|why st1]|e]|]; auto.
Qed.

Lemma state_after_level (c : list fetch_outcome) (n : nat) :
  forall st',
    state_after consume num_features n (initial c) = Some st' ->
    cursor st' = skipn n c
    /\ backoff st' = Z.of_nat (consecutive_failures (consumed c n))
    /\ 0 <= backoff st' <= 3.
Proof.
  induction n as [|n IH]; intros st' H.
  - injection H as <-. cbn. repeat split; lia.
  - replace (S n) with (n + 1)%nat in H by lia.
    rewrite state_after_add in H.
    destruct (state_after consume num_features n (initial c))
      as [st1|]; [|discriminate].
    destruct (IH st1 eq_refl) as (Hc1 & Hb1 & Hr1).
    cbn [state_after] in H.
    destruct (while_body consume num_features st1)
      as [t [[[st2|why st2]|e]|]] eqn:Hw; cbn [snd] in H;
      try discriminate.
    injection H as <-.
    apply while_body_continue in Hw. destruct Hw as (Hc2 & Hb2 & Hlt).
    rewrite Hc1 in *.
    assert (Hn : nth 0 (skipn n c) (Returns None)
                 = nth n c (Returns None)).
    { clear. revert c. induction n; intros [|o c]; cbn; auto. }
    rewrite Hn in *. split; [|split].
    + rewrite Hc2. clear. revert c.
      induction n; intros [|o c]; cbn; auto.
    + rewrite Hb2, consumed_S, consecutive_failures_snoc.
      destruct (is_failure _); lia.
    + rewrite Hb2. destruct (is_failure _); [|lia].
      specialize (Hlt eq_refl). lia.
Qed.

Lemma failure_run_prefix (st : locals) (fails rest : list fetch_outcome) :
  forallb is_failure fails = true ->
  backoff st = 0 ->
  cursor st = fails ++ rest ->
  exists t',
    fst (run consume num_features st) = failure_run_trace fails ++ t'.
Proof.
  intros Hf Hb Hc.
  destruct (Nat.le_gt_cases (List.length fails) 3) as [Hl|Hl].
  - rewrite (failure_run_short st fails rest) by assumption.
    now eexists.
  - destruct (failure_run_long st fails rest Hf Hb Hc Hl) as (_ & ->).
    exists []. now rewrite app_nil_r.
Qed.

(** ** How a scan ends *)

Lemma scan_ok (c : list fetch_outcome) (t : trace) (why : stop_reason)
      (st : locals) :
  scan consume num_features c = (t, Some (Ok (why, st))) ->
  why = ABORTED
  /\ exists pre o,
      run consume num_features (initial c)
      = (pre ++ abort_events o 3, Some (Ok (ABORTED, st)))
      /\ t = pre ++ abort_events o 3
                 ++ [EvStderr DFinished;
                     EvStderr (DFinalCount (n_features st))].
Proof.
  unfold scan. intros H.
  apply bind_ok in H. destruct H as (t1 & [why1 st1] & t2 & Hr & H & ->).
  cbn in H. injection H as <- <- <-.
  destruct (run_stops_aborted (initial c) ltac:(cbn; lia) _ _ _ Hr)
    as (-> & _ & pre & o & ->).
  split; [reflexivity|]. exists pre, o. split; [assumption|].
  cbn [snd]. now rewrite <- app_assoc.
Qed.

(** C3, as the code has it.  An advance that returns [None] is a
    failure like any other: a scan that stops always stops ABORTED,
    never EXHAUSTED, and prints the summary then; a cursor at the end
    of its data at level 0 is advanced four times with sleeps of 1, 2
    and 4 seconds before the stop; and a scan always gives an answer
    when its consumer does. *)
Theorem end_of_data_is_retried (c : list fetch_outcome) (t : trace)
        (why : stop_reason) (st : locals) :
  scan consume num_features c = (t, Some (Ok (why, st))) ->
  why = ABORTED
  /\ (exists pre o,
         t = pre ++ abort_events o 3
                 ++ [EvStderr DFinished;
                     EvStderr (DFinalCount (n_features st))])
  /\ (forall st0,
         cursor st0 = [] -> backoff st0 = 0 ->
         run consume num_features st0
         = (end_trace 3 0,
            Some (Ok (ABORTED, with_backoff (with_cursor st0 []) 3)))
         /\ sleeps_of (end_trace 3 0) = [1; 2; 4]
         /\ fetches_of (end_trace 3 0) = 4%nat)
  /\ ((forall item, total (consume item)) ->
      forall c0, total (scan consume num_features c0)).
Proof.
  intros H. apply scan_ok in H. destruct H as (-> & pre & o & _ & ->).
  split; [reflexivity|]. split; [now exists pre, o|]. split.
  - intros st0 Hc Hb. split; [|apply sleeps_end_trace].
    rewrite run_end by (auto; lia). now rewrite Hb.
  - intros Hk c0. unfold scan. apply total_bind.
    + apply run_total; [assumption|cbn; lia].
    + intros r. repeat (apply total_bind; [|intros ?]); discriminate.
Qed.

End Loop.

(** ** The exit status *)

Lemma stdout_of_app (t1 t2 : trace) :
  stdout_of (t1 ++ t2) = stdout_of t1 ++ stdout_of t2.
Proof. apply flat_map_app. Qed.

Lemma banner_ok (url layer_name : string) (flt : option string) :
  exists tb, banner url layer_name flt = (tb, Some (Ok tt)).
Proof.
  unfold banner. destruct (truthy flt); eexists; reflexivity.
Qed.

Lemma total_print_geometry (feat : Feature) (attributes : attrs_t)
      (name : string) (geom : option Geometry) :
  total (print_geometry feat attributes name geom).
Proof.
  unfold print_geometry. destruct geom as [g|]; [|discriminate].
  repeat (apply total_bind; [|intros ?]); discriminate.
Qed.

Lemma total_print_feature (item : Feature * attrs_t * g_attrs_t) :
  total (print_feature item).
Proof.
  destruct item as [[feat attributes] geom_attributes].
  apply total_for_each. intros ng. apply total_print_geometry.
Qed.

Lemma total_open_layer (wfs_ds : DataSource) (layer_name : string)
      (flt : option string) :
  total (open_layer wfs_ds layer_name flt).
Proof.
  unfold open_layer.
  repeat (apply total_bind; [|intros ?]);
    repeat match goal with
           | |- total (if ?b then _ else _) => destruct b
           | |- total (match ?x with _ => _ end) => destruct x
           | |- total (bind _ _) => apply total_bind; [|intros ?]
           end; discriminate.
Qed.

Lemma total_scan (consume : Feature * attrs_t * g_attrs_t -> M unit)
      (num_features : Z) (c : list fetch_outcome) :
  (forall item, total (consume item)) ->
  total (scan consume num_features c).
Proof.
  intros Hk. unfold scan. apply total_bind.
  - apply run_total; [assumption|cbn; lia].
  - intros r. repeat (apply total_bind; [|intros ?]); discriminate.
Qed.

Lemma total_print_features_geojson (wfs_ds : DataSource)
      (layer_name : string) (flt : option string) :
  total (print_features_geojson wfs_ds layer_name flt).
Proof.
  unfold print_features_geojson, get_features.
  apply total_bind; [apply total_open_layer|]. intros lc.
  apply total_scan, total_print_feature.
Qed.

Lemma total_list_layers (wfs_ds : DataSource) : total (list_layers wfs_ds).
Proof.
  unfold list_layers.
  repeat (apply total_bind; [|intros ?]); try discriminate.
  apply total_for_each. intros i.
  destruct (GetLayerByIndex wfs_ds i); discriminate.
Qed.

Lemma print_features_geojson_ok (wfs_ds : DataSource)
      (layer_name : string) (flt : option string) (ts : trace)
      (why : stop_reason) (st : locals) :
  print_features_geojson wfs_ds layer_name flt
  = (ts, Some (Ok (why, st))) ->
  why = ABORTED
  /\ exists pre o,
      ts = pre ++ abort_events o 3
               ++ [EvStderr DFinished;
                   EvStderr (DFinalCount (n_features st))].
Proof.
  unfold print_features_geojson, get_features. intros H.
  apply bind_ok in H. destruct H as (t1 & lc & t2 & _ & H & ->).
  apply scan_ok in H. destruct H as (-> & pre & o & _ & ->).
  split; [reflexivity|]. exists (t1 ++ pre), o. now rewrite app_assoc.
Qed.

(** C1, as the code has it.  A scan whose iterator stops on the
    exhausted retry budget (ABORTED) ends the process with exit status
    0, after the summary, and with everything written to standard output
    before the stop still there; exit status 0 is returned only in the
    layer-listing mode or after such a stop, the iterator never stops
    EXHAUSTED, and every other run exits with status 1. *)
Theorem abort_exit_status (Open : string -> option DataSource)
        (argv : list string) :
  (forall ts st,
      scan_stopped Open argv ABORTED ts st ->
      snd (main Open argv) = Some (Exited 0)
      /\ exists pre o,
          fst (main Open argv)
          = pre ++ abort_events o 3
                ++ [EvStderr DFinished;
                    EvStderr (DFinalCount (n_features st))]
          /\ stdout_of (fst (main Open argv)) = stdout_of pre)
  /\ (option_map exit_status (snd (main Open argv)) = Some 0 ->
      listing_mode argv
      \/ exists ts st, scan_stopped Open argv ABORTED ts st)
  /\ (forall ts st, ~ scan_stopped Open argv EXHAUSTED ts st)
  /\ (option_map exit_status (snd (main Open argv)) = Some 0
      \/ option_map exit_status (snd (main Open argv)) = Some 1).
Proof.
  split; [|split; [|split]].
  - intros ts st
           (url & layer_name & flt & wfs_ds & Hp & Hl & Ho & Ht & Hs).
    unfold main. rewrite Hp, Ho, Ht.
    apply String.eqb_neq in Hl.
    destruct (banner_ok url layer_name flt) as [tb ->].
    rewrite bind_value, bind_ret, Hl, Hs.
    apply print_features_geojson_ok in Hs.
    destruct Hs as (_ & pre & o & ->).
    split; [reflexivity|]. exists (tb ++ pre), o. cbn.
    rewrite !app_nil_r. split.
    + now rewrite app_assoc.
    + unfold stdout_of. rewrite !flat_map_app. cbn.
      now rewrite !app_nil_r.
  - unfold main. destruct (parse_args argv) as [[[url layer_name] flt]|e]
      eqn:Hp; [|discriminate].
    destruct (banner_ok url layer_name flt) as [tb ->].
    destruct (Open ("WFS:" ++ url)%string) as [wfs_ds|] eqn:Ho;
      [|discriminate].
    destruct (ds_truthy wfs_ds) eqn:Ht; [|discriminate].
    rewrite bind_value, bind_ret.
    destruct (String.eqb layer_name "") eqn:Hl.
    + intros _. left. apply String.eqb_eq in Hl. subst.
      now exists url, flt.
    + destruct (print_features_geojson wfs_ds layer_name flt)
        as [ts [[[why st]|e]|]] eqn:Hs; try discriminate.
      intros _. right. exists ts, st.
      destruct (print_features_geojson_ok _ _ _ _ _ _ Hs) as (-> & _).
      exists url, layer_name, flt, wfs_ds.
      apply String.eqb_neq in Hl. repeat split; auto.
  - intros ts st (url & layer_name & flt & wfs_ds & _ & _ & _ & _ & Hs).
    apply print_features_geojson_ok in Hs. now destruct Hs.
  - unfold main. destruct (parse_args argv) as [[[url layer_name] flt]|e];
      [|now right].
    destruct (banner_ok url layer_name flt) as [tb ->].
    destruct (Open ("WFS:" ++ url)%string) as [wfs_ds|]; [|now right].
    destruct (ds_truthy wfs_ds); [|now right].
    rewrite bind_value, bind_ret.
    destruct (String.eqb layer_name "").
    + pose proof (total_list_layers wfs_ds) as Ht.
      destruct (list_layers wfs_ds) as [t [[u|e]|]]; cbn; auto.
      now elim Ht.
    + pose proof (total_print_features_geojson wfs_ds layer_name flt)
        as Ht.
      destruct (print_features_geojson wfs_ds layer_name flt)
        as [t [[u|e]|]]; cbn; auto.
      now elim Ht.
Qed.

(** ** Which events come from where *)

Lemma events_bind {A B : Type} (P : event -> Prop) (m : M A)
      (f : A -> M B) :
  events_in P m -> (forall a, events_in P (f a)) -> events_in P (bind m f).
Proof.
  unfold events_in. destruct m as [t [[a|e]|]]; cbn; auto.
  intros Hm Hf. specialize (Hf a). destruct (f a) as [t' r]. cbn in *.
  apply Forall_app; auto.
Qed.

Lemma events_prepend {A : Type} (P : event -> Prop) (t : trace) (m : M A) :
  Forall P t -> events_in P m -> events_in P (prepend t m).
Proof. unfold events_in, prepend. cbn. intros. apply Forall_app; auto. Qed.

Lemma events_for_each {A : Type} (P : event -> Prop) (xs : list A)
      (body : A -> M unit) :
  (forall x, events_in P (body x)) -> events_in P (for_each xs body).
Proof.
  intros Hb. induction xs as [|x xs IH]; cbn [for_each].
  - constructor.
  - apply events_bind; auto.
Qed.

Lemma events_lift {A : Type} (P : event -> Prop) (r : result A) :
  events_in P (lift r).
Proof. constructor. Qed.

Lemma events_emit (P : event -> Prop) (e : event) :
  P e -> events_in P (emit e).
Proof. intros. unfold events_in. cbn. auto. Qed.

Lemma events_weaken {A : Type} (P Q : event -> Prop) (m : M A) :
  (forall e, P e -> Q e) -> events_in P m -> events_in Q m.
Proof. unfold events_in. intros H. apply Forall_impl, H. Qed.

Ltac events :=
  repeat first
         [ apply events_lift
         | apply events_emit
         | apply events_bind; [|intros ?]
         | apply events_for_each; intros ?
         | match goal with
           | |- events_in _ (if ?b then _ else _) => destruct b
           | |- events_in _ (match ?x with _ => _ end) => destruct x
           | |- events_in _ (ret _) => constructor
           | |- events_in _ (raise _) => constructor
           | |- events_in _ (stderr _) => apply events_emit
           | |- events_in _ (stdout _) => apply events_emit
           end ].

Lemma events_capture_schema (f : Feature) :
  events_in (fun e => bookkeeping_event e = true) (capture_schema f).
Proof. unfold capture_schema. events; reflexivity. Qed.

Lemma events_print_feature (item : Feature * attrs_t * g_attrs_t) :
  events_in (fun e => printer_event e = true) (print_feature item).
Proof.
  destruct item as [[feat attributes] geom_attributes].
  unfold print_feature, print_geometry. events; reflexivity.
Qed.

Lemma events_process_feature
      (consume : Feature * attrs_t * g_attrs_t -> M unit)
      (P : event -> Prop) (num_features : Z) (f : Feature) (st : locals) :
  (forall item, events_in P (consume item)) ->
  events_in (fun e => bookkeeping_event e = true \/ P e)
            (process_feature consume num_features f st).
Proof.
  intros Hk.
  unfold process_feature, bound_schema, read_attributes, read_local,
    count_and_report.
  events; try (left; reflexivity); try (constructor; fail).
  eapply events_weaken; [|apply Hk]. now right.
Qed.

Lemma events_end_trace (P : event -> Prop) (r : nat) (b : Z) :
  Forall (fun e => iterator_event e = true \/ P e) (end_trace r b).
Proof.
  revert b. induction r as [|r IH]; intros b; cbn [end_trace].
  - repeat constructor.
  - apply Forall_app. split; [repeat constructor|apply IH].
Qed.

Lemma events_run (consume : Feature * attrs_t * g_attrs_t -> M unit)
      (P : event -> Prop) (num_features : Z) (st : locals) :
  (forall item, events_in P (consume item)) ->
  0 <= backoff st ->
  events_in (fun e => iterator_event e = true \/ P e)
            (run consume num_features st).
Proof.
  intros Hk. pattern st, (run consume num_features st).
  apply run_cases; clear st.
  - intros st Hc Hb. rewrite run_end by auto. apply events_end_trace.
  - intros st o c Hc Hf Hb IH Hb'. apply events_prepend.
    + repeat constructor.
    + apply IH. cbn. lia.
  - intros st o c Hc Hf Hb Hb'. repeat constructor.
  - intros st f c Hc IH Hb. apply events_prepend; [repeat constructor|].
    assert (He : events_in (fun e => iterator_event e = true \/ P e)
                           (process_feature consume num_features f
                              (with_backoff (with_cursor st c) 0))).
    { eapply events_weaken; [|apply events_process_feature, Hk].
      intros ev [Hev|Hev]; [left|now right].
      unfold iterator_event. rewrite Hev. apply orb_true_r. }
    destruct (process_feature consume num_features f _)
      as [tp [[stp|e]|]] eqn:Hp; try exact He.
    rewrite bind_value. apply events_prepend; [exact He|].
    apply (IH tp); auto. apply process_feature_locals in Hp.
    destruct Hp as (_ & Hb0 & _). cbn in Hb0. lia.
Qed.

(** ** Exceptions outside the [try] *)

Lemma bind_raise {A B : Type} (m : M A) (f : A -> M B) (t : trace)
      (e : exn) :
  bind m f = (t, Some (Raise e)) ->
  m = (t, Some (Raise e))
  \/ exists t1 a t2,
      m = (t1, Some (Ok a)) /\ f a = (t2, Some (Raise e)) /\ t = t1 ++ t2.
Proof.
  destruct m as [t1 [[a|e1]|]]; unfold bind; try discriminate.
  - destruct (f a) as [t2 r] eqn:E. intros H. injection H as <- ->.
    right. now exists t1, a, t2.
  - intros H. injection H as <- <-. now left.
Qed.

Lemma for_each_app {A : Type} (xs ys : list A) (body : A -> M unit) :
  for_each (xs ++ ys) body
  = bind (for_each xs body) (fun _ => for_each ys body).
Proof.
  induction xs as [|x xs IH]; cbn [app for_each].
  - now rewrite bind_ret.
  - now rewrite bind_bind, IH.
Qed.

Lemma print_geometry_ok (feat : Feature) (attributes : attrs_t)
      (ng : string * option Geometry) :
  printed_ok attributes ng ->
  exists t, print_geometry feat attributes (fst ng) (snd ng)
            = (t, Some (Ok tt)).
Proof.
  unfold printed_ok, print_geometry. destruct (snd ng) as [g|].
  - intros (r & -> & Hj). cbn. rewrite Hj. eexists. reflexivity.
  - intros _. eexists. reflexivity.
Qed.

Lemma print_geometry_raises (feat : Feature) (attributes : attrs_t)
      (name : string) (geom : Geometry) (e : exn) :
  geometry_raises attributes geom e ->
  exists t, print_geometry feat attributes name (Some geom)
            = (t, Some (Raise e)).
Proof.
  unfold geometry_raises, print_geometry.
  intros [->|(r & -> & Hj)]; cbn.
  - eexists. reflexivity.
  - rewrite Hj. eexists. reflexivity.
Qed.

Lemma print_feature_raises (feat : Feature) (attributes : attrs_t)
      (geom_attributes : g_attrs_t) (e : exn) :
  print_raises attributes geom_attributes e ->
  exists t, print_feature (feat, attributes, geom_attributes)
            = (t, Some (Raise e)).
Proof.
  intros (pre & name & geom & post & -> & Hpre & Hg).
  unfold print_feature. rewrite for_each_app.
  assert (Hok : exists t, for_each pre
                   (fun ng => print_geometry feat attributes
                                             (fst ng) (snd ng))
                 = (t, Some (Ok tt))).
  { induction Hpre as [|ng pre Hng Hpre IH]; cbn [for_each].
    - eexists. reflexivity.
    - destruct (print_geometry_ok feat attributes ng Hng) as [t1 ->].
      destruct IH as [t2 ->]. eexists. reflexivity. }
  destruct Hok as [t1 ->]. rewrite bind_value. cbn [for_each fst snd].
  destruct (print_geometry_raises feat attributes name geom e Hg)
    as [t2 ->].
  eexists. reflexivity.
Qed.

Lemma process_feature_raises (num_features : Z) (f : Feature)
      (st : locals) (e : exn) :
  raises_in_feature f st e ->
  exists t, process_feature print_feature num_features f st
            = (t, Some (Raise e)).
Proof.
  unfold process_feature.
  intros [H|(t & sch & -> & [H|(item & H & Hp)])].
  - destruct (bound_schema f st) as [t r]. cbn in H. subst r.
    eexists. reflexivity.
  - rewrite bind_value.
    destruct (read_attributes f sch) as [t2 r]. cbn in H. subst r.
    eexists. reflexivity.
  - rewrite bind_value.
    destruct (read_attributes f sch) as [t2 r]. cbn in H. subst r.
    rewrite bind_value.
    destruct (print_feature_raises f _ _ e Hp) as [t3 ->].
    eexists. reflexivity.
Qed.

Lemma no_advance_in_feature (num_features : Z) (f : Feature)
      (st : locals) :
  events_in (fun ev => advance_event ev = false /\ is_summary ev = false)
            (process_feature print_feature num_features f st).
Proof.
  eapply events_weaken;
    [|apply events_process_feature, events_print_feature].
  intros [ | | | | |[]| ] [H|H]; cbn in *; auto; discriminate.
Qed.

Lemma no_summary_in_run (num_features : Z) (st : locals) :
  0 <= backoff st ->
  events_in (fun ev => is_summary ev = false)
            (run print_feature num_features st).
Proof.
  intros Hb. eapply events_weaken;
    [|apply events_run; [apply events_print_feature|exact Hb]].
  intros [ | | | | |[]| ] [H|H]; cbn in *; auto; discriminate.
Qed.

(** C10.  Only the advance of the cursor is inside the [try].  When the
    handling of a fetched feature raises -- in the schema capture, in the
    reading of the attribute or geometry fields, in the linearization,
    the WKB export or parsing, or in the JSON output -- the loop ends
    there with that exception: no retry, no sleep, no further advance,
    no summary.  A failed advance, in contrast, never ends the loop with
    an exception, and no run that ends with one prints the summary. *)
Theorem exceptions_propagate (num_features : Z) (st : locals)
        (f : Feature) (c : list fetch_outcome) (e : exn) :
  cursor st = Returns (Some f) :: c ->
  raises_in_feature f (with_backoff (with_cursor st c) 0) e ->
  (exists t,
      run print_feature num_features st
      = (EvGetNextFeature :: t, Some (Raise e))
      /\ Forall (fun ev => advance_event ev = false
                           /\ is_summary ev = false) t)
  /\ (forall st1 o c1,
         GetNextFeature (cursor st1) = (o, c1) ->
         is_failure o = true ->
         exists t ctl,
           while_body print_feature num_features st1
           = (t, Some (Ok ctl)))
  /\ (forall c0 t0 e0,
         scan print_feature num_features c0 = (t0, Some (Raise e0)) ->
         Forall (fun ev => is_summary ev = false) t0
         /\ snd (terminate (scan print_feature num_features c0) 0)
            = Some (Uncaught e0)).
Proof.
  intros Hc Hr. split; [|split].
  - destruct (process_feature_raises num_features f _ e Hr) as [t Hp].
    exists t. split.
    + rewrite (run_feature _ _ st f c Hc), Hp. reflexivity.
    + pose proof (no_advance_in_feature
                    num_features f (with_backoff (with_cursor st c) 0))
        as He.
      unfold events_in in He. now rewrite Hp in He.
  - intros st1 o c1 Hn Hf.
    destruct (Z.lt_ge_cases (backoff st1) 3) as [Hb|Hb].
    + rewrite (while_body_retry _ _ st1 o c1 Hn Hf Hb). now eexists _, _.
    + rewrite (while_body_abort _ _ st1 o c1 Hn Hf Hb). now eexists _, _.
  - intros c0 t0 e0 Hs. split; [|now rewrite Hs].
    unfold scan in Hs. apply bind_raise in Hs.
    destruct Hs as [Hs|(t1 & a & t2 & _ & Hs & _)]; [|discriminate].
    pose proof (no_summary_in_run num_features (initial c0)
                                  ltac:(cbn; lia)) as He.
    unfold events_in in He. now rewrite Hs in He.
Qed.

(** ** The schema cache *)

Lemma captures_app (t1 t2 : trace) :
  captures_of (t1 ++ t2) = (captures_of t1 + captures_of t2)%nat.
Proof. unfold captures_of. now rewrite filter_app, length_app. Qed.

Lemma quiet_captures (t : trace) : quiet t -> captures_of t = O.
Proof.
  unfold captures_of. induction 1 as [|e t [Hc _] _ IH]; cbn; auto.
  now rewrite Hc.
Qed.

Lemma quiet_no_yield (t : trace) (f : Feature) (a : attrs_t)
      (g : g_attrs_t) :
  quiet t -> ~ In (EvYield f a g) t.
Proof.
  intros Hq Hin. unfold quiet in Hq. rewrite Forall_forall in Hq.
  now destruct (Hq _ Hin).
Qed.

Lemma yields_after_quiet (t1 t2 : trace) (seen : bool) :
  quiet t1 ->
  yields_after_capture seen (t1 ++ t2) = yields_after_capture seen t2.
Proof.
  induction 1 as [|e t [Hc Hy] _ IH]; cbn; auto.
  now rewrite Hy, Hc, orb_false_r.
Qed.

Lemma yields_after_seen (t : trace) : yields_after_capture true t = true.
Proof. induction t as [|e t IH]; cbn; auto. now destruct (is_yield e). Qed.

Lemma quiet_app (t1 t2 : trace) : quiet t1 -> quiet t2 -> quiet (t1 ++ t2).
Proof. intros. apply Forall_app; auto. Qed.

Lemma quiet_end_trace (r : nat) (b : Z) : quiet (end_trace r b).
Proof.
  revert b. induction r as [|r IH]; intros b; cbn [end_trace].
  - repeat constructor.
  - apply quiet_app; [repeat constructor|apply IH].
Qed.

(** What the capture leaves in the trace and what it returns. *)
Lemma capture_schema_spec (f : Feature) :
  (captures_of (fst (capture_schema f)) <= 1)%nat
  /\ (forall a g f', ~ In (EvYield f' a g) (fst (capture_schema f)))
  /\ forall s,
      snd (capture_schema f) = Some (Ok s) ->
      schema_of f = Ok s
      /\ exists d tg,
          fst (capture_schema f) = EvStderr (DFirstFeature d) :: tg
          /\ quiet tg.
Proof.
  unfold capture_schema, schema_of, lift.
  destruct (list_comp (GetFieldDefnRef f) _) as [defns|e1];
    [|cbn; repeat split; auto; discriminate].
  rewrite bind_value, prepend_nil.
  destruct (list_comp (GetGeomFieldDefnRef f) _) as [gdefns|e2];
    [|cbn; repeat split; auto; discriminate].
  rewrite bind_value, prepend_nil.
  match goal with
  | |- context [list_comp ?get (enumerate defns)] =>
      destruct (list_comp get (enumerate defns)) as [first|e3]
  end; [|cbn; repeat split; auto; discriminate].
  rewrite !bind_value, !prepend_nil.
  unfold stderr. rewrite bind_emit.
  set (body := fun g : GeomFieldDefn => _).
  assert (Hq : quiet (fst (for_each gdefns body))).
  { assert (He : events_in
                   (fun e => is_capture e = false /\ is_yield e = false)
                   (for_each gdefns body)).
    { apply events_for_each. intros g. unfold body.
      destruct (gd_GetSpatialRef g); repeat constructor. }
    exact He. }
  destruct (for_each gdefns body) as [tg [[[]|e4]|]]; cbn in *;
    rewrite ?app_nil_r;
    pose proof (quiet_captures tg Hq) as Hc0; unfold captures_of in Hc0;
    (split; [rewrite Hc0; lia|split]);
    try (intros a g f' [H|H];
         [discriminate|now apply (quiet_no_yield tg f' a g Hq)]);
    try discriminate.
  intros s H. injection H as <-. split; [reflexivity|].
  now exists first, tg.
Qed.

Lemma read_attributes_spec (f : Feature)
      (sch : option (list string) * option (list string)) :
  fst (read_attributes f sch) = []
  /\ forall a g,
      snd (read_attributes f sch) = Some (Ok (a, g)) ->
      exists ns gns,
        sch = (Some ns, Some gns)
        /\ dict_comp (GetField f) ns = Ok a
        /\ dict_comp (GetGeomFieldRef f) gns = Ok g.
Proof.
  unfold read_attributes, read_local. destruct sch as [[ns|] [gns|]];
    cbn [fst snd]; rewrite ?bind_ret;
    try (cbn; split; [reflexivity|discriminate]).
  - unfold lift. destruct (dict_comp (GetField f) ns) as [a|e] eqn:Ha;
      [|cbn; split; [reflexivity|discriminate]].
    rewrite bind_value, prepend_nil, bind_ret.
    destruct (dict_comp (GetGeomFieldRef f) gns) as [g|e] eqn:Hg;
      [|cbn; split; [reflexivity|discriminate]].
    rewrite bind_value, prepend_nil. cbn. split; [reflexivity|].
    intros a' g' H. injection H as <- <-. now exists ns, gns.
  - unfold lift. destruct (dict_comp (GetField f) ns) as [a|e];
      cbn; split; auto; discriminate.
Qed.

Lemma count_and_report_spec (num_features n : Z) :
  quiet (fst (count_and_report num_features n))
  /\ forall n', snd (count_and_report num_features n) = Some (Ok n') ->
                n' = n + 1.
Proof.
  unfold count_and_report.
  destruct ((n + 1) mod 10000 =? 0); [destruct (num_features =? 0)|];
    cbn; split; try (repeat constructor; fail); try discriminate;
    intros n' H; now injection H as <-.
Qed.

(** The shape of the handling of one feature by the bare iterator. *)
Lemma process_feature_yield (num_features : Z) (f : Feature) (st : locals) :
  exists tc, 
    fst (bound_schema f st) = tc
    /\ (fst (process_feature yield_only num_features f st) = tc
        /\ (forall st', snd (process_feature yield_only num_features f st)
                        <> Some (Ok st'))
        \/ exists sch a g tp,
            snd (bound_schema f st) = Some (Ok sch)
            /\ snd (read_attributes f sch) = Some (Ok (a, g))
            /\ fst (process_feature yield_only num_features f st)
               = tc ++ EvYield f a g :: tp
            /\ quiet tp
            /\ forall st',
                snd (process_feature yield_only num_features f st)
                = Some (Ok st') ->
                names st' = fst sch /\ gnames st' = snd sch
                /\ n_features st' = n_features st + 1).
Proof.
  unfold process_feature.
  destruct (bound_schema f st) as [tc [[sch|e]|]];
    exists tc; (split; [reflexivity|]);
    try (left; cbn; split; [reflexivity|discriminate]).
  rewrite bind_value.
  destruct (read_attributes_spec f sch) as [Ht _].
  destruct (read_attributes f sch) as [tr [[[a g]|e]|]] eqn:Hr;
    cbn in Ht; subst tr;
    try (left; cbn; rewrite app_nil_r; split; [reflexivity|discriminate]).
  right. exists sch, a, g. rewrite bind_value, prepend_nil.
  cbn [fst snd yield_only]. rewrite bind_emit.
  destruct (count_and_report_spec num_features (n_features st))
    as [Hq Hn].
  destruct (count_and_report num_features (n_features st))
    as [tp [[n'|e]|]]; cbn in Hq, Hn; exists tp;
    (split; [reflexivity|]); (split; [now rewrite Hr|]).
  - rewrite bind_value. cbn. rewrite app_nil_r.
    split; [reflexivity|]. split; [assumption|].
    intros st' H. injection H as <-. cbn. auto.
  - cbn. split; [reflexivity|]. split; [assumption|discriminate].
  - cbn. split; [reflexivity|]. split; [assumption|discriminate].
Qed.

Lemma bound_schema_spec (f : Feature) (st : locals) :
  (n_features st = 0
   /\ bound_schema f st
      = bind (capture_schema f)
             (fun s => ret (Some (fst s), Some (snd s))))
  \/ (n_features st <> 0
      /\ bound_schema f st = ([], Some (Ok (names st, gnames st)))).
Proof.
  unfold bound_schema. destruct (n_features st =? 0) eqn:E.
  - left. apply Z.eqb_eq in E. auto.
  - right. apply Z.eqb_neq in E. auto.
Qed.

Lemma yields_after_app (t1 t2 : trace) (seen : bool) :
  yields_after_capture seen (t1 ++ t2)
  = yields_after_capture seen t1
    && yields_after_capture (seen || existsb is_capture t1) t2.
Proof.
  revert seen. induction t1 as [|e t1 IH]; intros seen; cbn.
  - now rewrite orb_false_r.
  - destruct (is_yield e) eqn:Hy.
    + rewrite IH. destruct e; try discriminate. cbn.
      now rewrite andb_assoc.
    + rewrite IH. now rewrite orb_assoc.
Qed.

Lemma yields_after_none (t : trace) (seen : bool) :
  (forall f a g, ~ In (EvYield f a g) t) ->
  yields_after_capture seen t = true.
Proof.
  revert seen. induction t as [|e t IH]; intros seen Hn; cbn; auto.
  destruct e; cbn; try (apply IH; intros f a g H; apply (Hn f a g);
                        now right).
  exfalso. eapply Hn. now left.
Qed.

Lemma quiet_yields_after (t : trace) (seen : bool) :
  quiet t -> yields_after_capture seen t = true.
Proof.
  intros Hq. apply yields_after_none. intros f a g.
  now apply quiet_no_yield.
Qed.

Lemma bound_schema_trace (f : Feature) (st : locals) :
  (n_features st = 0 ->
   (captures_of (fst (bound_schema f st)) <= 1)%nat
   /\ (forall f' a g, ~ In (EvYield f' a g) (fst (bound_schema f st)))
   /\ forall sch,
       snd (bound_schema f st) = Some (Ok sch) ->
       exists s d tg,
         schema_of f = Ok s /\ sch = (Some (fst s), Some (snd s))
         /\ fst (bound_schema f st) = EvStderr (DFirstFeature d) :: tg
         /\ quiet tg)
  /\ (n_features st <> 0 ->
      bound_schema f st = ([], Some (Ok (names st, gnames st)))).
Proof.
  destruct (bound_schema_spec f st) as [[Hn ->]|[Hn ->]];
    (split; [|intros; auto; congruence]); intros Hz; [|congruence].
  destruct (capture_schema_spec f) as (Hc & Hy & Hs).
  destruct (capture_schema f) as [tc [[s|e]|]]; cbn in *;
    rewrite ?app_nil_r; (split; [assumption|]);
    (split; [intros f' a g; apply Hy|]); try discriminate.
  intros sch H. injection H as <-.
  destruct (Hs s eq_refl) as (Hso & d & tg & -> & Hq).
  now exists s, d, tg.
Qed.

Lemma first_feature_failure (o : fetch_outcome) (c : list fetch_outcome) :
  is_failure o = true -> first_feature (o :: c) = first_feature c.
Proof. destruct o as [[f|]|]; cbn; auto; discriminate. Qed.

Lemma run_schema (num_features : Z) (st : locals) :
  0 <= n_features st ->
  0 <= backoff st ->
  (captures_of (fst (run yield_only num_features st))
   <= if (n_features st =? 0)%Z then 1 else 0)%nat
  /\ yields_after_capture (negb (n_features st =? 0))
                          (fst (run yield_only num_features st)) = true
  /\ forall f a g,
      In (EvYield f a g) (fst (run yield_only num_features st)) ->
      exists ns gns,
        expected_schema st = Some (ns, gns)
        /\ dict_comp (GetField f) ns = Ok a
        /\ dict_comp (GetGeomFieldRef f) gns = Ok g.
Proof.
  pattern st, (run yield_only num_features st).
  apply run_cases; clear st.
  - intros st Hc Hn Hb. rewrite run_end by auto. cbn [fst].
    pose proof (quiet_end_trace (Z.to_nat (3 - backoff st)) (backoff st))
      as Hq.
    split; [rewrite (quiet_captures _ Hq); lia|].
    split; [now apply quiet_yields_after|].
    intros f a g H. now apply quiet_no_yield in H.
  - intros st o c Hc Hf Hb IH Hn Hb'.
    destruct IH as (IH1 & IH2 & IH3);
      [assumption|cbn [backoff with_backoff]; lia|].
    assert (Hq : quiet (retry_events o (backoff st)))
      by (repeat constructor).
    unfold prepend. cbn [fst n_features with_backoff with_cursor] in *.
    split; [rewrite captures_app, (quiet_captures _ Hq); exact IH1|].
    split; [now rewrite yields_after_quiet|].
    intros f a g H. apply in_app_or in H.
    destruct H as [H|H]; [now apply quiet_no_yield in H|].
    destruct (IH3 f a g H) as (ns & gns & He & Ha & Hg).
    exists ns, gns. repeat split; auto.
    unfold expected_schema in *.
    cbn [n_features cursor names gnames with_backoff with_cursor] in He.
    now rewrite Hc, first_feature_failure.
  - intros st o c Hc Hf Hb Hn Hb'. cbn [fst].
    assert (Hq : quiet (abort_events o (backoff st)))
      by (repeat constructor).
    split; [rewrite (quiet_captures _ Hq); lia|].
    split; [now apply quiet_yields_after|].
    intros f a g H. now apply quiet_no_yield in H.
  - intros st f c Hc IH Hn Hb.
    set (st0 := with_backoff (with_cursor st c) 0) in *.
    assert (Hn0 : n_features st0 = n_features st) by reflexivity.
    destruct (bound_schema_trace f st0) as [Hz Hnz].
    destruct (process_feature_yield num_features f st0)
      as (tc & Htc & [(Hfst & Hno)|(sch & a & g & tp & Hsch & Hra & Hfst
                                    & Hq & Hst)]).
    + (* no feature is yielded *)
      assert (Hrun : fst (bind (process_feature yield_only num_features
                                                f st0)
                               (run yield_only num_features)) = tc).
      { destruct (process_feature yield_only num_features f st0)
          as [tp [[st'|e]|]]; cbn in *; auto. now elim (Hno st'). }
      unfold prepend. cbn [fst]. rewrite Hrun. subst tc.
      destruct (Z.eq_dec (n_features st) 0) as [E|E].
      * destruct (Hz E) as (Hc1 & Hy1 & _). rewrite E. cbn [Z.eqb negb].
        split; [exact Hc1|]. split.
        -- apply yields_after_none. intros f' a g [H|H];
             [discriminate|now apply Hy1 in H].
        -- intros f' a g [H|H]; [discriminate|now apply Hy1 in H].
      * rewrite (Hnz E). cbn.
        split; [destruct (n_features st =? 0); lia|].
        split; [reflexivity|]. intros f' a g [H|[]]. discriminate.
    + (* the feature is yielded *)
      destruct (read_attributes_spec f sch) as [_ Hattr].
      destruct (Hattr a g Hra) as (ns & gns & -> & Ha & Hg).
      assert (Hexp : expected_schema st = Some (ns, gns)
                     /\ (n_features st = 0 ->
                         existsb is_capture tc = true
                         /\ (captures_of tc <= 1)%nat)
                     /\ (n_features st <> 0 -> tc = [])
                     /\ forall f' a' g', ~ In (EvYield f' a' g') tc).
      { unfold expected_schema. rewrite Hc. cbn [first_feature].
        destruct (Z.eq_dec (n_features st) 0) as [E|E].
        - destruct (Hz E) as (Hc1 & Hy1 & Hs1).
          destruct (Hs1 _ Hsch) as (s & d & tg & Hso & Hs & Htr & Hqg).
          rewrite Htc in Htr. rewrite E, Hso. cbn [Z.eqb].
          injection Hs as -> ->. rewrite Htc in Hc1, Hy1.
          split; [now destruct s|].
          split; [intros _; split; [now rewrite Htr|exact Hc1]|].
          split; [intros; congruence|exact Hy1].
        - pose proof (Hnz E) as Hbs. rewrite Hbs in Hsch, Htc.
          cbn in Hsch, Htc. injection Hsch as Hns Hgns. subst tc.
          pose proof E as E'. apply Z.eqb_neq in E'. rewrite E'.
          change (names st0) with (names st) in Hns.
          change (gnames st0) with (gnames st) in Hgns.
          rewrite Hns, Hgns.
          split; [reflexivity|]. split; [intros; congruence|].
          split; [reflexivity|]. intros f' a' g' []. }
      destruct Hexp as (Hexp & Hcap & Hnil & Hny).
      destruct (process_feature yield_only num_features f st0)
        as [tpf [[st'|e]|]] eqn:Hp; cbn [fst snd] in Hfst, Hst; subst tpf.
      * destruct (Hst st' eq_refl) as (Hns' & Hgns' & Hn').
        cbn [fst snd] in Hns', Hgns'.
        destruct (IH _ st' eq_refl) as (IH1 & IH2 & IH3).
        { rewrite Hn', Hn0. lia. }
        { apply process_feature_locals in Hp.
          destruct Hp as (_ & Hb0 & _). rewrite Hb0. cbn. lia. }
        assert (Hpos : (n_features st' =? 0) = false).
        { apply Z.eqb_neq. rewrite Hn', Hn0. lia. }
        rewrite Hpos in IH1, IH2. cbn [negb] in IH2.
        rewrite bind_value. unfold prepend. cbn [fst].
        rewrite <- app_assoc. cbn [app].
        split; [|split].
        -- change (EvGetNextFeature :: tc ++ EvYield f a g
                     :: tp ++ fst (run yield_only num_features st'))
             with ([EvGetNextFeature]
                     ++ tc ++ [EvYield f a g]
                     ++ tp ++ fst (run yield_only num_features st')).
           rewrite !captures_app, (quiet_captures _ Hq). cbn.
           destruct (Z.eq_dec (n_features st) 0) as [E|E].
           ++ rewrite E. cbn. destruct (Hcap E). lia.
           ++ rewrite (Hnil E). cbn. lia.
        -- cbn. rewrite yields_after_app.
           rewrite (yields_after_none tc _ Hny). cbn.
           destruct (Z.eq_dec (n_features st) 0) as [E|E].
           ++ destruct (Hcap E) as [-> _]. rewrite orb_true_r. cbn.
              rewrite yields_after_quiet by assumption.
              apply yields_after_seen.
           ++ apply Z.eqb_neq in E. rewrite E. cbn.
              rewrite yields_after_quiet by assumption.
              apply yields_after_seen.
        -- intros f' a' g' [H|H]; [discriminate|].
           apply in_app_or in H. destruct H as [H|[H|H]].
           ++ now apply Hny in H.
           ++ injection H as <- <- <-. now exists ns, gns.
           ++ apply in_app_or in H. destruct H as [H|H];
                [now apply quiet_no_yield in H|].
              destruct (IH3 _ _ _ H) as (ns' & gns' & He' & Ha' & Hg').
              unfold expected_schema in He'.
              rewrite Hpos, Hns', Hgns' in He'. injection He' as <- <-.
              now exists ns, gns.
      * cbn [bind prepend fst app].
        split; [|split].
        -- change (EvGetNextFeature :: tc ++ EvYield f a g :: tp)
             with ([EvGetNextFeature] ++ tc ++ [EvYield f a g] ++ tp).
           rewrite !captures_app, (quiet_captures _ Hq). cbn.
           destruct (Z.eq_dec (n_features st) 0) as [E|E].
           ++ rewrite E. cbn. destruct (Hcap E). lia.
           ++ rewrite (Hnil E). cbn. lia.
        -- cbn. rewrite yields_after_app.
           rewrite (yields_after_none tc _ Hny). cbn.
           destruct (Z.eq_dec (n_features st) 0) as [E|E].
           ++ destruct (Hcap E) as [-> _]. rewrite orb_true_r. cbn.
              now apply quiet_yields_after.
           ++ apply Z.eqb_neq in E. rewrite E. cbn.
              now apply quiet_yields_after.
        -- intros f' a' g' [H|H]; [discriminate|].
           apply in_app_or in H. destruct H as [H|[H|H]].
           ++ now apply Hny in H.
           ++ injection H as <- <- <-. now exists ns, gns.
           ++ now apply quiet_no_yield in H.
      * cbn [bind prepend fst app].
        split; [|split].
        -- change (EvGetNextFeature :: tc ++ EvYield f a g :: tp)
             with ([EvGetNextFeature] ++ tc ++ [EvYield f a g] ++ tp).
           rewrite !captures_app, (quiet_captures _ Hq). cbn.
           destruct (Z.eq_dec (n_features st) 0) as [E|E].
           ++ rewrite E. cbn. destruct (Hcap E). lia.
           ++ rewrite (Hnil E). cbn. lia.
        -- cbn. rewrite yields_after_app.
           rewrite (yields_after_none tc _ Hny). cbn.
           destruct (Z.eq_dec (n_features st) 0) as [E|E].
           ++ destruct (Hcap E) as [-> _]. rewrite orb_true_r. cbn.
              now apply quiet_yields_after.
           ++ apply Z.eqb_neq in E. rewrite E. cbn.
              now apply quiet_yields_after.
        -- intros f' a' g' [H|H]; [discriminate|].
           apply in_app_or in H. destruct H as [H|[H|H]].
           ++ now apply Hny in H.
           ++ injection H as <- <- <-. now exists ns, gns.
           ++ now apply quiet_no_yield in H.
Qed.

Lemma yield_needs_capture (t : trace) (f : Feature) (a : attrs_t)
      (g : g_attrs_t) :
  yields_after_capture false t = true ->
  In (EvYield f a g) t ->
  (1 <= captures_of t)%nat.
Proof.
  induction t as [|e t IH]; cbn; [intros _ []|].
  destruct (is_yield e) eqn:Hy; [discriminate|].
  unfold captures_of. cbn. destruct (is_capture e) eqn:Hc.
  - cbn. lia.
  - intros Hs [H|H]; [subst e; discriminate|]. now apply IH.
Qed.

Lemma scan_trace (consume : Feature * attrs_t * g_attrs_t -> M unit)
      (num_features : Z) (c : list fetch_outcome) :
  exists tail,
    fst (scan consume num_features c)
    = fst (run consume num_features (initial c)) ++ tail
    /\ Forall (fun e => is_summary e = true) tail.
Proof.
  unfold scan.
  destruct (run consume num_features (initial c)) as [t [[r|e]|]].
  - rewrite bind_value. cbn. eexists. split; [reflexivity|].
    repeat constructor.
  - exists []. cbn. now rewrite app_nil_r.
  - exists []. cbn. now rewrite app_nil_r.
Qed.


(** ** The consumer, entry by entry *)

Lemma print_feature_app (feat : Feature) (attributes : attrs_t)
      (pre post : g_attrs_t) :
  print_feature (feat, attributes, pre ++ post)
  = bind (print_feature (feat, attributes, pre))
         (fun _ => print_feature (feat, attributes, post)).
Proof. unfold print_feature. apply for_each_app. Qed.

Lemma print_feature_cons (feat : Feature) (attributes : attrs_t)
      (ng : string * option Geometry) (post : g_attrs_t) :
  print_feature (feat, attributes, ng :: post)
  = bind (print_geometry feat attributes (fst ng) (snd ng))
         (fun _ => print_feature (feat, attributes, post)).
Proof. reflexivity. Qed.

Lemma process_feature_consumers
      (k1 k2 : Feature * attrs_t * g_attrs_t -> M unit)
      (num_features : Z) (f : Feature) (st : locals) :
  (forall sch item,
      snd (bound_schema f st) = Some (Ok sch) ->
      snd (read_attributes f sch) = Some (Ok item) ->
      snd (k1 (f, fst item, snd item)) = snd (k2 (f, fst item, snd item))) ->
  snd (process_feature k1 num_features f st)
  = snd (process_feature k2 num_features f st).
Proof.
  intros Hk. unfold process_feature.
  destruct (bound_schema f st) as [tb [[sch|e]|]]; try reflexivity.
  rewrite !bind_value. cbn [snd prepend].
  specialize (Hk sch).
  destruct (read_attributes f sch) as [tr [[item|e]|]]; try reflexivity.
  rewrite !bind_value. cbn [snd prepend].
  specialize (Hk item eq_refl eq_refl).
  destruct (k1 (f, fst item, snd item)) as [t1 r1].
  destruct (k2 (f, fst item, snd item)) as [t2 r2].
  cbn in Hk. subst r2. destruct r1 as [[[]|e]|]; try reflexivity.
  rewrite !bind_value. reflexivity.
Qed.

(** ** One line per geometry field *)

Lemma dict_set_fresh {V : Type} (d : list (string * V)) (k : string)
      (v : V) :
  ~ In k (dict_keys d) -> dict_set d k v = d ++ [(k, v)].
Proof.
  induction d as [|[k' v'] d IH]; cbn; intros Hn; [reflexivity|].
  destruct (String.eqb_spec k' k) as [->|Hne].
  - exfalso. apply Hn. now left.
  - rewrite IH; auto.
Qed.

Lemma dict_get_set {V : Type} (d : list (string * V)) (k : string)
      (v : V) :
  dict_get (dict_set d k v) k = Some v.
Proof.
  induction d as [|[k' v'] d IH]; cbn.
  - now rewrite String.eqb_refl.
  - destruct (String.eqb_spec k' k) as [->|Hne]; cbn.
    + now rewrite String.eqb_refl.
    + apply String.eqb_neq in Hne. now rewrite Hne.
Qed.

Lemma dict_comp_from_nodup {V : Type} (get : nat -> result V) (dflt : V)
      (keys : list string) :
  forall (vals : list V) (i : nat) (acc : list (string * V)),
    NoDup (dict_keys acc ++ keys) ->
    List.length vals = List.length keys ->
    (forall j, (j < List.length keys)%nat ->
               get (i + j)%nat = Ok (nth j vals dflt)) ->
    dict_comp_from get i keys acc = Ok (acc ++ combine keys vals).
Proof.
  induction keys as [|k keys IH]; intros vals i acc Hnd Hlen Hget.
  - cbn. now rewrite app_nil_r.
  - destruct vals as [|v vals]; [discriminate|].
    cbn [dict_comp_from combine].
    pose proof (Hget O ltac:(cbn; lia)) as H0.
    rewrite Nat.add_0_r in H0. cbn in H0. rewrite H0.
    rewrite dict_set_fresh.
    + rewrite (IH vals (S i) (acc ++ [(k, v)])).
      * now rewrite <- app_assoc.
      * unfold dict_keys in *. rewrite map_app, <- app_assoc. exact Hnd.
      * cbn in Hlen. lia.
      * intros j Hj. specialize (Hget (S j) ltac:(cbn; lia)).
        rewrite Nat.add_succ_r in Hget. exact Hget.
    + apply NoDup_remove_2 in Hnd. intros Hin. apply Hnd.
      apply in_or_app. now left.
Qed.

Lemma dict_comp_nodup {V : Type} (get : nat -> result V) (dflt : V)
      (keys : list string) (vals : list V) :
  NoDup keys ->
  List.length vals = List.length keys ->
  (forall j, (j < List.length keys)%nat -> get j = Ok (nth j vals dflt)) ->
  dict_comp get keys = Ok (combine keys vals).
Proof.
  intros Hnd Hlen Hget. unfold dict_comp.
  now rewrite (dict_comp_from_nodup get dflt keys vals O []).
Qed.

Lemma bind_ok_parts {A B : Type} (m : M A) (f : A -> M B) (a : A) :
  snd m = Some (Ok a) ->
  bind m f = prepend (fst m) (f a).
Proof. destruct m as [t r]. cbn. intros ->. apply bind_value. Qed.

Lemma print_feature_lines (feat : Feature) (attributes : attrs_t)
      (geom_attributes : g_attrs_t) :
  Forall (printed_ok attributes) geom_attributes ->
  snd (print_feature (feat, attributes, geom_attributes)) = Some (Ok tt)
  /\ stdout_of (fst (print_feature (feat, attributes, geom_attributes)))
     = lines_for attributes (map snd geom_attributes).
Proof.
  induction 1 as [|[name og] l Hok _ IH]; [split; reflexivity|].
  rewrite print_feature_cons. cbn [fst snd map].
  destruct IH as [Hrl IH].
  assert (Hg : snd (print_geometry feat attributes name og) = Some (Ok tt)
               /\ stdout_of (fst (print_geometry feat attributes name og))
                  = lines_for attributes [og]).
  { unfold printed_ok in Hok. cbn [snd] in Hok.
    destruct og as [g|]; cbn [print_geometry]; [|split; reflexivity].
    destruct Hok as (r & Hr & Hj). unfold lines_for. cbn [flat_map].
    rewrite Hr. unfold lift, stdout.
    rewrite bind_value, prepend_nil, bind_emit, Hj.
    rewrite bind_value, prepend_nil. split; reflexivity. }
  destruct Hg as [Hg1 Hg2].
  rewrite (bind_ok_parts _ _ tt Hg1). unfold prepend. cbn [fst snd].
  split; [exact Hrl|].
  rewrite stdout_of_app, Hg2, IH. unfold lines_for. cbn [flat_map].
  now rewrite app_nil_r.
Qed.

Lemma lines_for_length (attributes : attrs_t)
      (fields : list (option Geometry)) :
  Forall (fun og => printed_ok attributes (""%string, og)) fields ->
  List.length (lines_for attributes fields) = (2 * non_null fields)%nat.
Proof.
  unfold lines_for, non_null.
  induction 1 as [|og l Hok _ IH]; [reflexivity|].
  cbn [flat_map filter]. rewrite length_app, IH.
  destruct og as [g|]; [|cbn; lia].
  destruct Hok as (r & -> & _). cbn. lia.
Qed.

Lemma geo_record_properties (attributes : attrs_t) (geom : Geometry)
      (r : pyval) :
  geo_record attributes geom = Ok r ->
  exists d, r = PyDict d
            /\ dict_get d "properties" = Some (PyDict attributes).
Proof.
  unfold geo_record.
  destruct (GetLinearGeometry geom) as [lin|]; [|discriminate].
  destruct (ExportToWkb lin) as [wkb|]; [|discriminate].
  destruct (wkb_loads wkb) as [sh|]; [|discriminate].
  destruct (mapping sh) as [d|]; [|discriminate].
  intros H. injection H as <-. eexists. split; [reflexivity|].
  apply dict_get_set.
Qed.

(** C9, as the code has it.  When the cached geometry field names are
    pairwise distinct, the feature has a geometry field for each of them
    and no conversion raises, the feature gets one line on standard
    output per geometry field that is not null, in the order of the
    cached names, and the record of each of these lines has the
    attribute dictionary of the feature as its "properties". *)
Theorem one_line_per_geometry (feat : Feature) (attributes : attrs_t)
        (gns : list string) (fields : list (option Geometry)) :
  NoDup gns ->
  List.length fields = List.length gns ->
  (forall i, (i < List.length gns)%nat ->
             GetGeomFieldRef feat i = Ok (nth i fields None)) ->
  Forall (fun og => printed_ok attributes (""%string, og)) fields ->
  dict_comp (GetGeomFieldRef feat) gns = Ok (combine gns fields)
  /\ snd (print_feature (feat, attributes, combine gns fields))
     = Some (Ok tt)
  /\ stdout_of (fst (print_feature (feat, attributes, combine gns fields)))
     = lines_for attributes fields
  /\ List.length (lines_for attributes fields)
     = (2 * non_null fields)%nat
  /\ forall geom r,
      In (Some geom) fields ->
      geo_record attributes geom = Ok r ->
      exists d, r = PyDict d
                /\ dict_get d "properties" = Some (PyDict attributes).
Proof.
  intros Hnd Hlen Hget Hok.
  split; [now apply dict_comp_nodup with (dflt := None)|].
  assert (Hsnd : map snd (combine gns fields) = fields).
  { clear -Hlen. revert fields Hlen.
    induction gns as [|k gns IH]; intros [|v fields] Hlen;
      try discriminate; [reflexivity|].
    cbn. f_equal. apply IH. cbn in Hlen. lia. }
  assert (Hok' : Forall (printed_ok attributes) (combine gns fields)).
  { rewrite <- Hsnd in Hok. rewrite Forall_map in Hok.
    eapply Forall_impl; [|exact Hok]. now intros [k og]. }
  destruct (print_feature_lines feat attributes _ Hok') as [H1 H2].
  rewrite Hsnd in H2.
  split; [exact H1|]. split; [exact H2|].
  split; [now apply lines_for_length|].
  intros geom r _. apply geo_record_properties.
Qed.

(** ** Lines of standard output *)

Lemma split_lines_line (t s : string) :
  no_newline t = true ->
  split_lines (t ++ newline ++ s)%string
  = (t :: fst (split_lines s), snd (split_lines s)).
Proof.
  induction t as [|ch t IH]; cbn [String.append split_lines no_newline].
  - intros _. unfold newline. cbn. now destruct (split_lines s).
  - intros H. apply andb_prop in H. destruct H as [Hc Ht].
    rewrite (IH Ht). apply negb_true_iff in Hc. now rewrite Hc.
Qed.

Lemma split_lines_rest (t : string) :
  no_newline t = true -> split_lines t = ([], t).
Proof.
  induction t as [|ch t IH]; cbn [split_lines no_newline]; auto.
  intros H. apply andb_prop in H. destruct H as [Hc Ht].
  rewrite (IH Ht). apply negb_true_iff in Hc. now rewrite Hc.
Qed.

Lemma text_of_app (ws1 ws2 : list string) :
  text_of (ws1 ++ ws2) = (text_of ws1 ++ text_of ws2)%string.
Proof.
  unfold text_of. induction ws1 as [|w ws1 IH]; cbn; auto.
  rewrite IH. clear. induction w as [|ch w IHw]; cbn; auto.
  now rewrite IHw.
Qed.

Lemma string_app_nil_r (s : string) : (s ++ "")%string = s.
Proof. induction s as [|ch s IH]; cbn; auto. now rewrite IH. Qed.

Lemma string_app_assoc (a b c : string) :
  ((a ++ b) ++ c)%string = (a ++ b ++ c)%string.
Proof. induction a as [|ch a IH]; cbn; auto. now rewrite IH. Qed.


(** ** The estimated count *)

Lemma erase_progress_app (t1 t2 : trace) :
erase_progress (t1 ++ t2) = erase_progress t1 ++ erase_progress t2.
Proof. apply filter_app. Qed.

Lemma stdout_of_erase_progress (t : trace) :
stdout_of (erase_progress t) = stdout_of t.
Proof.
unfold stdout_of, erase_progress.
induction t as [|e t IH]; [reflexivity|].
destruct e as [ | | | | |[]| ]; cbn; rewrite ?IH; reflexivity.
Qed.

Lemma same_but_progress_refl {A : Type} (m : M A) : same_but_progress m m.
Proof. split; reflexivity. Qed.

Lemma same_but_progress_bind {A B : Type} (m1 m2 : M A) (f1 f2 : A -> M B) :
same_but_progress m1 m2 ->
(forall a, snd m1 = Some (Ok a) -> same_but_progress (f1 a) (f2 a)) ->
same_but_progress (bind m1 f1) (bind m2 f2).
Proof.
destruct m1 as [t1 r1], m2 as [t2 r2]. intros [Ht Hr] Hf.
cbn [fst snd] in Ht, Hr. subst r2.
destruct r1 as [[a|e]|]; try (split; [exact Ht|reflexivity]).
destruct (Hf a eq_refl) as [Hft Hfr]. rewrite !bind_value.
unfold prepend, same_but_progress. cbn [fst snd]. split; [|exact Hfr].
now rewrite !erase_progress_app, Ht, Hft.
Qed.

Lemma same_but_progress_prepend {A : Type} (t : trace) (m1 m2 : M A) :
same_but_progress m1 m2 ->
same_but_progress (prepend t m1) (prepend t m2).
Proof.
intros [Ht Hr]. unfold prepend, same_but_progress. cbn [fst snd].
split; [|exact Hr]. now rewrite !erase_progress_app, Ht.
Qed.

Lemma count_and_report_estimate (n1 n2 n : Z) :
n1 <> 0 -> n2 <> 0 ->
same_but_progress (count_and_report n1 n) (count_and_report n2 n).
Proof.
intros H1 H2. unfold count_and_report.
apply Z.eqb_neq in H1, H2. rewrite H1, H2.
destruct ((n + 1) mod 10000 =? 0); split; reflexivity.
Qed.

Lemma process_feature_estimate
      (consume : Feature * attrs_t * g_attrs_t -> M unit) (n1 n2 : Z)
      (f : Feature) (st : locals) :
n1 <> 0 -> n2 <> 0 ->
same_but_progress (process_feature consume n1 f st)
                  (process_feature consume n2 f st).
Proof.
intros H1 H2. unfold process_feature.
apply same_but_progress_bind; [apply same_but_progress_refl|].
intros sch _.
apply same_but_progress_bind; [apply same_but_progress_refl|].
intros item _.
apply same_but_progress_bind; [apply same_but_progress_refl|].
intros [] _.
apply same_but_progress_bind; [now apply count_and_report_estimate|].
intros n _. apply same_but_progress_refl.
Qed.

Lemma run_estimate (consume : Feature * attrs_t * g_attrs_t -> M unit)
      (n1 n2 : Z) (st : locals) :
n1 <> 0 -> n2 <> 0 ->
same_but_progress (run consume n1 st) (run consume n2 st).
Proof.
intros H1 H2. pattern st, (run consume n1 st).
apply run_cases; clear st.
- intros st Hc. unfold run. rewrite Hc. cbn [enough_fuel List.length].
  assert (Hgen : forall fuel st',
             cursor st' = [] ->
             same_but_progress (while_true fuel consume n1 st')
                               (while_true fuel consume n2 st')).
  { induction fuel as [|fuel IH]; intros st' Hc';
      [apply same_but_progress_refl|].
    rewrite !while_true_S.
    destruct (Z.lt_ge_cases (backoff st') 3) as [Hb|Hb].
    - rewrite !(while_body_retry _ _ st' (Returns None) [])
        by (rewrite ?Hc'; auto).
      rewrite !bind_value. apply same_but_progress_prepend.
      apply IH. reflexivity.
    - rewrite !(while_body_abort _ _ st' (Returns None) [])
        by (rewrite ?Hc'; auto).
      apply same_but_progress_refl. }
  now apply Hgen.
- intros st o c Hc Hf Hb IH.
  rewrite (run_retry consume n2 st o c) by assumption.
  now apply same_but_progress_prepend.
- intros st o c Hc Hf Hb.
  rewrite (run_abort consume n2 st o c) by assumption.
  apply same_but_progress_refl.
- intros st f c Hc IH.
  rewrite (run_feature consume n2 st f c) by assumption.
  apply same_but_progress_prepend.
  apply same_but_progress_bind; [now apply process_feature_estimate|].
  intros st' Hs.
  destruct (process_feature consume n1 f (with_backoff (with_cursor st c) 0))
    as [t r] eqn:Hp.
  cbn [snd] in Hs. subst r. now apply (IH t).
Qed.

(** For estimated counts other than 0 the estimate only shows in the
    progress lines: two scans of the same cursor write the same to
    standard output and end in the same way. *)
Lemma estimate_is_cosmetic
      (consume : Feature * attrs_t * g_attrs_t -> M unit) (n1 n2 : Z)
      (c : list fetch_outcome) :
n1 <> 0 -> n2 <> 0 ->
stdout_of (fst (scan consume n1 c)) = stdout_of (fst (scan consume n2 c))
/\ sleeps_of (fst (scan consume n1 c)) = sleeps_of (fst (scan consume n2 c))
/\ snd (scan consume n1 c) = snd (scan consume n2 c).
Proof.
intros H1 H2.
assert (Hs : same_but_progress (scan consume n1 c) (scan consume n2 c)).
{ unfold scan. apply same_but_progress_bind; [now apply run_estimate|].
  intros r _. apply same_but_progress_refl. }
destruct Hs as [Ht Hr]. split; [|split; [|exact Hr]].
- now rewrite <- (stdout_of_erase_progress (fst (scan consume n1 c))),
    <- (stdout_of_erase_progress (fst (scan consume n2 c))), Ht.
- assert (He : forall t, sleeps_of (erase_progress t) = sleeps_of t).
  { unfold sleeps_of, erase_progress.
    induction t as [|e t IH]; [reflexivity|].
    destruct e as [ | | | | |[]| ]; cbn; rewrite ?IH; reflexivity. }
  now rewrite <- (He (fst (scan consume n1 c))),
    <- (He (fst (scan consume n2 c))), Ht.
Qed.

(** With a server-side filter the count is not asked for and the estimate
    is 1,000,000; without one the count is asked for and is the
    estimate. *)
Lemma filter_skips_count (wfs_ds : DataSource) (layer_name : string)
      (flt : option string) (t : trace) (num_features : Z)
      (c : list fetch_outcome) :
open_layer wfs_ds layer_name flt = (t, Some (Ok (num_features, c))) ->
(truthy flt = true ->
 num_features = 1000000 /\ ~ In EvGetFeatureCount t)
/\ (truthy flt = false ->
    In EvGetFeatureCount t
    /\ exists layer, GetLayerByName wfs_ds layer_name = Some layer
                     /\ num_features = GetFeatureCount layer).
Proof.
unfold open_layer.
destruct (GetLayerByName wfs_ds layer_name) as [layer|]; [|discriminate].
rewrite bind_ret.
destruct (truthy flt); destruct (GetSpatialRef layer) as [srs|];
  cbn; try discriminate; intros H; injection H as <- <- <-;
  split; intros Ht; try discriminate.
- split; [reflexivity|]. intros [H|[H|[H|[]]]]; discriminate.
- split; [now left|]. now exists layer.
Qed.

(** ** The arguments *)

Lemma parse_args_short (argv : list string) :
  (List.length argv < 3)%nat -> parse_args argv = Raise IndexError.
Proof.
  destruct argv as [|p [|url [|layer_name rest]]]; cbn; intros H;
    try reflexivity. lia.
Qed.

Lemma parse_args_long (argv : list string) :
  (3 <= List.length argv)%nat ->
  parse_args argv
  = Ok (nth 1 argv ""%string, nth 2 argv ""%string, nth_error argv 3).
Proof.
  destruct argv as [|p [|url [|layer_name rest]]]; cbn; intros H;
    try lia. reflexivity.
Qed.

(** X1.  With the program name and fewer than two arguments after it
    the script prints the usage text to standard error and exits with
    status 1; it writes nothing else and does not open the service.
    With two or more it starts with the banner for the URL and the
    layer name it was given, '<EMPTY>' standing for an empty name. *)
Theorem usage_on_short_argv (Open : string -> option DataSource)
        (argv : list string) :
  ((1 <= List.length argv < 3)%nat ->
   main Open argv
   = ([EvStderr (DUsage (nth 0 argv ""%string))], Some (Exited 1)))
  /\ ((3 <= List.length argv)%nat ->
      exists t,
        fst (main Open argv)
        = EvStderr (DWFS (nth 1 argv ""%string))
            :: EvStderr (DLayer (if String.eqb (nth 2 argv ""%string) ""
                                 then "<EMPTY>"%string
                                 else nth 2 argv ""%string))
            :: t).
Proof.
  split; intros H; unfold main.
  - now rewrite parse_args_short by lia.
  - rewrite parse_args_long by assumption. unfold banner, stderr.
    rewrite !bind_bind, !bind_emit.
    match goal with
    | |- context [prepend [?e1] (prepend [?e2] ?m)] =>
        destruct m as [t r]
    end.
    exists t. unfold prepend. cbn [fst snd app].
    destruct r as [[u|e]|]; reflexivity.
Qed.

(** X2.  Arguments after the filter expression are ignored, the program
    name plays no part once the arguments are there, and an empty
    filter expression is no filter: the run is the one without a
    fourth argument. *)
Theorem filter_argument_normal_form (Open : string -> option DataSource)
        (p q url layer_name flt : string) (rest : list string) :
  main Open (p :: url :: layer_name :: flt :: rest)
  = main Open [q; url; layer_name; flt]
  /\ main Open (p :: url :: layer_name :: ""%string :: rest)
     = main Open [q; url; layer_name].
Proof.
  split; [reflexivity|].
  unfold main. cbn [parse_args nth_error].
  unfold banner, print_features_geojson, get_features, open_layer.
  reflexivity.
Qed.

(** ** Runs that do not get to the scan *)

(** X3.  The script ends with the AssertionError of line 39 right after
    the banner when the service does not open, and also when it opens
    without layers, an OGR data source without layers being false.
    With a data source that passes the [assert], a layer name the
    service does not know ends the script with an AttributeError right
    after the banner; a layer without spatial reference ends it with an
    AttributeError at line 64, after the filter was set or the count
    was asked for and reported, before the first advance of the cursor
    and with nothing on standard output. *)
Theorem startup_failures (Open : string -> option DataSource)
        (argv : list string) (url layer_name : string)
        (flt : option string) :
  parse_args argv = Ok (url, layer_name, flt) ->
  (Open ("WFS:" ++ url)%string = None
   \/ (exists wfs_ds, Open ("WFS:" ++ url)%string = Some wfs_ds
                      /\ GetLayerCount wfs_ds = O) ->
   main Open argv
   = (fst (banner url layer_name flt), Some (Uncaught AssertionError)))
  /\ (forall wfs_ds,
         Open ("WFS:" ++ url)%string = Some wfs_ds ->
         GetLayerCount wfs_ds <> O ->
         layer_name <> ""%string ->
         GetLayerByName wfs_ds layer_name = None ->
         main Open argv
         = (fst (banner url layer_name flt), Some (Uncaught AttributeError)))
  /\ (forall wfs_ds layer,
         Open ("WFS:" ++ url)%string = Some wfs_ds ->
         GetLayerCount wfs_ds <> O ->
         layer_name <> ""%string ->
         GetLayerByName wfs_ds layer_name = Some layer ->
         GetSpatialRef layer = None ->
         main Open argv
         = (fst (banner url layer_name flt)
            ++ (if truthy flt
                then [EvSetAttributeFilter
                        (match flt with Some f => f | None => ""%string end);
                      EvStderr DFeaturesUnknown]
                else [EvGetFeatureCount;
                      EvStderr (DFeatures (GetFeatureCount layer))]),
            Some (Uncaught AttributeError))
         /\ stdout_of (fst (main Open argv)) = []
         /\ fetches_of (fst (main Open argv)) = O).
Proof.
  intros Hp. unfold main. rewrite Hp.
  destruct (banner_ok url layer_name flt) as [tb Hb]. rewrite Hb.
  rewrite bind_value. cbn [fst].
  split; [|split].
  - intros [->|(wfs_ds & -> & Hn)].
    + cbn. now rewrite app_nil_r.
    + unfold ds_truthy. rewrite Hn. cbn. now rewrite app_nil_r.
  - intros wfs_ds -> Hn Hl Hg. apply String.eqb_neq in Hl.
    apply Nat.eqb_neq in Hn. unfold ds_truthy. rewrite Hn.
    cbn [negb]. rewrite bind_ret, Hl.
    unfold print_features_geojson, get_features, open_layer. rewrite Hg.
    cbn. now rewrite app_nil_r.
  - intros wfs_ds layer -> Hn Hl Hg Hs. apply String.eqb_neq in Hl.
    apply Nat.eqb_neq in Hn. unfold ds_truthy. rewrite Hn.
    cbn [negb]. rewrite bind_ret, Hl.
    unfold print_features_geojson, get_features, open_layer.
    rewrite Hg, bind_ret. cbv zeta. rewrite Hs.
    revert Hb. unfold banner.
    destruct (truthy flt); intros Hb; injection Hb as <-;
      repeat split; reflexivity.
Qed.

(** ** The layer listing *)

Lemma list_layers_loop (wfs_ds : DataSource) (ixs : list nat) :
  for_each ixs
    (fun i => match GetLayerByIndex wfs_ds i with
              | None => raise AttributeError
              | Some layer =>
                  stdout ("Layer " ++ str_of_Z (Z.of_nat i) ++ ": "
                            ++ GetName layer ++ newline)%string
              end)
  = (map (fun i => EvStdout (layer_line wfs_ds i)) (resolvable wfs_ds ixs),
     Some (if (List.length (resolvable wfs_ds ixs) =? List.length ixs)%nat
           then Ok tt else Raise AttributeError)).
Proof.
  set (body := fun i : nat => _).
  induction ixs as [|i ixs IH]; [reflexivity|].
  cbn [for_each resolvable map]. unfold body at 1.
  destruct (GetLayerByIndex wfs_ds i) as [layer|] eqn:Hi; [|reflexivity].
  unfold stdout. rewrite bind_emit. cbv beta. rewrite IH. unfold prepend.
  cbn [fst snd app map List.length Nat.eqb].
  assert (Hline : layer_line wfs_ds i
                  = ("Layer " ++ str_of_Z (Z.of_nat i) ++ ": "
                              ++ GetName layer ++ newline)%string)
    by (unfold layer_line; now rewrite Hi).
  now rewrite Hline.
Qed.

Lemma resolvable_all (wfs_ds : DataSource) (n : nat) :
  forall s,
    (forall i, (s <= i < s + n)%nat -> GetLayerByIndex wfs_ds i <> None) ->
    resolvable wfs_ds (seq s n) = seq s n.
Proof.
  induction n as [|n IH]; intros s H; [reflexivity|].
  cbn [seq resolvable].
  destruct (GetLayerByIndex wfs_ds s) eqn:E.
  - f_equal. apply IH. intros i Hi. apply H. lia.
  - exfalso. apply (H s); [lia|exact E].
Qed.

Lemma stdout_of_banner (url layer_name : string) (flt : option string) :
  stdout_of (fst (banner url layer_name flt)) = [].
Proof. unfold banner. now destruct (truthy flt). Qed.

Lemma stdout_of_writes (ws : list string) :
  stdout_of (map EvStdout ws) = ws.
Proof.
  induction ws as [|w ws IH]; [reflexivity|].
  cbn [map]. change (stdout_of (EvStdout w :: map EvStdout ws))
    with (w :: stdout_of (map EvStdout ws)). now rewrite IH.
Qed.

(** X4.  With an empty layer name and a service that opens with at
    least one layer, the script writes the heading, the layer count and
    one line 'Layer i: name' per layer index, in order, to standard
    output and exits with status 0; it stops with an AttributeError at
    the first index for which the service has no layer, the lines
    before it being written.  The trace is the banner followed by these
    writes and nothing else: no [SetAttributeFilter], no
    [GetFeatureCount], no advance of a cursor and no sleep, whatever the
    filter argument. *)
Theorem layer_listing (Open : string -> option DataSource)
        (argv : list string) (url : string) (flt : option string)
        (wfs_ds : DataSource) :
  parse_args argv = Ok (url, ""%string, flt) ->
  Open ("WFS:" ++ url)%string = Some wfs_ds ->
  GetLayerCount wfs_ds <> O ->
  fst (main Open argv)
  = fst (banner url "" flt)
    ++ map EvStdout
         (("Printing server layer list and exiting." ++ newline)%string
          :: ("Layer count: "
                ++ str_of_Z (Z.of_nat (GetLayerCount wfs_ds))
                ++ newline)%string
          :: map (layer_line wfs_ds)
                 (resolvable wfs_ds (seq 0 (GetLayerCount wfs_ds))))
  /\ snd (main Open argv)
     = Some (if (List.length (resolvable wfs_ds
                                         (seq 0 (GetLayerCount wfs_ds)))
                 =? GetLayerCount wfs_ds)%nat
             then Exited 0 else Uncaught AttributeError)
  /\ ((forall i, (i < GetLayerCount wfs_ds)%nat ->
                 GetLayerByIndex wfs_ds i <> None) ->
      snd (main Open argv) = Some (Exited 0)
      /\ stdout_of (fst (main Open argv))
         = ("Printing server layer list and exiting." ++ newline)%string
           :: ("Layer count: "
                 ++ str_of_Z (Z.of_nat (GetLayerCount wfs_ds))
                 ++ newline)%string
           :: map (layer_line wfs_ds) (seq 0 (GetLayerCount wfs_ds))).
Proof.
  intros Hp Ho Hn.
  assert (Hmain : main Open argv
                  = (fst (banner url "" flt)
                     ++ map EvStdout
                          (("Printing server layer list and exiting."
                              ++ newline)%string
                           :: ("Layer count: "
                                 ++ str_of_Z
                                      (Z.of_nat (GetLayerCount wfs_ds))
                                 ++ newline)%string
                           :: map (layer_line wfs_ds)
                                  (resolvable
                                     wfs_ds
                                     (seq 0 (GetLayerCount wfs_ds)))),
                     Some (if (List.length
                                 (resolvable
                                    wfs_ds (seq 0 (GetLayerCount wfs_ds)))
                               =? GetLayerCount wfs_ds)%nat
                           then Exited 0 else Uncaught AttributeError))).
  { unfold main. rewrite Hp, Ho. apply Nat.eqb_neq in Hn.
    unfold ds_truthy. rewrite Hn. cbn [negb]. clear Hn.
    destruct (banner_ok url "" flt) as [tb Hb]. rewrite Hb.
    rewrite bind_value, bind_ret. cbn [String.eqb fst].
    unfold list_layers, stdout. rewrite !bind_emit.
    pose proof (list_layers_loop wfs_ds (seq 0 (GetLayerCount wfs_ds)))
      as Hloop.
    unfold stdout in Hloop. rewrite Hloop. clear Hloop.
    rewrite length_seq. unfold prepend. cbn [map]. rewrite map_map.
    destruct (_ =? _)%nat; reflexivity. }
  rewrite Hmain. cbn [fst snd].
  split; [reflexivity|]. split; [reflexivity|]. intros H.
  rewrite (resolvable_all wfs_ds (GetLayerCount wfs_ds) 0)
    by (intros i Hi; apply H; lia).
  rewrite length_seq, Nat.eqb_refl. split; [reflexivity|].
  now rewrite stdout_of_app, stdout_of_banner, stdout_of_writes.
Qed.

(** ** The dictionaries of a feature *)

Lemma dict_keys_set {V : Type} (d : list (string * V)) (k : string)
      (v : V) :
  dict_keys (dict_set d k v)
  = if existsb (String.eqb k) (dict_keys d) then dict_keys d
    else dict_keys d ++ [k].
Proof.
  unfold dict_keys.
  induction d as [|[k' v'] d IH]; [reflexivity|].
  cbn [dict_set map fst existsb].
  rewrite (String.eqb_sym k k').
  destruct (String.eqb k' k); cbn [map fst orb]; [reflexivity|].
  rewrite IH. now destruct (existsb _ _).
Qed.

Lemma dict_get_set_other {V : Type} (d : list (string * V))
      (k k' : string) (v : V) :
  k <> k' -> dict_get (dict_set d k v) k' = dict_get d k'.
Proof.
  intros Hne. induction d as [|[k0 v0] d IH]; cbn.
  - apply String.eqb_neq in Hne. now rewrite Hne.
  - destruct (String.eqb_spec k0 k) as [->|H0]; cbn.
    + apply String.eqb_neq in Hne. now rewrite Hne.
    + now rewrite IH.
Qed.

Lemma dict_comp_from_spec {V : Type} (get : nat -> result V)
      (keys : list string) :
  forall (i : nat) (acc d : list (string * V)),
    dict_comp_from get i keys acc = Ok d ->
    dict_keys d = dict_keys acc ++ distinct (dict_keys acc) keys
    /\ forall k,
        dict_get d k
        = match last_index_from i k keys None with
          | Some j => match get j with
                      | Ok v => Some v
                      | Raise _ => None
                      end
          | None => dict_get acc k
          end.
Proof.
  induction keys as [|k0 keys IH]; intros i acc d H.
  - injection H as <-. cbn. now rewrite app_nil_r.
  - cbn [dict_comp_from] in H.
    destruct (get i) as [v|e] eqn:Hg; [|discriminate].
    destruct (IH _ _ _ H) as [Hk Hv]. split.
    + rewrite Hk, dict_keys_set. cbn [distinct].
      destruct (existsb (String.eqb k0) (dict_keys acc)); [reflexivity|].
      now rewrite <- app_assoc.
    + intros k. rewrite Hv. cbn [last_index_from].
      destruct (String.eqb_spec k0 k) as [->|Hne].
      * assert (Hl : forall ks j f,
                   last_index_from j k ks (Some f) <> None).
        { induction ks as [|k1 ks IHk]; intros j f; cbn; [discriminate|].
          destruct (String.eqb k1 k); apply IHk. }
        assert (Hs : forall ks j f,
                   last_index_from j k ks (Some f)
                   = match last_index_from j k ks None with
                     | Some x => Some x
                     | None => Some f
                     end).
        { induction ks as [|k1 ks IHk]; intros j f; cbn; [reflexivity|].
          destruct (String.eqb k1 k); [|apply IHk].
          destruct (last_index_from (S j) k ks (Some j)) eqn:E;
            [reflexivity|now apply Hl in E]. }
        rewrite Hs.
        destruct (last_index_from (S i) k keys None); [reflexivity|].
        now rewrite dict_get_set, Hg.
      * destruct (last_index_from (S i) k keys None); [reflexivity|].
        now apply dict_get_set_other.
Qed.

(** X9.  The dictionary of lines 109-110 has every name once, at the
    place of its first occurrence among the cached names, and the value
    under a name is the field at the last position that has this
    name. *)
Theorem dict_comp_last_wins {V : Type} (get : nat -> result V)
        (keys : list string) (d : list (string * V)) :
  dict_comp get keys = Ok d ->
  dict_keys d = distinct [] keys
  /\ NoDup (dict_keys d)
  /\ forall k,
      dict_get d k
      = match last_index k keys with
        | Some j => match get j with
                    | Ok v => Some v
                    | Raise _ => None
                    end
        | None => None
        end.
Proof.
  intros H. apply dict_comp_from_spec in H. destruct H as [Hk Hv].
  cbn [dict_keys map app] in Hk. split; [exact Hk|]. split; [|exact Hv].
  rewrite Hk.
  assert (Hd : forall ks seen,
             NoDup (distinct seen ks)
             /\ forall k, In k (distinct seen ks) -> ~ In k seen).
  { induction ks as [|k ks IHk]; intros seen; cbn [distinct].
    - split; [constructor|intros k []].
    - destruct (existsb (String.eqb k) seen) eqn:E; [apply IHk|].
      destruct (IHk (seen ++ [k])) as [Hn Hi]. split.
      + constructor; [|exact Hn]. intros Hin. apply (Hi k Hin).
        apply in_or_app. right. now left.
      + intros k' [<-|Hin].
        * intros Hs. 
          assert (existsb (String.eqb k) seen = true).
          { apply existsb_exists. exists k. split; [exact Hs|].
            apply String.eqb_refl. }
          congruence.
        * intros Hs. apply (Hi k' Hin). apply in_or_app. now left. }
  apply Hd.
Qed.

Lemma dict_comp_from_ext {V : Type} (get1 get2 : nat -> result V)
      (keys : list string) :
  forall i acc,
    (forall j, (j < List.length keys)%nat -> get1 (i + j)%nat = get2 (i + j)%nat) ->
    dict_comp_from get1 i keys acc = dict_comp_from get2 i keys acc.
Proof.
  induction keys as [|k keys IH]; intros i acc H; [reflexivity|].
  cbn [dict_comp_from].
  pose proof (H O ltac:(cbn; lia)) as H0. rewrite Nat.add_0_r in H0.
  rewrite <- H0. destruct (get1 i); [|reflexivity].
  apply IH. intros j Hj. specialize (H (S j) ltac:(cbn; lia)).
  now rewrite Nat.add_succ_r in H.
Qed.

Lemma dict_comp_from_raises {V : Type} (get : nat -> result V)
      (keys : list string) (e : exn) :
  forall i acc,
    dict_comp_from get i keys acc = Raise e <->
    exists j, (j < List.length keys)%nat
              /\ get (i + j)%nat = Raise e
              /\ forall j', (j' < j)%nat ->
                            exists v, get (i + j')%nat = Ok v.
Proof.
  induction keys as [|k keys IH]; intros i acc; cbn [dict_comp_from].
  - split; [discriminate|]. intros (j & Hj & _). cbn in Hj. lia.
  - destruct (get i) as [v|e'] eqn:Hg.
    + rewrite IH. split.
      * intros (j & Hj & He & Hlt). exists (S j). cbn [List.length].
        split; [lia|]. rewrite Nat.add_succ_r. split; [exact He|].
        intros [|j'] Hj'.
        -- rewrite Nat.add_0_r. now exists v.
        -- rewrite Nat.add_succ_r. apply Hlt. lia.
      * intros ([|j] & Hj & He & Hlt).
        -- rewrite Nat.add_0_r in He. congruence.
        -- exists j. cbn [List.length] in Hj. split; [lia|].
           rewrite Nat.add_succ_r in He. split; [exact He|].
           intros j' Hj'. specialize (Hlt (S j') ltac:(lia)).
           now rewrite Nat.add_succ_r in Hlt.
    + split.
      * intros H. injection H as ->. exists O. cbn [List.length].
        split; [lia|]. rewrite Nat.add_0_r. split; [exact Hg|].
        intros j' Hj'. lia.
      * intros ([|j] & Hj & He & Hlt).
        -- rewrite Nat.add_0_r in He. congruence.
        -- destruct (Hlt O ltac:(lia)) as [v Hv].
           rewrite Nat.add_0_r in Hv. congruence.
Qed.

(** X10.  The comprehension of lines 109-110 raises exactly when a field
    at a position below the number of cached names cannot be read, and
    then with the exception of the first such position; it reads no
    other position, so two features that agree on these positions give
    the same dictionary. *)
Theorem dict_comp_by_position {V : Type} (get : nat -> result V)
        (keys : list string) :
  (forall e,
      dict_comp get keys = Raise e <->
      exists j, (j < List.length keys)%nat
                /\ get j = Raise e
                /\ forall j', (j' < j)%nat -> exists v, get j' = Ok v)
  /\ forall get',
      (forall j, (j < List.length keys)%nat -> get j = get' j) ->
      dict_comp get keys = dict_comp get' keys.
Proof.
  split.
  - intros e. unfold dict_comp. now rewrite dict_comp_from_raises.
  - intros get' H. unfold dict_comp. now apply dict_comp_from_ext.
Qed.

(** X14.  The record of a geometry is the mapping shapely returns for
    the linearized geometry with the attributes under "properties": the
    other members keep their values and their order, and a "properties"
    member of the mapping is replaced where it stands, not added a
    second time. *)
Theorem geo_record_keeps_mapping (attributes : attrs_t) (geom : Geometry)
        (r : pyval) :
  geo_record attributes geom = Ok r ->
  exists lin_geom wkb shgeom geo_dict d,
    GetLinearGeometry geom = Ok lin_geom
    /\ ExportToWkb lin_geom = Ok wkb
    /\ wkb_loads wkb = Ok shgeom
    /\ mapping shgeom = Ok geo_dict
    /\ r = PyDict d
    /\ dict_get d "properties" = Some (PyDict attributes)
    /\ (forall k, k <> "properties"%string ->
                  dict_get d k = dict_get geo_dict k)
    /\ dict_keys d
       = if existsb (String.eqb "properties") (dict_keys geo_dict)
         then dict_keys geo_dict
         else dict_keys geo_dict ++ ["properties"%string].
Proof.
  unfold geo_record.
  destruct (GetLinearGeometry geom) as [lin|] eqn:H1; [|discriminate].
  destruct (ExportToWkb lin) as [wkb|] eqn:H2; [|discriminate].
  destruct (wkb_loads wkb) as [sh|] eqn:H3; [|discriminate].
  destruct (mapping sh) as [d0|] eqn:H4; [|discriminate].
  intros H. injection H as <-. exists lin, wkb, sh, d0. eexists.
  do 5 (split; [reflexivity || assumption|]).
  split; [apply dict_get_set|]. split; [|apply dict_keys_set].
  intros k Hk. apply dict_get_set_other. congruence.
Qed.

(** ** The schema capture *)

Lemma list_comp_ok {A B : Type} (f : A -> result B) (xs : list A)
      (ys : list B) :
  list_comp f xs = Ok ys ->
  List.length ys = List.length xs
  /\ forall i x, nth_error xs i = Some x ->
                 exists y, f x = Ok y /\ nth_error ys i = Some y.
Proof.
  revert ys. induction xs as [|x0 xs IH]; intros ys H.
  - injection H as <-. split; [reflexivity|]. now intros [|i] x.
  - cbn [list_comp] in H. destruct (f x0) as [y0|e] eqn:H0; [|discriminate].
    destruct (list_comp f xs) as [ys0|e]; [|discriminate].
    injection H as <-. destruct (IH ys0 eq_refl) as [Hl Hn].
    split; [cbn; now rewrite Hl|].
    intros [|i] x Hx; cbn in Hx |- *.
    + injection Hx as <-. now exists y0.
    + now apply Hn.
Qed.

Lemma nth_error_enumerate_from {A : Type} (xs : list A) :
  forall s i x,
    nth_error xs i = Some x ->
    nth_error (enumerate_from s xs) i = Some ((s + i)%nat, x).
Proof.
  induction xs as [|x0 xs IH]; intros s [|i] x H; try discriminate.
  - injection H as <-. cbn. now rewrite Nat.add_0_r.
  - cbn in H |- *. rewrite (IH (S s) i x H). do 2 f_equal. lia.
Qed.

Lemma for_each_ok {A : Type} (xs : list A) (body : A -> M unit)
      (t : trace) :
  for_each xs body = (t, Some (Ok tt)) ->
  forall x, In x xs -> snd (body x) = Some (Ok tt).
Proof.
  revert t. induction xs as [|x0 xs IH]; intros t H x []; subst;
    cbn [for_each] in H; apply bind_ok in H;
    destruct H as (t1 & [] & t2 & H1 & H2 & _).
  - now rewrite H1.
  - now apply (IH t2).
Qed.

(** X8.  When the schema capture of lines 96-107 succeeds, there is one
    cached name per attribute field and per geometry field of the first
    feature, each the name of the field definition at its position;
    every attribute field could be read, and every geometry field
    definition has a spatial reference. *)
Theorem capture_schema_names (f : Feature) (ns gns : list string) :
  snd (capture_schema f) = Some (Ok (ns, gns)) ->
  List.length ns = GetFieldCount f
  /\ List.length gns = GetGeomFieldCount f
  /\ (forall i, (i < GetFieldCount f)%nat ->
                exists d v,
                  GetFieldDefnRef f i = Ok d /\ GetField f i = Ok v
                  /\ nth_error ns i = Some (fd_GetName d))
  /\ (forall i, (i < GetGeomFieldCount f)%nat ->
                exists g srs,
                  GetGeomFieldDefnRef f i = Ok g
                  /\ gd_GetSpatialRef g = Some srs
                  /\ nth_error gns i = Some (gd_GetName g)).
Proof.
  destruct (capture_schema f) as [t r] eqn:Hc. cbn [snd]. intros ->.
  unfold capture_schema in Hc.
  apply bind_ok in Hc. destruct Hc as (t1 & defns & t2 & H1 & Hc & _).
  apply bind_ok in Hc. destruct Hc as (t3 & gdefns & t4 & H2 & Hc & _).
  apply bind_ok in Hc. destruct Hc as (t5 & first & t6 & H3 & Hc & _).
  apply bind_ok in Hc. destruct Hc as (t7 & [] & t8 & _ & Hc & _).
  apply bind_ok in Hc. destruct Hc as (t9 & [] & t10 & H4 & Hc & _).
  injection Hc as _ <- <-.
  unfold lift in H1, H2, H3.
  injection H1 as _ H1. injection H2 as _ H2. injection H3 as _ H3.
  apply list_comp_ok in H1, H2, H3.
  destruct H1 as [L1 N1], H2 as [L2 N2], H3 as [_ N3].
  rewrite length_seq in L1, L2. rewrite !length_map.
  split; [exact L1|]. split; [exact L2|]. split.
  - intros i Hi.
    destruct (N1 i i) as (d & Hd & Hnd).
    { rewrite nth_error_seq. 
      destruct (Nat.ltb_spec i (GetFieldCount f)); [reflexivity|lia]. }
    destruct (N3 i (i, d)) as (y & Hy & _).
    { apply (nth_error_enumerate_from defns 0 i d Hnd). }
    cbn [fst snd] in Hy.
    destruct (GetField f i) as [v|e]; [|discriminate].
    exists d, v. repeat split; auto.
    now rewrite nth_error_map, Hnd.
  - intros i Hi.
    destruct (N2 i i) as (g & Hg & Hng).
    { rewrite nth_error_seq. 
      destruct (Nat.ltb_spec i (GetGeomFieldCount f)); [reflexivity|lia]. }
    pose proof (for_each_ok _ _ _ H4 g (nth_error_In _ _ Hng)) as Hs.
    cbv beta in Hs.
    destruct (gd_GetSpatialRef g) as [srs|] eqn:Hsrs; [|discriminate].
    exists g, srs. repeat split; auto.
    now rewrite nth_error_map, Hng.
Qed.

(** ** A geometry that cannot be printed *)

(** X17.  When a geometry of a feature raises, in the conversion or in
    [json.dump], the feature leaves on standard output the complete
    lines of the geometries before it and, when it was [json.dump] that
    raised, the text [json.dump] had written, with no newline after it;
    a conversion that raises leaves nothing.  The geometries after it
    are not looked at. *)
Theorem failing_geometry_output (feat : Feature) (attributes : attrs_t)
        (pre post : g_attrs_t) (name : string) (geom : Geometry)
        (e : exn) :
  Forall (printed_ok attributes) pre ->
  geometry_raises attributes geom e ->
  print_feature (feat, attributes, pre ++ (name, Some geom) :: post)
  = (fst (print_feature (feat, attributes, pre))
     ++ match geo_record attributes geom with
        | Ok r => [EvStdout (fst (json_dump r))]
        | Raise _ => []
        end,
     Some (Raise e))
  /\ stdout_of (fst (print_feature (feat, attributes, pre)))
     = lines_for attributes (map snd pre).
Proof.
  intros Hpre Hg.
  destruct (print_feature_lines feat attributes pre Hpre) as [Hok Hout].
  split; [|exact Hout].
  rewrite print_feature_app, (bind_ok_parts _ _ tt Hok).
  unfold print_feature at 2. cbn [for_each fst snd].
  assert (Hgeo : print_geometry feat attributes name (Some geom)
                 = (match geo_record attributes geom with
                    | Ok r => [EvStdout (fst (json_dump r))]
                    | Raise _ => []
                    end, Some (Raise e))).
  { unfold print_geometry.
    destruct Hg as [Hr|(r & Hr & Hj)]; rewrite Hr; cbn; [reflexivity|].
    rewrite Hj. reflexivity. }
  rewrite Hgeo. reflexivity.
Qed.

(** ** What a scan delivers *)

Lemma process_feature_ok
      (consume : Feature * attrs_t * g_attrs_t -> M unit)
      (num_features : Z) (f : Feature) (st st' : locals) (t : trace) :
  process_feature consume num_features f st = (t, Some (Ok st')) ->
  exists tc sch a g tp,
    bound_schema f st = (tc, Some (Ok sch))
    /\ read_attributes f sch = ([], Some (Ok (a, g)))
    /\ snd (consume (f, a, g)) = Some (Ok tt)
    /\ count_and_report num_features (n_features st)
       = (tp, Some (Ok (n_features st + 1)))
    /\ t = tc ++ fst (consume (f, a, g)) ++ tp
    /\ st' = {| cursor := cursor st; n_features := n_features st + 1;
                backoff := backoff st;
                names := fst sch; gnames := snd sch |}.
Proof.
  unfold process_feature. intros H.
  apply bind_ok in H. destruct H as (tc & sch & t1 & Hb & H & ->).
  apply bind_ok in H. destruct H as (tr & [a g] & t2 & Hr & H & ->).
  apply bind_ok in H. destruct H as (tk & [] & t3 & Hk & H & ->).
  apply bind_ok in H. destruct H as (tp & n & t4 & Hn & H & ->).
  injection H as <- <-.
  destruct (read_attributes_spec f sch) as [Ht _].
  rewrite Hr in Ht. cbn in Ht. subst tr.
  destruct (count_and_report_spec num_features (n_features st)) as [_ Hc].
  rewrite Hn in Hc. cbn in Hc. rewrite (Hc n eq_refl) in *.
  exists tc, sch, a, g, tp. cbn [fst snd] in *. rewrite Hk. cbn [fst snd].
  rewrite app_nil_r. repeat split; auto.
Qed.

(** The names the iteration works with are those [expected_schema]
    announces, and they stay the same afterwards. *)
Lemma schema_step (f : Feature) (c : list fetch_outcome) (st : locals)
      (b : Z) (tc : trace)
      (sch : option (list string) * option (list string))
      (a : attrs_t) (g : g_attrs_t) :
  cursor st = Returns (Some f) :: c ->
  bound_schema f (with_backoff (with_cursor st c) b) = (tc, Some (Ok sch)) ->
  read_attributes f sch = ([], Some (Ok (a, g))) ->
  exists s,
    expected_schema st = Some s
    /\ sch = (Some (fst s), Some (snd s))
    /\ item_of s f = Ok (f, a, g)
    /\ Forall (fun e => bookkeeping_event e = true) tc.
Proof.
  intros Hc Hb Hr.
  destruct (read_attributes_spec f sch) as [_ Hs].
  rewrite Hr in Hs. destruct (Hs a g eq_refl) as (ns & gns & -> & Ha & Hg).
  exists (ns, gns). unfold item_of. cbn [fst snd]. rewrite Ha, Hg.
  unfold expected_schema. rewrite Hc. cbn [first_feature].
  unfold bound_schema in Hb. cbn [n_features with_backoff with_cursor] in Hb.
  destruct (n_features st =? 0).
  - pose proof (events_capture_schema f) as He.
    destruct (capture_schema_spec f) as (_ & _ & Hsp).
    destruct (capture_schema f) as [t1 [[s|e]|]]; try discriminate.
    rewrite bind_value in Hb. cbn in Hb. injection Hb as <- <- <-.
    destruct (Hsp s eq_refl) as [-> _]. rewrite app_nil_r.
    destruct s. repeat split; auto.
  - cbn in Hb. injection Hb as <- -> ->. repeat split; auto.
Qed.

Lemma count_and_report_events (num_features n : Z) :
  Forall (fun e => iterator_event e = true)
         (fst (count_and_report num_features n)).
Proof.
  unfold count_and_report.
  destruct ((n + 1) mod 10000 =? 0); [destruct (num_features =? 0)|];
    repeat constructor.
Qed.

Lemma bound_schema_events (f : Feature) (st : locals) :
  Forall (fun e => iterator_event e = true) (fst (bound_schema f st)).
Proof.
  change (events_in (fun e => iterator_event e = true) (bound_schema f st)).
  unfold bound_schema. destruct (n_features st =? 0); [|constructor].
  apply events_bind; [|intros s; constructor].
  eapply events_weaken; [|apply events_capture_schema].
  intros e E. unfold iterator_event. rewrite E. apply orb_true_r.
Qed.

Section Observed.
Variable consume : Feature * attrs_t * g_attrs_t -> M unit.
Variable num_features : Z.
Variable X : Type.
Variable proj : event -> list X.
Hypothesis proj_iterator :
  forall e, iterator_event e = true -> proj e = [].

Lemma observed_nil (t : trace) :
  Forall (fun e => iterator_event e = true) t -> flat_map proj t = [].
Proof.
  induction 1 as [|e t He _ IH]; [reflexivity|].
  cbn. now rewrite (proj_iterator e He), IH.
Qed.

Lemma observed_end_trace (r : nat) (b : Z) :
  flat_map proj (end_trace r b) = [].
Proof.
  apply observed_nil.
  pose proof (events_end_trace (fun _ => False) r b) as H.
  eapply Forall_impl; [|exact H]. now intros e [He|[]].
Qed.

Lemma served_from_failure (k : nat) (o : fetch_outcome)
      (c : list fetch_outcome) :
  is_failure o = true ->
  served_from k (o :: c)
  = if (3 <=? k)%nat then [] else served_from (S k) c.
Proof. destruct o as [[f|]|]; cbn; auto; discriminate. Qed.

(** A scan that runs to its stop has handed the consumer the served
    features, each once and in the order of the cursor, with the
    dictionaries lines 109-110 build from the cached names; what the
    consumer left in the trace is all that is observed of it; and the
    count has grown by their number. *)
Lemma run_delivery (st : locals) :
  forall k,
    backoff st = Z.of_nat k -> (k <= 3)%nat -> 0 <= n_features st ->
    forall t why st',
      run consume num_features st = (t, Some (Ok (why, st'))) ->
      exists items,
        map (fun it => fst (fst it)) items = served_from k (cursor st)
        /\ (forall it, In it items ->
                       exists s, expected_schema st = Some s
                                 /\ item_of s (fst (fst it)) = Ok it
                                 /\ snd (consume it) = Some (Ok tt))
        /\ flat_map proj t
           = flat_map (fun it => flat_map proj (fst (consume it))) items
        /\ n_features st' = n_features st + Z.of_nat (List.length items).
Proof.
  pattern st, (run consume num_features st). apply run_cases; clear st.
  - intros st Hc k Hb Hk Hn t why st'. rewrite run_end by (auto; lia).
    intros H. injection H as <- _ <-. exists []. rewrite Hc.
    cbn [map served_from flat_map List.length n_features with_backoff
         with_cursor].
    rewrite observed_end_trace. repeat split; auto; [intros it []|lia].
  - intros st o c Hc Hf Hb IH k Hk Hk3 Hn t why st' H.
    destruct (run consume num_features _) as [t2 r2] eqn:Hr.
    unfold prepend in H. cbn [fst snd] in H. injection H as <- ->.
    destruct (IH (S k)) with (t := t2) (why := why) (st' := st')
      as (items & Hm & Hi & Ho & Hcount);
      [cbn [backoff with_backoff]; lia|lia|exact Hn|reflexivity|].
    exists items. rewrite Hc, served_from_failure by assumption.
    destruct (3 <=? k)%nat eqn:E; [apply Nat.leb_le in E; lia|].
    cbn [cursor with_backoff with_cursor] in Hm.
    split; [exact Hm|]. split; [|split].
    + intros it Hin. destruct (Hi it Hin) as (s & He & Hit & Hok).
      exists s. repeat split; auto.
      unfold expected_schema in *.
      cbn [n_features cursor names gnames with_backoff with_cursor] in He.
      now rewrite Hc, first_feature_failure.
    + change (flat_map proj (retry_events o (backoff st) ++ t2)
              = flat_map (fun it => flat_map proj (fst (consume it))) items).
      rewrite flat_map_app, observed_nil; [exact Ho|].
      repeat constructor.
    + exact Hcount.
  - intros st o c Hc Hf Hb k Hk Hk3 Hn t why st' H.
    injection H as <- _ <-. exists [].
    rewrite Hc, served_from_failure by assumption.
    assert (E : (3 <=? k)%nat = true) by (apply Nat.leb_le; lia).
    rewrite E. cbn [map flat_map List.length n_features with_cursor].
    rewrite observed_nil by (repeat constructor).
    repeat split; auto; [intros it []|lia].
  - intros st f c Hc IH k Hk Hk3 Hn t why st' H.
    destruct (process_feature consume num_features f _)
      as [tp [[st1|e]|]] eqn:Hp;
      unfold prepend, bind in H; cbn [fst snd] in H; try discriminate.
    destruct (run consume num_features st1) as [t2 r2] eqn:Hr.
    cbn [fst snd] in H. injection H as <- ->.
    pose proof (process_feature_ok _ _ _ _ _ _ Hp)
      as (tc & sch & a & g & tq & Hbs & Hra & Hok & Hcr & -> & Hst1).
    destruct (schema_step f c st 0 tc sch a g Hc Hbs Hra)
      as (s & He & -> & Hit & Hbk).
    assert (Hn1 : n_features st1 = n_features st + 1) by (now subst st1).
    assert (He1 : expected_schema st1 = Some s).
    { unfold expected_schema. 
      destruct (n_features st1 =? 0) eqn:E; [apply Z.eqb_eq in E; lia|].
      subst st1. cbn. now destruct s. }
    destruct (IH _ st1 eq_refl O ltac:(now subst st1) ltac:(lia)
                 ltac:(lia) t2 why st' Hr)
      as (items & Hm & Hi & Ho & Hcount).
    exists ((f, a, g) :: items). rewrite Hc.
    cbn [map served_from fst flat_map List.length].
    split; [f_equal; rewrite Hm; now subst st1|]. split; [|split].
    + intros it [<-|Hin]; [now exists s|].
      destruct (Hi it Hin) as (s' & He' & Hit' & Hok').
      exists s. rewrite He1 in He'. injection He' as <-. auto.
    + change (flat_map proj ([EvGetNextFeature]
                               ++ (tc ++ fst (consume (f, a, g)) ++ tq)
                               ++ t2)
              = flat_map proj (fst (consume (f, a, g)))
                ++ flat_map (fun it => flat_map proj (fst (consume it)))
                            items).
      rewrite !flat_map_app, Ho.
      rewrite (observed_nil [EvGetNextFeature]) by (repeat constructor).
      rewrite (observed_nil tc).
      2:{ eapply Forall_impl; [|exact Hbk]. intros e E.
          unfold iterator_event. rewrite E. apply orb_true_r. }
      rewrite (observed_nil tq); [now rewrite app_nil_r|].
      pose proof (count_and_report_events
                    num_features
                    (n_features (with_backoff (with_cursor st c) 0)))
        as Hq.
      rewrite Hcr in Hq. exact Hq.
    + rewrite Hcount, Hn1. cbn [List.length]. lia.
Qed.

End Observed.

Lemma yields_of_app (t1 t2 : trace) :
  yields_of (t1 ++ t2) = yields_of t1 ++ yields_of t2.
Proof. apply flat_map_app. Qed.

Lemma yields_of_quiet (t : trace) : quiet t -> yields_of t = [].
Proof.
  induction 1 as [|e t [_ He] _ IH]; [reflexivity|].
  destruct e; try discriminate; exact IH.
Qed.

Lemma yields_of_iterator (t : trace) :
  Forall (fun e => iterator_event e = true) t -> yields_of t = [].
Proof.
  apply observed_nil. intros e He. destruct e; try reflexivity.
  discriminate.
Qed.

(** In every scan, also one that an exception cuts short, the features
    yielded so far are an initial part of the served features. *)
Lemma run_yields_prefix (num_features : Z) (st : locals) :
  forall k,
    backoff st = Z.of_nat k -> (k <= 3)%nat ->
    exists rest,
      served_from k (cursor st)
      = map (fun it => fst (fst it))
            (yields_of (fst (run yield_only num_features st))) ++ rest.
Proof.
  pattern st, (run yield_only num_features st). apply run_cases; clear st.
  - intros st Hc k Hk Hk3. rewrite run_end by (auto; lia). cbn [fst].
    rewrite yields_of_quiet by apply quiet_end_trace.
    now exists (served_from k (cursor st)).
  - intros st o c Hc Hf Hb IH k Hk Hk3.
    destruct (IH (S k)) as [rest Hrest];
      [cbn [backoff with_backoff]; lia|lia|].
    exists rest. rewrite Hc, served_from_failure by assumption.
    destruct (3 <=? k)%nat eqn:E; [apply Nat.leb_le in E; lia|].
    unfold prepend. cbn [fst]. rewrite yields_of_app.
    rewrite (yields_of_quiet (retry_events _ _)) by (repeat constructor).
    exact Hrest.
  - intros st o c Hc Hf Hb k Hk Hk3. cbn [fst].
    rewrite yields_of_quiet by (repeat constructor).
    now exists (served_from k (cursor st)).
  - intros st f c Hc IH k Hk Hk3. rewrite Hc. cbn [served_from].
    set (st0 := with_backoff (with_cursor st c) 0) in *.
    assert (Htc : yields_of (fst (bound_schema f st0)) = [])
      by apply yields_of_iterator, bound_schema_events.
    destruct (process_feature_yield num_features f st0)
      as (tc & <- & [(Hfst & Hno)|(sch & a & g & tp & _ & _ & Hfst
                                   & Hq & _)]).
    + exists (f :: served_from 0 c).
      destruct (process_feature yield_only num_features f st0)
        as [tpf [[st1|e]|]]; [now elim (Hno st1)| |];
        cbn [fst] in Hfst; subst tpf; unfold prepend, bind; cbn [fst app];
        change (yields_of (EvGetNextFeature :: ?t)) with (yields_of t);
        now rewrite Htc.
    + destruct (process_feature yield_only num_features f st0)
        as [tpf [[st1|e]|]] eqn:Hp; cbn [fst] in Hfst; subst tpf.
      * destruct (IH _ st1 eq_refl O) as [rest Hrest]; [|lia|].
        { apply process_feature_locals in Hp. now destruct Hp as (_ & -> & _). }
        exists rest. rewrite bind_value. unfold prepend. cbn [fst app].
        change (yields_of (EvGetNextFeature :: ?t)) with (yields_of t).
        rewrite !yields_of_app, Htc. cbn [app].
        change (yields_of (EvYield f a g :: tp))
          with ((f, a, g) :: yields_of tp).
        rewrite (yields_of_quiet tp Hq). cbn [app map fst]. f_equal.
        apply process_feature_locals in Hp. destruct Hp as (Hcur & _).
        rewrite Hcur in Hrest. exact Hrest.
      * exists (served_from 0 c). unfold prepend, bind. cbn [fst app].
        change (yields_of (EvGetNextFeature :: ?t)) with (yields_of t).
        rewrite !yields_of_app, Htc. cbn [app].
        change (yields_of (EvYield f a g :: tp))
          with ((f, a, g) :: yields_of tp).
        now rewrite (yields_of_quiet tp Hq).
      * exists (served_from 0 c). unfold prepend, bind. cbn [fst app].
        change (yields_of (EvGetNextFeature :: ?t)) with (yields_of t).
        rewrite !yields_of_app, Htc. cbn [app].
        change (yields_of (EvYield f a g :: tp))
          with ((f, a, g) :: yields_of tp).
        now rewrite (yields_of_quiet tp Hq).
Qed.

Lemma scan_run (consume : Feature * attrs_t * g_attrs_t -> M unit)
      (num_features : Z) (c : list fetch_outcome) (why : stop_reason)
      (st : locals) :
  snd (scan consume num_features c) = Some (Ok (why, st)) ->
  exists tr,
    run consume num_features (initial c) = (tr, Some (Ok (why, st)))
    /\ fst (scan consume num_features c)
       = tr ++ [EvStderr DFinished; EvStderr (DFinalCount (n_features st))].
Proof.
  unfold scan.
  destruct (run consume num_features (initial c)) as [tr [[[w s]|e]|]];
    try discriminate.
  rewrite bind_value. cbn. intros H. injection H as <- <-. now exists tr.
Qed.

(** X6.  The iterator yields the features of the cursor in the order of
    the cursor, each at most once, and none that comes after the first
    four failures in a row: in every scan, also one that an exception
    cuts short, the features yielded are an initial part of the served
    features; in a scan that runs to its stop they are all of them. *)
Theorem yields_follow_cursor (num_features : Z) (c : list fetch_outcome) :
  (exists rest,
      served c
      = map (fun it => fst (fst it))
            (yields_of (fst (scan yield_only num_features c))) ++ rest)
  /\ forall why st,
      snd (scan yield_only num_features c) = Some (Ok (why, st)) ->
      map (fun it => fst (fst it))
          (yields_of (fst (scan yield_only num_features c)))
      = served c.
Proof.
  split.
  - destruct (run_yields_prefix num_features (initial c) O eq_refl
                                ltac:(lia)) as [rest Hrest].
    exists rest. unfold served. cbn [cursor initial] in Hrest.
    rewrite Hrest. do 2 f_equal.
    destruct (scan_trace yield_only num_features c) as (tail & -> & Ht).
    rewrite yields_of_app. rewrite (yields_of_quiet tail).
    + now rewrite app_nil_r.
    + eapply Forall_impl; [|exact Ht].
      intros [ | | | | |[]| ]; cbn; auto; discriminate.
  - intros why st H. apply scan_run in H. destruct H as (tr & Hr & ->).
    rewrite yields_of_app, app_nil_r.
    destruct (run_delivery
                yield_only num_features _
                (fun e => match e with
                          | EvYield f a g => [(f, a, g)]
                          | _ => []
                          end)
                ltac:(intros e He; destruct e; try reflexivity;
                      discriminate)
                (initial c) O eq_refl ltac:(lia) ltac:(cbn; lia)
                tr why st Hr)
      as (items & Hm & _ & Ho & _).
    cbn [cursor initial] in Hm.
    unfold yields_of, served. rewrite Ho, <- Hm. f_equal.
    clear. induction items as [|[[f a] g] items IH]; [reflexivity|].
    cbn. now rewrite IH.
Qed.

Lemma scan_count (consume : Feature * attrs_t * g_attrs_t -> M unit)
      (num_features : Z) (c : list fetch_outcome) (why : stop_reason)
      (st : locals) :
  snd (scan consume num_features c) = Some (Ok (why, st)) ->
  n_features st = Z.of_nat (List.length (served c)).
Proof.
  intros H. apply scan_run in H. destruct H as (tr & Hr & _).
  destruct (run_delivery
              consume num_features unit (fun _ => [])
              ltac:(reflexivity)
              (initial c) O eq_refl ltac:(lia) ltac:(cbn; lia)
              tr why st Hr)
    as (items & Hm & _ & _ & Hn).
  rewrite Hn. unfold served. cbn [cursor initial] in Hm. rewrite <- Hm.
  rewrite length_map. reflexivity.
Qed.

Lemma print_feature_ok_lines (feat : Feature) (attributes : attrs_t)
      (geom_attributes : g_attrs_t) :
  snd (print_feature (feat, attributes, geom_attributes)) = Some (Ok tt) ->
  stdout_of (fst (print_feature (feat, attributes, geom_attributes)))
  = lines_for attributes (map snd geom_attributes).
Proof.
  unfold print_feature.
  induction geom_attributes as [|[name og] l IH]; [reflexivity|].
  cbn [for_each fst snd map].
  destruct (print_geometry feat attributes name og) as [t1 [[[]|e]|]]
    eqn:Hg; try discriminate.
  rewrite bind_value. unfold prepend. cbn [fst snd]. intros H.
  rewrite stdout_of_app, (IH H).
  unfold lines_for. cbn [flat_map]. f_equal.
  unfold print_geometry in Hg. destruct og as [geom|].
  - unfold lift, stdout in Hg.
    destruct (geo_record attributes geom) as [r|e]; [|discriminate].
    cbn in Hg. destruct (snd (json_dump r)) as [[]|e]; [|discriminate].
    cbn in Hg. injection Hg as <-. reflexivity.
  - injection Hg as <-. reflexivity.
Qed.

Lemma terminate_unit {A : Type} (m : M A) (code : Z) :
  terminate (bind m (fun _ => ret tt)) code = terminate m code.
Proof.
  destruct m as [t [[a|e]|]]; cbn; rewrite ?app_nil_r; reflexivity.
Qed.

(** The part of the script before the scan. *)
Lemma main_scans (Open : string -> option DataSource) (argv : list string)
      (url layer_name : string) (flt : option string)
      (wfs_ds : DataSource) (layer : Layer) (srs : SpatialRef) :
  parse_args argv = Ok (url, layer_name, flt) ->
  layer_name <> ""%string ->
  Open ("WFS:" ++ url)%string = Some wfs_ds ->
  ds_truthy wfs_ds = true ->
  GetLayerByName wfs_ds layer_name = Some layer ->
  GetSpatialRef layer = Some srs ->
  main Open argv
  = terminate (prepend (prologue url layer_name flt layer srs)
                       (scan print_feature (estimate layer flt)
                             (scanned layer flt))) 0.
Proof.
  intros Hp Hl Ho Ht Hg Hs.
  unfold main. rewrite Hp, Ho, Ht. apply String.eqb_neq in Hl.
  rewrite bind_ret, Hl.
  unfold print_features_geojson, get_features, open_layer.
  rewrite Hg, bind_ret. cbv zeta. rewrite Hs.
  unfold banner, estimate, scanned, prologue. rewrite Hl.
  destruct (truthy flt); cbn [bind stderr emit ret app fst snd];
    rewrite ?app_nil_r;
    match goal with
    | |- context [scan ?k ?n ?c] =>
        destruct (scan k n c) as [ts [[r|e]|]]
    end; cbn [bind ret terminate prepend fst snd app];
    rewrite ?app_nil_r; reflexivity.
Qed.

Lemma prologue_silent (url layer_name : string) (flt : option string)
      (layer : Layer) (srs : SpatialRef) :
  stdout_of (prologue url layer_name flt layer srs) = []
  /\ sleeps_of (prologue url layer_name flt layer srs) = []
  /\ fetches_of (prologue url layer_name flt layer srs) = O
  /\ progress_of (prologue url layer_name flt layer srs) = [].
Proof. unfold prologue. destruct (truthy flt); repeat split. Qed.

Lemma main_of_scans (Open : string -> option DataSource)
      (argv : list string) (layer : Layer) (flt : option string) :
  scans Open argv layer flt ->
  exists th,
    main Open argv
    = terminate (prepend th (scan print_feature (estimate layer flt)
                                  (scanned layer flt))) 0
    /\ stdout_of th = [] /\ sleeps_of th = []
    /\ fetches_of th = O /\ progress_of th = [].
Proof.
  intros (url & layer_name & wfs_ds & srs & Hp & Hl & Ho & Ht & Hg & Hs).
  exists (prologue url layer_name flt layer srs).
  split; [now apply main_scans with (wfs_ds := wfs_ds)|].
  apply prologue_silent.
Qed.

Lemma scan_stdout (num_features : Z) (c : list fetch_outcome)
      (why : stop_reason) (st : locals) :
  snd (scan print_feature num_features c) = Some (Ok (why, st)) ->
  stdout_of (fst (scan print_feature num_features c))
  = flat_map (lines_of_feature (cached_schema c)) (served c).
Proof.
  intros H. apply scan_run in H. destruct H as (tr & Hr & ->).
  rewrite stdout_of_app, app_nil_r.
  destruct (run_delivery
              print_feature num_features _
              (fun e => match e with EvStdout s => [s] | _ => [] end)
              ltac:(intros e He; destruct e; try reflexivity;
                    discriminate)
              (initial c) O eq_refl ltac:(lia) ltac:(cbn; lia)
              tr why st Hr)
    as (items & Hm & Hi & Ho & _).
  cbn [cursor initial] in Hm.
  unfold stdout_of, served. rewrite Ho, <- Hm. clear Ho Hm Hr.
  induction items as [|[[f a] g] items IH]; [reflexivity|].
  cbn [flat_map map fst]. rewrite IH by (intros it Hin; apply Hi; now right).
  f_equal. destruct (Hi (f, a, g) (or_introl eq_refl))
    as (s & He & Hit & Hok).
  cbn [fst] in Hit.
  assert (Hs : cached_schema c = s).
  { unfold expected_schema in He. cbn in He. unfold cached_schema.
    destruct (first_feature c) as [f0|]; [|discriminate].
    destruct (schema_of f0); [|discriminate]. now injection He. }
  unfold lines_of_feature. rewrite Hs, Hit.
  apply (print_feature_ok_lines f a g Hok).
Qed.

(** X15.  When a run gets to the scan and exits with status 0, what it
    has written to standard output is, feature by feature in the order
    of the cursor, the document and the newline of every geometry field
    that is not null, for the features served before the first four
    failures in a row, with the dictionaries built from the names of the
    first feature.  Nothing else is on standard output, and the features
    after the stop are not there. *)
Theorem stdout_follows_cursor (Open : string -> option DataSource)
        (argv : list string) (layer : Layer) (flt : option string) :
  scans Open argv layer flt ->
  snd (main Open argv) = Some (Exited 0) ->
  stdout_of (fst (main Open argv))
  = flat_map (lines_of_feature (cached_schema (scanned layer flt)))
             (served (scanned layer flt)).
Proof.
  intros Hs Hx. destruct (main_of_scans Open argv layer flt Hs)
    as (th & Hm & Hth & _).
  rewrite Hm in *.
  destruct (scan print_feature (estimate layer flt) (scanned layer flt))
    as [ts [[[why st]|e]|]] eqn:Hsc; try discriminate.
  cbn [terminate prepend fst snd]. rewrite stdout_of_app, Hth.
  cbn [app]. change ts with (fst (ts, Some (Ok (why, st)))).
  rewrite <- Hsc. apply (scan_stdout _ _ why st). now rewrite Hsc.
Qed.

(** ** Progress lines and sleeps of a scan *)

Lemma due_S (n : Z) (len : nat) :
  due n (S len)
  = (if (n + 1) mod 10000 =? 0 then [n + 1] else []) ++ due (n + 1) len.
Proof.
  unfold due. cbn [seq map filter Z.of_nat].
  replace (n + Z.pos (Pos.of_succ_nat 0)) with (n + 1) by lia.
  assert (E : map (fun i => n + Z.of_nat i) (seq 2 len)
              = map (fun i => n + 1 + Z.of_nat i) (seq 1 len)).
  { rewrite <- (seq_shift len 1), map_map. apply map_ext. intros i. lia. }
  rewrite E. now destruct ((n + 1) mod 10000 =? 0).
Qed.

Lemma progress_of_app (t1 t2 : trace) :
  progress_of (t1 ++ t2) = progress_of t1 ++ progress_of t2.
Proof. apply flat_map_app. Qed.

Lemma sleeps_of_app (t1 t2 : trace) :
  sleeps_of (t1 ++ t2) = sleeps_of t1 ++ sleeps_of t2.
Proof. apply flat_map_app. Qed.

Lemma slept_app (t1 t2 : trace) : slept (t1 ++ t2) = slept t1 + slept t2.
Proof.
  unfold slept. rewrite sleeps_of_app.
  induction (sleeps_of t1) as [|s l IH]; cbn; lia.
Qed.

Lemma bound_schema_account (f : Feature) (st : locals) :
  progress_of (fst (bound_schema f st)) = []
  /\ sleeps_of (fst (bound_schema f st)) = [].
Proof.
  assert (H : events_in (fun e => progress_of [e] = []
                                  /\ sleeps_of [e] = [])
                        (bound_schema f st)).
  { unfold bound_schema, capture_schema. events; split; reflexivity. }
  unfold events_in in H.
  induction H as [|e t [H1 H2] _ [IH1 IH2]]; [split; reflexivity|].
  split.
  - change (progress_of ([e] ++ t) = []). now rewrite progress_of_app, H1.
  - change (sleeps_of ([e] ++ t) = []). now rewrite sleeps_of_app, H2.
Qed.

Lemma count_and_report_ok (num_features n : Z) (tp : trace) (n' : Z) :
  count_and_report num_features n = (tp, Some (Ok n')) ->
  tp = (if (n + 1) mod 10000 =? 0
        then [EvStderr (DProgress (n + 1) num_features)] else [])
  /\ ((n + 1) mod 10000 = 0 -> num_features <> 0).
Proof.
  unfold count_and_report.
  destruct ((n + 1) mod 10000 =? 0) eqn:E;
    [destruct (num_features =? 0) eqn:E0|]; cbn; intros H;
    try discriminate; injection H as <- _; split; auto.
  - intros _. now apply Z.eqb_neq.
  - apply Z.eqb_neq in E. intros; contradiction.
Qed.

Lemma pow2_level (b : Z) :
  0 <= b <= 3 ->
  (b = 0 /\ 2 ^ b = 1) \/ (b = 1 /\ 2 ^ b = 2) \/ (b = 2 /\ 2 ^ b = 4)
  \/ (b = 3 /\ 2 ^ b = 8).
Proof.
  intros Hb.
  assert (E : b = 0 \/ b = 1 \/ b = 2 \/ b = 3) by lia.
  destruct E as [-> | [-> | [-> | ->]]]; auto 6.
Qed.

Lemma end_trace_account (b : Z) :
  0 <= b <= 3 ->
  progress_of (end_trace (Z.to_nat (3 - b)) b) = []
  /\ Forall (fun s => s = 1 \/ s = 2 \/ s = 4)
            (sleeps_of (end_trace (Z.to_nat (3 - b)) b))
  /\ slept (end_trace (Z.to_nat (3 - b)) b) + (2 ^ b - 1) = 7.
Proof.
  intros Hb.
  assert (E : b = 0 \/ b = 1 \/ b = 2 \/ b = 3) by lia.
  destruct E as [-> | [-> | [-> | ->]]];
    (split; [reflexivity|split; [|reflexivity]]); vm_compute;
    repeat (apply Forall_cons; [auto|]); apply Forall_nil.
Qed.

Section Account.
Variable consume : Feature * attrs_t * g_attrs_t -> M unit.
Variable num_features : Z.
Hypothesis consume_no_progress :
  forall it, progress_of (fst (consume it)) = [].
Hypothesis consume_no_sleep :
  forall it, sleeps_of (fst (consume it)) = [].

Lemma run_account (st : locals) :
  0 <= backoff st <= 3 ->
  forall t why st',
    run consume num_features st = (t, Some (Ok (why, st'))) ->
    exists len,
      n_features st' = n_features st + Z.of_nat len
      /\ progress_of t
         = map (fun m => (m, num_features)) (due (n_features st) len)
      /\ Forall (fun s => s = 1 \/ s = 2 \/ s = 4) (sleeps_of t)
      /\ 7 <= slept t + (2 ^ backoff st - 1) <= 7 * (Z.of_nat len + 1).
Proof.
  pattern st, (run consume num_features st). apply run_cases; clear st.
  - intros st Hc Hb t why st'. rewrite run_end by (auto; lia).
    destruct (end_trace_account (backoff st) Hb) as (Hp & Hs & Hsum).
    set (te := end_trace _ _) in *. set (sf := with_backoff _ _).
    assert (Hnf : n_features sf = n_features st) by reflexivity.
    intros H. injection H as <- _ <-. exists O.
    rewrite Hp, Hnf. cbn [Z.of_nat].
    split; [lia|]. split; [reflexivity|]. split; [exact Hs|lia].
  - intros st o c Hc Hf Hb IH Hb' t why st' H.
    destruct (run consume num_features _) as [t2 r2] eqn:Hr.
    unfold prepend in H. cbn [fst snd] in H. injection H as <- ->.
    destruct (IH ltac:(cbn [backoff with_backoff]; lia) t2 why st' eq_refl)
      as (len & Hn & Hp & Hs & Hsum).
    exists len. cbn [n_features backoff with_backoff with_cursor] in *.
    split; [exact Hn|]. split; [exact Hp|].
    change (Forall (fun s => s = 1 \/ s = 2 \/ s = 4)
                   (2 ^ backoff st :: sleeps_of t2)
            /\ 7 <= (2 ^ backoff st + slept t2) + (2 ^ backoff st - 1)
               <= 7 * (Z.of_nat len + 1)).
    rewrite Z.pow_add_r, Z.pow_1_r in Hsum by lia.
    destruct (pow2_level (backoff st) ltac:(lia))
      as [[E P]|[[E P]|[[E P]|[E P]]]]; [| | |lia];
      rewrite P in *; (split; [apply Forall_cons; [lia|exact Hs]|lia]).
  - intros st o c Hc Hf Hb Hb' t why st' H. injection H as <- _ <-.
    exists O. cbn [n_features with_cursor Z.of_nat].
    replace (backoff st) with 3 by lia.
    split; [lia|]. split; [reflexivity|]. split; [constructor|].
    change (7 <= 7 <= 7 * 1). lia.
  - intros st f c Hc IH Hb t why st' H.
    destruct (process_feature consume num_features f _)
      as [tp [[st1|e]|]] eqn:Hp;
      unfold prepend, bind in H; cbn [fst snd] in H; try discriminate.
    destruct (run consume num_features st1) as [t2 r2] eqn:Hr.
    cbn [fst snd] in H. injection H as <- ->.
    pose proof (process_feature_ok _ _ _ _ _ _ Hp)
      as (tc & sch & a & g & tq & Hbs & Hra & Hok & Hcr & -> & Hst1).
    destruct (bound_schema_account f (with_backoff (with_cursor st c) 0))
      as [Hbp Hbsl].
    rewrite Hbs in Hbp, Hbsl. cbn [fst] in Hbp, Hbsl.
    apply count_and_report_ok in Hcr. destruct Hcr as [Htq _].
    cbn [n_features with_backoff with_cursor] in Htq.
    assert (Hb1 : backoff st1 = 0) by (now subst st1).
    assert (Hn1 : n_features st1 = n_features st + 1) by (now subst st1).
    destruct (IH _ st1 eq_refl ltac:(lia) t2 why st' Hr)
      as (len & Hn & Hpr & Hs & Hsum).
    exists (S len). rewrite Hn1 in Hn, Hpr. rewrite Hb1 in Hsum.
    change (2 ^ 0 - 1) with 0 in Hsum.
    split; [lia|].
    assert (Hq : progress_of tq
                 = map (fun m => (m, num_features))
                       (if (n_features st + 1) mod 10000 =? 0
                        then [n_features st + 1] else [])
                 /\ sleeps_of tq = []).
    { rewrite Htq. destruct ((n_features st + 1) mod 10000 =? 0);
        split; reflexivity. }
    destruct Hq as [Hq1 Hq2].
    change (EvGetNextFeature :: (tc ++ fst (consume (f, a, g)) ++ tq) ++ t2)
      with ([EvGetNextFeature] ++ (tc ++ fst (consume (f, a, g)) ++ tq)
                               ++ t2).
    assert (Hsl : sleeps_of ([EvGetNextFeature]
                               ++ (tc ++ fst (consume (f, a, g)) ++ tq)
                               ++ t2) = sleeps_of t2).
    { rewrite !sleeps_of_app, Hbsl, consume_no_sleep, Hq2. reflexivity. }
    unfold slept in *. rewrite Hsl.
    rewrite !progress_of_app, Hbp, consume_no_progress, Hq1, Hpr, due_S.
    rewrite map_app. cbn [progress_of flat_map app].
    split; [reflexivity|]. split; [exact Hs|].
    destruct (pow2_level (backoff st) Hb)
      as [[E P]|[[E P]|[[E P]|[E P]]]]; rewrite P; lia.
Qed.

End Account.

Lemma print_feature_account (it : Feature * attrs_t * g_attrs_t) :
  progress_of (fst (print_feature it)) = []
  /\ sleeps_of (fst (print_feature it)) = [].
Proof.
  pose proof (events_print_feature it) as H. unfold events_in in H.
  induction H as [|e t He _ [IH1 IH2]]; [split; reflexivity|].
  destruct e as [ | | | | |[]| ]; try discriminate; split; assumption.
Qed.

Lemma scan_account (num_features : Z) (c : list fetch_outcome)
      (why : stop_reason) (st : locals) :
  snd (scan print_feature num_features c) = Some (Ok (why, st)) ->
  progress_of (fst (scan print_feature num_features c))
  = map (fun m => (m, num_features)) (due 0 (List.length (served c)))
  /\ Forall (fun s => s = 1 \/ s = 2 \/ s = 4)
            (sleeps_of (fst (scan print_feature num_features c)))
  /\ 7 <= slept (fst (scan print_feature num_features c))
       <= 7 * (Z.of_nat (List.length (served c)) + 1).
Proof.
  intros H.
  pose proof (scan_count _ _ _ _ _ H) as Hn.
  apply scan_run in H. destruct H as (tr & Hr & ->).
  destruct (run_account
              print_feature num_features
              (fun it => proj1 (print_feature_account it))
              (fun it => proj2 (print_feature_account it))
              (initial c) ltac:(cbn; lia) tr why st Hr)
    as (len & Hlen & Hp & Hs & Hsum).
  cbn [n_features backoff initial] in Hlen, Hp, Hsum.
  assert (E : len = List.length (served c)) by lia. subst len.
  unfold slept in *.
  rewrite progress_of_app, sleeps_of_app, Hp, !app_nil_r.
  change (2 ^ 0 - 1) with 0 in Hsum.
  split; [reflexivity|]. split; [exact Hs|lia].
Qed.

(** A run that gets to the scan and exits with status 0 has completed
    the scan. *)
Lemma main_completed (Open : string -> option DataSource)
      (argv : list string) (layer : Layer) (flt : option string) :
  scans Open argv layer flt ->
  snd (main Open argv) = Some (Exited 0) ->
  exists th why st,
    snd (scan print_feature (estimate layer flt) (scanned layer flt))
    = Some (Ok (why, st))
    /\ fst (main Open argv)
       = th ++ fst (scan print_feature (estimate layer flt)
                         (scanned layer flt))
    /\ stdout_of th = [] /\ sleeps_of th = []
    /\ fetches_of th = O /\ progress_of th = [].
Proof.
  intros Hs Hx. destruct (main_of_scans Open argv layer flt Hs)
    as (th & Hm & Hth).
  rewrite Hm in *.
  destruct (scan print_feature (estimate layer flt) (scanned layer flt))
    as [ts [[[why st]|e]|]] eqn:Hsc; try discriminate.
  exists th, why, st. repeat split; try apply Hth.
Qed.

(** X13.  When a run gets to the scan and exits with status 0, the last
    two diagnostics are 'Finished.' and the final count, and the count
    is the number of features served before the first four failures in
    a row. *)
Theorem final_count_is_served (Open : string -> option DataSource)
        (argv : list string) (layer : Layer) (flt : option string) :
  scans Open argv layer flt ->
  snd (main Open argv) = Some (Exited 0) ->
  exists pre,
    fst (main Open argv)
    = pre ++ [EvStderr DFinished;
              EvStderr (DFinalCount
                          (Z.of_nat (List.length
                                       (served (scanned layer flt)))))].
Proof.
  intros Hs Hx.
  destruct (main_completed Open argv layer flt Hs Hx)
    as (th & why & st & Hsc & -> & _).
  pose proof (scan_count _ _ _ _ _ Hsc) as Hn.
  apply scan_run in Hsc. destruct Hsc as (tr & _ & ->).
  exists (th ++ tr). now rewrite Hn, app_assoc.
Qed.

(** X11.  When a run gets to the scan and exits with status 0, there is
    one progress line for every multiple of 10,000 among the counts 1
    to N, where N is the number of served features, in increasing
    order, and each shows the estimated count of the layer session. *)
Theorem progress_every_10000 (Open : string -> option DataSource)
        (argv : list string) (layer : Layer) (flt : option string) :
  scans Open argv layer flt ->
  snd (main Open argv) = Some (Exited 0) ->
  progress_of (fst (main Open argv))
  = map (fun m => (m, estimate layer flt))
        (due 0 (List.length (served (scanned layer flt)))).
Proof.
  intros Hs Hx.
  destruct (main_completed Open argv layer flt Hs Hx)
    as (th & why & st & Hsc & -> & _ & _ & _ & Hp).
  rewrite progress_of_app, Hp. cbn [app].
  exact (proj1 (scan_account _ _ _ _ Hsc)).
Qed.

(** X12.  When a run gets to the scan and exits with status 0, every
    sleep lasted 1, 2 or 4 seconds, and the run slept at least 7 seconds
    in total (the three retries before the stop) and at most 7 seconds
    for each served feature and 7 more. *)
Theorem sleep_budget (Open : string -> option DataSource)
        (argv : list string) (layer : Layer) (flt : option string) :
  scans Open argv layer flt ->
  snd (main Open argv) = Some (Exited 0) ->
  Forall (fun s => s = 1 \/ s = 2 \/ s = 4)
         (sleeps_of (fst (main Open argv)))
  /\ 7 <= slept (fst (main Open argv))
       <= 7 * (Z.of_nat (List.length (served (scanned layer flt))) + 1).
Proof.
  intros Hs Hx.
  destruct (main_completed Open argv layer flt Hs Hx)
    as (th & why & st & Hsc & -> & _ & Hsl & _).
  unfold slept. rewrite sleeps_of_app, Hsl. cbn [app].
  exact (proj2 (scan_account _ _ _ _ Hsc)).
Qed.

(** ** The locals at the head of the loop *)

Lemma while_body_step
      (consume : Feature * attrs_t * g_attrs_t -> M unit)
      (num_features : Z) (st st' : locals) (t : trace) :
  while_body consume num_features st = (t, Some (Ok (Continue st'))) ->
  if is_failure (nth 0 (cursor st) (Returns None))
  then n_features st' = n_features st
       /\ names st' = names st /\ gnames st' = gnames st
  else n_features st' = n_features st + 1
       /\ exists ns gns,
           names st' = Some ns /\ gnames st' = Some gns
           /\ (n_features st <> 0 ->
               names st = Some ns /\ gnames st = Some gns).
Proof.
  unfold while_body.
  destruct (cursor st) as [|[[f|]|] c] eqn:Hc;
    cbn [GetNextFeature nth is_failure try_block backoff];
    rewrite bind_emit;
    try (unfold stderr; rewrite bind_emit;
         destruct (3 <=? backoff st); cbn; intros H; [discriminate|];
         injection H as _ <-; cbn; auto).
  intros H. unfold prepend in H.
  match type of H with
  | (_, snd (bind ?m _)) = _ => destruct m as [tp [[st1|e]|]] eqn:Hp
  end; cbn in H; try discriminate.
  injection H as _ <-.
  pose proof (process_feature_ok _ _ _ _ _ _ Hp)
    as (tc & sch & a & g & tq & Hbs & Hra & _ & _ & _ & ->).
  cbn [n_features names gnames]. split; [reflexivity|].
  destruct (read_attributes_spec f sch) as [_ Hs].
  rewrite Hra in Hs. destruct (Hs a g eq_refl) as (ns & gns & -> & _).
  exists ns, gns. split; [reflexivity|]. split; [reflexivity|].
  intros Hn. unfold bound_schema in Hbs.
  cbn [n_features names gnames with_backoff with_cursor] in Hbs.
  apply Z.eqb_neq in Hn. rewrite Hn in Hbs.
  injection Hbs as _ E1 E2. now split.
Qed.

Lemma successes_snoc (os : list fetch_outcome) (o : fetch_outcome) :
  successes (os ++ [o])
  = (successes os + if is_failure o then 0 else 1)%nat.
Proof.
  unfold successes. rewrite filter_app, length_app. cbn [filter].
  destruct (is_failure o); reflexivity.
Qed.

(** X7.  At the head of the loop, after any number of iterations,
    [n_features] is the number of advances that returned a feature;
    [names] and [gnames] are unbound while it is 0 and bound from then
    on; so lines 109-110 never read an unbound name. *)
Theorem locals_invariant
        (consume : Feature * attrs_t * g_attrs_t -> M unit)
        (num_features : Z) (c : list fetch_outcome) (n : nat)
        (st : locals) :
  state_after consume num_features n (initial c) = Some st ->
  n_features st = Z.of_nat (successes (consumed c n))
  /\ (n_features st = 0 -> names st = None /\ gnames st = None)
  /\ (n_features st <> 0 ->
      exists ns gns, names st = Some ns /\ gnames st = Some gns)
  /\ forall f t sch,
      bound_schema f st = (t, Some (Ok sch)) ->
      exists ns gns, sch = (Some ns, Some gns).
Proof.
  intros H.
  assert (Inv : n_features st = Z.of_nat (successes (consumed c n))
                /\ (n_features st = 0 ->
                    names st = None /\ gnames st = None)
                /\ (n_features st <> 0 ->
                    exists ns gns,
                      names st = Some ns /\ gnames st = Some gns)).
  { revert st H. induction n as [|n IH]; intros st H.
    - injection H as <-. cbn. repeat split; auto. congruence.
    - replace (S n) with (n + 1)%nat in H by lia.
      rewrite state_after_add in H.
      destruct (state_after consume num_features n (initial c))
        as [st1|] eqn:H1; [|discriminate].
      destruct (IH st1 eq_refl) as (Hn1 & Hz1 & Hnz1).
      destruct (state_after_level _ _ c n st1 H1) as (Hc1 & _).
      cbn [state_after] in H.
      destruct (while_body consume num_features st1)
        as [t [[[st2|why st2]|e]|]] eqn:Hw; cbn [snd] in H;
        try discriminate.
      injection H as <-. apply while_body_step in Hw.
      assert (Hnth : nth 0 (cursor st1) (Returns None)
                     = nth n c (Returns None)).
      { rewrite Hc1. clear. revert c.
        induction n; intros [|o c]; cbn; auto. }
      rewrite Hnth in Hw. rewrite consumed_S, successes_snoc.
      destruct (is_failure (nth n c (Returns None))).
      + destruct Hw as (-> & -> & ->). rewrite Nat.add_0_r. auto.
      + destruct Hw as (-> & ns & gns & -> & -> & _).
        split; [lia|]. split; [lia|]. intros _. now exists ns, gns. }
  destruct Inv as (Hn & Hz & Hnz). repeat split; auto; try apply Hz; auto.
  intros f t sch Hb. unfold bound_schema in Hb.
  destruct (n_features st =? 0) eqn:E.
  - apply bind_ok in Hb. destruct Hb as (t1 & s & t2 & _ & Hb & _).
    injection Hb as _ <-. now eexists _, _.
  - apply Z.eqb_neq in E. destruct (Hnz E) as (ns & gns & Ens & Egns).
    injection Hb as _ <-. rewrite Ens, Egns. now exists ns, gns.
Qed.

(** X16.  Two scans of the same cursor with estimated counts other than
    0 leave the same trace once the progress lines are taken out, and
    end in the same way. *)
Theorem estimate_only_in_progress
        (consume : Feature * attrs_t * g_attrs_t -> M unit) (n1 n2 : Z)
        (c : list fetch_outcome) :
  n1 <> 0 -> n2 <> 0 ->
  erase_progress (fst (scan consume n1 c))
  = erase_progress (fst (scan consume n2 c))
  /\ snd (scan consume n1 c) = snd (scan consume n2 c).
Proof.
  intros H1 H2. unfold scan.
  apply same_but_progress_bind; [now apply run_estimate|].
  intros r _. apply same_but_progress_refl.
Qed.

(** ** The level after a success *)

(** The handling of a feature passes the backoff level on as it is. *)
Lemma process_feature_level
      (consume : Feature * attrs_t * g_attrs_t -> M unit)
      (num_features : Z) (f : Feature) (st : locals) (b : Z) :
  process_feature consume num_features f (with_backoff st b)
  = (fst (process_feature consume num_features f st),
     match snd (process_feature consume num_features f st) with
     | Some (Ok st') => Some (Ok (with_backoff st' b))
     | Some (Raise e) => Some (Raise e)
     | None => None
     end).
Proof.
  unfold process_feature.
  change (bound_schema f (with_backoff st b)) with (bound_schema f st).
  destruct (bound_schema f st) as [t1 [[sch|e]|]]; try reflexivity.
  rewrite !bind_value.
  destruct (read_attributes f sch) as [t2 [[item|e]|]]; try reflexivity.
  rewrite !bind_value.
  destruct (consume (f, fst item, snd item)) as [t3 [[[]|e]|]];
    try reflexivity.
  rewrite !bind_value.
  change (n_features (with_backoff st b)) with (n_features st).
  destruct (count_and_report num_features (n_features st))
    as [t4 [[n|e]|]]; reflexivity.
Qed.

Lemma state_after_S
      (consume : Feature * attrs_t * g_attrs_t -> M unit)
      (num_features : Z) (n : nat) (st0 st st' : locals) (t : trace) :
  state_after consume num_features n st0 = Some st ->
  while_body consume num_features st = (t, Some (Ok (Continue st'))) ->
  state_after consume num_features (S n) st0 = Some st'.
Proof.
  intros Hn Hw. replace (S n) with (n + 1)%nat by lia.
  rewrite state_after_add, Hn. cbn [state_after]. now rewrite Hw.
Qed.

(** C7.  At the head of the loop the backoff level is the number of
    consecutive failures since the last success (or since the start).
    From there a failure below the cap takes the loop on at the next
    level, and an advance that returns a feature takes it on at level 0,
    whatever the level was, as soon as the handling of the feature
    raises nothing; the run of failures that follows it sleeps 1, 2, 4
    from the start again. *)
Theorem backoff_reset
        (consume : Feature * attrs_t * g_attrs_t -> M unit)
        (num_features : Z) (c : list fetch_outcome) (n : nat)
        (st : locals) :
  state_after consume num_features n (initial c) = Some st ->
  backoff st = Z.of_nat (consecutive_failures (consumed c n))
  /\ (forall o c',
         GetNextFeature (cursor st) = (o, c') ->
         is_failure o = true ->
         backoff st < 3 ->
         state_after consume num_features (S n) (initial c)
         = Some (with_backoff (with_cursor st c') (backoff st + 1)))
  /\ (forall f c' tp st1,
         cursor st = Returns (Some f) :: c' ->
         process_feature consume num_features f (with_cursor st c')
         = (tp, Some (Ok st1)) ->
         while_body consume num_features st
         = (EvGetNextFeature :: tp,
            Some (Ok (Continue (with_backoff st1 0))))
         /\ state_after consume num_features (S n) (initial c)
            = Some (with_backoff st1 0)
         /\ forall fails rest,
             c' = fails ++ rest ->
             forallb is_failure fails = true ->
             sleeps_of (failure_run_trace fails)
             = firstn (List.length fails) [1; 2; 4]
             /\ exists t',
                 fst (run consume num_features (with_backoff st1 0))
                 = failure_run_trace fails ++ t').
Proof.
  intros H. pose proof (state_after_level _ _ _ _ _ H) as (_ & Hb & _).
  split; [exact Hb|]. split.
  - intros o c' Hg Hf Hlt.
    apply (state_after_S _ _ _ _ _ _ _ H
                         (while_body_retry _ _ st o c' Hg Hf Hlt)).
  - intros f c' tp st1 Hc Hp.
    assert (Hw : while_body consume num_features st
                 = (EvGetNextFeature :: tp,
                    Some (Ok (Continue (with_backoff st1 0))))).
    { rewrite (while_body_feature _ _ st f c') by (now rewrite Hc).
      rewrite process_feature_level, Hp. cbn [fst snd].
      rewrite bind_value. unfold prepend, ret. cbn [fst snd app].
      now rewrite app_nil_r. }
    split; [exact Hw|]. split; [exact (state_after_S _ _ _ _ _ _ _ H Hw)|].
    intros fails rest -> Hf. split; [apply sleeps_failure_run|].
    apply failure_run_prefix with (rest := rest); auto.
    apply process_feature_locals in Hp. destruct Hp as (Hcur & _).
    cbn [cursor with_backoff]. now rewrite Hcur.
Qed.

(** ** Null geometries *)

Lemma print_feature_fields (feat : Feature) (attributes : attrs_t)
      (geom_attributes : g_attrs_t) :
  Forall (printed_ok attributes) geom_attributes ->
  print_feature (feat, attributes, geom_attributes)
  = (flat_map (fun ng => field_events feat attributes (fst ng) (snd ng))
              geom_attributes,
     Some (Ok tt)).
Proof.
  unfold print_feature.
  induction 1 as [|[name og] l Hok _ IH]; [reflexivity|].
  cbn [for_each fst snd flat_map].
  assert (Hg : print_geometry feat attributes name og
               = (field_events feat attributes name og, Some (Ok tt))).
  { unfold printed_ok in Hok. cbn [snd] in Hok.
    destruct og as [geom|]; cbn [print_geometry field_events];
      [|reflexivity].
    destruct Hok as (r & Hr & Hj). rewrite Hr. cbn. now rewrite Hj. }
  rewrite Hg, bind_value. cbv beta. rewrite IH. reflexivity.
Qed.

Lemma skipped_of_app (t1 t2 : trace) :
  skipped_of (t1 ++ t2) = skipped_of t1 ++ skipped_of t2.
Proof. apply flat_map_app. Qed.

Lemma combine_snd {A B : Type} (xs : list A) :
  forall ys : list B,
    List.length ys = List.length xs -> map snd (combine xs ys) = ys.
Proof.
  induction xs as [|x xs IH]; intros [|y ys] H; try discriminate;
    [reflexivity|].
  cbn. f_equal. apply IH. cbn in H. lia.
Qed.

Lemma field_events_account (feat : Feature) (attributes : attrs_t)
      (g : g_attrs_t) :
  stdout_of (flat_map (fun ng => field_events feat attributes
                                              (fst ng) (snd ng)) g)
  = lines_for attributes (map snd g)
  /\ skipped_of (flat_map (fun ng => field_events feat attributes
                                                  (fst ng) (snd ng)) g)
     = flat_map (fun ng : string * option Geometry =>
                   match snd ng with
                   | None => [fst ng]
                   | Some _ => []
                   end) g
  /\ sleeps_of (flat_map (fun ng => field_events feat attributes
                                                 (fst ng) (snd ng)) g) = []
  /\ fetches_of (flat_map (fun ng => field_events feat attributes
                                                  (fst ng) (snd ng)) g) = O.
Proof.
  induction g as [|[name og] g (IH1 & IH2 & IH3 & IH4)];
    [repeat split|].
  cbn [flat_map map fst snd]. unfold fetches_of in *. unfold sleeps_of in *.
  rewrite stdout_of_app, skipped_of_app, flat_map_app, filter_app,
    length_app, IH1, IH2, IH3, IH4.
  unfold lines_for. cbn [flat_map].
  destruct og as [geom|]; cbn [field_events].
  - destruct (geo_record attributes geom); repeat split.
  - repeat split.
Qed.

Lemma bound_schema_silent (f : Feature) (st : locals) :
  sleeps_of (fst (bound_schema f st)) = []
  /\ fetches_of (fst (bound_schema f st)) = O.
Proof.
  assert (H : events_in (fun e => sleeps_of [e] = []
                                  /\ fetches_of [e] = O)
                        (bound_schema f st)).
  { unfold bound_schema, capture_schema. events; split; reflexivity. }
  unfold events_in in H.
  induction H as [|e t [H1 H2] _ [IH1 IH2]]; [split; reflexivity|].
  split.
  - change (sleeps_of ([e] ++ t) = []). unfold sleeps_of in *.
    now rewrite flat_map_app, H1.
  - change (fetches_of ([e] ++ t) = O). unfold fetches_of in *.
    now rewrite filter_app, length_app, H2, IH2.
Qed.

(** With the dictionaries [item], whose geometries are printed without
    an exception, the handling of a feature sleeps and advances as
    little as the consumer does: not at all. *)
Lemma process_feature_silent (num_features : Z) (feat : Feature)
      (st : locals) (attributes : attrs_t) (g : g_attrs_t) :
  Forall (printed_ok attributes) g ->
  (forall sch item,
      snd (bound_schema feat st) = Some (Ok sch) ->
      snd (read_attributes feat sch) = Some (Ok item) ->
      item = (attributes, g)) ->
  sleeps_of (fst (process_feature print_feature num_features feat st)) = []
  /\ fetches_of (fst (process_feature print_feature num_features feat st))
     = O.
Proof.
  intros Hok Hitem. unfold process_feature.
  destruct (bound_schema_silent feat st) as [Hb1 Hb2].
  destruct (bound_schema feat st) as [tb [[sch|e]|]] eqn:Hbs;
    cbn [fst] in Hb1, Hb2; try (split; assumption).
  rewrite bind_value. unfold prepend. cbn [fst].
  destruct (read_attributes_spec feat sch) as [Ht _].
  destruct (read_attributes feat sch) as [tr [[item|e]|]] eqn:Hra;
    cbn [fst] in Ht; subst tr;
    try (cbn [bind fst]; rewrite app_nil_r; split; assumption).
  rewrite bind_value, prepend_nil.
  rewrite (Hitem sch item eq_refl (f_equal snd Hra)). cbn [fst snd].
  rewrite (bind_ok_parts (print_feature (feat, attributes, g)) _ tt)
    by (now rewrite (print_feature_fields feat attributes g Hok)).
  rewrite (print_feature_fields feat attributes g Hok). cbn [fst].
  destruct (field_events_account feat attributes g) as (_ & _ & Hs & Hf).
  unfold prepend. cbn [fst].
  assert (Hc : sleeps_of (fst (bind (count_and_report
                                       num_features (n_features st))
                                    (fun n => ret
                                       {| cursor := cursor st;
                                          n_features := n;
                                          backoff := backoff st;
                                          names := fst sch;
                                          gnames := snd sch |}))) = []
               /\ fetches_of (fst (bind (count_and_report
                                           num_features (n_features st))
                                        (fun n => ret
                                           {| cursor := cursor st;
                                              n_features := n;
                                              backoff := backoff st;
                                              names := fst sch;
                                              gnames := snd sch |}))) = O).
  { unfold count_and_report.
    destruct (_ =? 0); [destruct (_ =? 0)|]; split; reflexivity. }
  destruct Hc as [Hc1 Hc2]. unfold sleeps_of, fetches_of in *.
  rewrite !flat_map_app, !filter_app, !length_app.
  rewrite Hb1, Hb2, Hs, Hf, Hc1, Hc2. split; reflexivity.
Qed.

(** C6, as the code has it.  When the cached geometry field names are
    pairwise distinct, the feature has a geometry field for each of them
    and no conversion of a field that is not null raises, the feature
    leaves in the trace, field by field in the order of the cached
    names, the warning with the name of the field and the attributes of
    the feature for a field that is null, and the document and the
    newline of its record for a field that is not: every null field has
    its warning, every other field has its line, and a feature with only
    null fields writes nothing to standard output.  The loop goes on
    from the same locals as with a consumer that does nothing: no
    exception, no sleep, no advance of the cursor, no change of the
    backoff level. *)
Theorem null_geometry_skipped (feat : Feature) (attributes : attrs_t)
        (gns : list string) (fields : list (option Geometry)) :
  NoDup gns ->
  List.length fields = List.length gns ->
  (forall i, (i < List.length gns)%nat ->
             GetGeomFieldRef feat i = Ok (nth i fields None)) ->
  Forall (fun og => printed_ok attributes (""%string, og)) fields ->
  dict_comp (GetGeomFieldRef feat) gns = Ok (combine gns fields)
  /\ print_feature (feat, attributes, combine gns fields)
     = (flat_map (fun ng => field_events feat attributes (fst ng) (snd ng))
                 (combine gns fields),
        Some (Ok tt))
  /\ skipped_of (fst (print_feature (feat, attributes, combine gns fields)))
     = null_names gns fields
  /\ stdout_of (fst (print_feature (feat, attributes, combine gns fields)))
     = lines_for attributes fields
  /\ (Forall (fun og => og = None) fields ->
      stdout_of (fst (print_feature
                        (feat, attributes, combine gns fields))) = [])
  /\ forall num_features st,
      (forall sch item,
          snd (bound_schema feat st) = Some (Ok sch) ->
          snd (read_attributes feat sch) = Some (Ok item) ->
          item = (attributes, combine gns fields)) ->
      snd (process_feature print_feature num_features feat st)
      = snd (process_feature (fun _ => ret tt) num_features feat st)
      /\ sleeps_of (fst (process_feature print_feature num_features
                                         feat st)) = []
      /\ fetches_of (fst (process_feature print_feature num_features
                                          feat st)) = O.
Proof.
  intros Hnd Hlen Hget Hok.
  split; [now apply dict_comp_nodup with (dflt := None)|].
  assert (Hsnd : map snd (combine gns fields) = fields)
    by now apply combine_snd.
  assert (Hok' : Forall (printed_ok attributes) (combine gns fields)).
  { rewrite <- Hsnd in Hok. rewrite Forall_map in Hok.
    eapply Forall_impl; [|exact Hok]. now intros [k og]. }
  pose proof (print_feature_fields feat attributes _ Hok') as Hp.
  destruct (field_events_account feat attributes (combine gns fields))
    as (Ho & Hs & Hsl & Hf).
  rewrite Hsnd in Ho.
  split; [exact Hp|].
  split; [exact (eq_trans (f_equal (fun m => skipped_of (fst m)) Hp) Hs)|].
  split; [exact (eq_trans (f_equal (fun m => stdout_of (fst m)) Hp) Ho)|].
  split.
  - intros Hnull.
    refine (eq_trans (eq_trans (f_equal (fun m => stdout_of (fst m)) Hp)
                               Ho) _).
    unfold lines_for. clear -Hnull.
    induction Hnull as [|og l -> _ IH]; [reflexivity|exact IH].
  - intros num_features st Hitem. split; [|split].
    + apply process_feature_consumers. intros sch item Hb Hr.
      rewrite (Hitem sch item Hb Hr). exact (f_equal snd Hp).
    + exact (proj1 (process_feature_silent num_features feat st
                                           attributes _ Hok' Hitem)).
    + exact (proj2 (process_feature_silent num_features feat st
                                           attributes _ Hok' Hitem)).
Qed.

(** ** The start of a scan *)

(** X5.  When the arguments name a layer of a service that opens with
    at least one layer, and the layer has a spatial reference, the
    script ends as the scan of the layer does, and its trace is the
    banner and the lines of the layer session followed by the trace of
    the scan.  With a filter that is not empty the filter is set on the
    layer, the count is not asked for, the estimate is 1,000,000 and
    the scan runs on the filtered cursor; without a filter, or with the
    empty one, no filter is set, the count is asked for, its answer is
    reported and is the estimate, and the scan runs on the unfiltered
    cursor. *)
Theorem startup_sequence (Open : string -> option DataSource)
        (argv : list string) (url layer_name : string)
        (flt : option string) (wfs_ds : DataSource) (layer : Layer)
        (srs : SpatialRef) :
  parse_args argv = Ok (url, layer_name, flt) ->
  layer_name <> ""%string ->
  Open ("WFS:" ++ url)%string = Some wfs_ds ->
  GetLayerCount wfs_ds <> O ->
  GetLayerByName wfs_ds layer_name = Some layer ->
  GetSpatialRef layer = Some srs ->
  (forall f,
      flt = Some f -> f <> ""%string ->
      fst (main Open argv)
      = [EvStderr (DWFS url); EvStderr (DLayer layer_name);
         EvStderr (DFiltering f); EvSetAttributeFilter f;
         EvStderr DFeaturesUnknown; EvStderr (DSR (ExportToWkt srs))]
        ++ fst (scan print_feature 1000000 (features layer (Some f)))
      /\ answer_of (snd (main Open argv))
         = forget (snd (scan print_feature 1000000
                             (features layer (Some f)))))
  /\ (flt = None \/ flt = Some ""%string ->
      fst (main Open argv)
      = [EvStderr (DWFS url); EvStderr (DLayer layer_name);
         EvGetFeatureCount; EvStderr (DFeatures (GetFeatureCount layer));
         EvStderr (DSR (ExportToWkt srs))]
        ++ fst (scan print_feature (GetFeatureCount layer)
                     (features layer None))
      /\ answer_of (snd (main Open argv))
         = forget (snd (scan print_feature (GetFeatureCount layer)
                             (features layer None)))).
Proof.
  intros Hp Hl Ho Hn Hg Hs.
  assert (Ht : ds_truthy wfs_ds = true).
  { unfold ds_truthy. apply Nat.eqb_neq in Hn. now rewrite Hn. }
  rewrite (main_scans Open argv url layer_name flt wfs_ds layer srs)
    by assumption.
  unfold prologue, estimate, scanned. split.
  - intros f -> Hf. apply String.eqb_neq in Hf.
    unfold truthy. rewrite Hf. cbn [negb].
    destruct (scan print_feature _ _) as [ts [[r|e]|]];
      split; reflexivity.
  - intros [->| ->]; cbn [truthy String.eqb negb];
      destruct (scan print_feature _ _) as [ts [[r|e]|]];
      split; reflexivity.
Qed.

(** ** The records on standard output *)

Lemma streamed_silent (res : option (result unit)) (expected : list pyval) :
  res <> Some (Ok tt) -> streamed res expected [].
Proof.
  intros H. exists [], expected, []. repeat split; try contradiction.
  now left.
Qed.

Lemma streamed_done : streamed (Some (Ok tt)) [] [].
Proof. exists [], [], []. repeat split. now left. Qed.

Lemma streamed_app (res : option (result unit)) (e1 e2 : list pyval)
      (o1 o2 : list string) :
  streamed (Some (Ok tt)) e1 o1 -> streamed res e2 o2 ->
  streamed res (e1 ++ e2) (o1 ++ o2).
Proof.
  intros (r1 & s1 & f1 & -> & -> & H1 & _) (r2 & s2 & f2 & -> & -> & H2 & H3).
  destruct (H1 eq_refl) as [-> ->]. rewrite !app_nil_r.
  exists (r1 ++ r2), s2, f2. rewrite flat_map_app, !app_assoc.
  repeat split; try apply H2; auto.
Qed.

Lemma streamed_stop (res : option (result unit)) (e1 e2 : list pyval)
      (o1 : list string) :
  res <> Some (Ok tt) -> streamed res e1 o1 -> streamed res (e1 ++ e2) o1.
Proof.
  intros Hn (r1 & s1 & f1 & -> & -> & H1 & H3).
  exists r1, (s1 ++ e2), f1. rewrite app_assoc.
  repeat split; try contradiction.
  destruct H3 as [->|(r & rest' & e & -> & -> & Hj & Hr)]; [now left|].
  right. exists r, (rest' ++ e2), e. auto.
Qed.

(** The geometries of one feature. *)
Lemma print_feature_streamed (feat : Feature) (attributes : attrs_t)
      (g : g_attrs_t) :
  streamed (snd (print_feature (feat, attributes, g)))
           (records_for attributes g)
           (stdout_of (fst (print_feature (feat, attributes, g)))).
Proof.
  unfold print_feature, records_for.
  induction g as [|[name og] g IH]; [apply streamed_done|].
  cbn [for_each flat_map fst snd].
  destruct og as [geom|]; cbn [print_geometry].
  - destruct (geo_record attributes geom) as [r|e] eqn:Hr.
    + unfold lift, stdout. cbn [bind emit app].
      destruct (json_dump r) as [text [[]|e]] eqn:Hj; cbn [fst snd].
      * set (rest := for_each g _) in *.
        destruct rest as [t2 r2]. cbn [fst snd] in *.
        change (stdout_of (([] ++ [EvStdout text] ++ []
                               ++ [EvStdout newline]) ++ t2))
          with ((text :: newline :: nil) ++ stdout_of t2).
        apply (streamed_app _ [r] _ [text; newline] _); [|exact IH].
        exists [r], [], []. cbn. rewrite Hj. repeat split. now left.
      * cbn. exists [], (r :: flat_map
                              (fun ng : string * option Geometry =>
                                 match snd ng with
                                 | Some geom0 =>
                                     match geo_record attributes geom0 with
                                     | Ok r0 => [r0]
                                     | Raise _ => []
                                     end
                                 | None => []
                                 end) g), [text].
        repeat split; try discriminate.
        right. eexists _, _, e. rewrite Hj. repeat split.
    + cbn. apply streamed_silent. discriminate.
  - unfold stderr. rewrite bind_emit.
    destruct (for_each g _) as [t2 r2]. exact IH.
Qed.

Lemma stdout_of_events (t : trace) :
  Forall (fun e => iterator_event e = true) t -> stdout_of t = [].
Proof.
  induction 1 as [|e t He _ IH]; [reflexivity|].
  destruct e; try discriminate; exact IH.
Qed.

Lemma schema_from_failure (st : locals) (o : fetch_outcome)
      (c : list fetch_outcome) (b : Z) :
  cursor st = o :: c -> is_failure o = true ->
  schema_from (with_backoff (with_cursor st c) b) = schema_from st.
Proof.
  intros Hc Hf. unfold schema_from, cached_schema.
  cbn [n_features cursor names gnames with_backoff with_cursor].
  now rewrite Hc, first_feature_failure.
Qed.

(** One feature of the scan. *)
Lemma process_feature_streamed (num_features : Z) (f : Feature)
      (c : list fetch_outcome) (st : locals) :
  cursor st = Returns (Some f) :: c ->
  0 <= n_features st ->
  streamed (forget (snd (process_feature
                           print_feature num_features f
                           (with_backoff (with_cursor st c) 0))))
           (records_of (schema_from st) f)
           (stdout_of (fst (process_feature
                              print_feature num_features f
                              (with_backoff (with_cursor st c) 0))))
  /\ forall st1,
      snd (process_feature print_feature num_features f
                           (with_backoff (with_cursor st c) 0))
      = Some (Ok st1) ->
      schema_from st1 = schema_from st
      /\ n_features st1 = n_features st + 1
      /\ backoff st1 = 0 /\ cursor st1 = c.
Proof.
  intros Hc Hn. set (st0 := with_backoff (with_cursor st c) 0).
  unfold process_feature.
  pose proof (bound_schema_events f st0) as Hbe.
  destruct (bound_schema f st0) as [tb [[sch|e]|]] eqn:Hbs; cbn [fst] in Hbe;
    try (cbn [bind fst snd forget]; rewrite (stdout_of_events _ Hbe);
         split; [apply streamed_silent|]; discriminate).
  rewrite bind_value. unfold prepend. cbn [fst snd].
  rewrite stdout_of_app, (stdout_of_events _ Hbe). cbn [app].
  destruct (read_attributes_spec f sch) as [Ht Hs].
  destruct (read_attributes f sch) as [tr [[[a g]|e]|]] eqn:Hra;
    cbn [fst] in Ht; subst tr;
    try (cbn [bind fst snd forget stdout_of flat_map];
         split; [apply streamed_silent|]; discriminate).
  destruct (Hs a g eq_refl) as (ns & gns & -> & Ha & Hg).
  assert (Hsch : schema_from st = (ns, gns)).
  { destruct (schema_step f c st 0 tb (Some ns, Some gns) a g Hc Hbs Hra)
      as ([s1 s2] & He & Hss & _).
    cbn [fst snd] in Hss. injection Hss as -> ->.
    unfold expected_schema in He.
    unfold schema_from, cached_schema. rewrite Hc in *.
    cbn [first_feature] in *.
    destruct (n_features st =? 0).
    - destruct (schema_of f) as [s'|]; [|discriminate].
      now injection He as ->.
    - destruct (names st), (gnames st); try discriminate.
      now injection He as -> ->. }
  assert (Hrec : records_of (schema_from st) f = records_for a g).
  { unfold records_of, item_of. rewrite Hsch. cbn [fst snd].
    now rewrite Ha, Hg. }
  rewrite Hrec, bind_value, prepend_nil. cbn [fst snd].
  pose proof (print_feature_streamed f a g) as Hp.
  destruct (print_feature (f, a, g)) as [tp [[[]|e]|]] eqn:Hpf;
    cbn [fst snd] in Hp.
  - rewrite bind_value. unfold prepend. cbn [fst snd].
    pose proof (count_and_report_events num_features (n_features st0))
      as Hce.
    destruct (count_and_report_spec num_features (n_features st0))
      as [_ Hcn].
    destruct (count_and_report num_features (n_features st0))
      as [tq [[n'|e]|]]; cbn [fst snd] in Hce, Hcn.
    + rewrite bind_value. cbn [prepend ret fst snd forget].
      rewrite app_nil_r, stdout_of_app, (stdout_of_events _ Hce),
        app_nil_r.
      split; [exact Hp|]. intros st1 H. injection H as <-.
      rewrite (Hcn n' eq_refl).
      unfold schema_from.
      cbn [n_features names gnames backoff cursor fst snd st0
           with_backoff with_cursor].
      destruct (n_features st + 1 =? 0) eqn:E;
        [apply Z.eqb_eq in E; lia|].
      rewrite <- Hsch. unfold schema_from. repeat split; auto.
    + cbn [bind fst snd forget].
      rewrite stdout_of_app, (stdout_of_events _ Hce), app_nil_r.
      split; [|discriminate].
      destruct Hp as (r1 & s1 & f1 & E1 & E2 & H1 & _).
      destruct (H1 eq_refl) as [-> ->].
      exists r1, [], [].
      repeat split; auto; try discriminate; try (now left).
    + cbn [bind fst snd forget].
      rewrite stdout_of_app, (stdout_of_events _ Hce), app_nil_r.
      split; [|discriminate].
      destruct Hp as (r1 & s1 & f1 & E1 & E2 & H1 & _).
      destruct (H1 eq_refl) as [-> ->].
      exists r1, [], [].
      repeat split; auto; try discriminate; try (now left).
  - cbn [bind fst snd forget]. split; [exact Hp|discriminate].
  - cbn [bind fst snd forget]. split; [|discriminate].
    destruct Hp as (r1 & s1 & f1 & E1 & E2 & _ & H3).
    exists r1, s1, f1. repeat split; auto; discriminate.
Qed.

(** The scan from any state of the loop. *)
Lemma run_streamed (num_features : Z) (st : locals) :
  forall k,
    backoff st = Z.of_nat k -> (k <= 3)%nat -> 0 <= n_features st ->
    streamed (forget (snd (run print_feature num_features st)))
             (flat_map (records_of (schema_from st))
                       (served_from k (cursor st)))
             (stdout_of (fst (run print_feature num_features st))).
Proof.
  pattern st, (run print_feature num_features st).
  apply run_cases; clear st.
  - intros st Hc k Hk Hk3 Hn. rewrite run_end by (auto; lia).
    rewrite Hc. cbn [fst snd forget served_from flat_map].
    rewrite stdout_of_events; [apply streamed_done|].
    pose proof (events_end_trace (fun _ => False)
                                 (Z.to_nat (3 - backoff st)) (backoff st))
      as H.
    eapply Forall_impl; [|exact H]. now intros e [He|[]].
  - intros st o c Hc Hf Hb IH k Hk Hk3 Hn.
    specialize (IH (S k) ltac:(cbn [backoff with_backoff]; lia)
                   ltac:(lia) Hn).
    rewrite (schema_from_failure st o c _ Hc Hf) in IH.
    rewrite Hc, served_from_failure by assumption.
    destruct (3 <=? k)%nat eqn:E; [apply Nat.leb_le in E; lia|].
    unfold prepend. cbn [fst snd].
    rewrite stdout_of_app.
    rewrite (stdout_of_events (retry_events o (backoff st)))
      by (repeat constructor).
    exact IH.
  - intros st o c Hc Hf Hb k Hk Hk3 Hn.
    rewrite Hc, served_from_failure by assumption.
    assert (E : (3 <=? k)%nat = true) by (apply Nat.leb_le; lia).
    rewrite E. cbn [fst snd forget flat_map].
    rewrite stdout_of_events by (repeat constructor).
    apply streamed_done.
  - intros st f c Hc IH k Hk Hk3 Hn. rewrite Hc.
    cbn [served_from flat_map].
    destruct (process_feature_streamed num_features f c st Hc Hn)
      as [Hp Hst].
    destruct (process_feature print_feature num_features f _)
      as [tp [[st1|e]|]] eqn:Hpf; cbn [fst snd forget] in Hp.
    + destruct (Hst st1 eq_refl) as (Hs1 & Hn1 & Hb1 & Hc1).
      specialize (IH tp st1 eq_refl O Hb1 ltac:(lia) ltac:(lia)).
      rewrite Hs1, Hc1 in IH.
      rewrite bind_value. unfold prepend. cbn [fst snd app].
      change (stdout_of (EvGetNextFeature
                           :: tp ++ fst (run print_feature
                                             num_features st1)))
        with (stdout_of (tp ++ fst (run print_feature num_features st1))).
      rewrite stdout_of_app. now apply streamed_app.
    + unfold prepend, bind. cbn [fst snd app forget].
      change (stdout_of (EvGetNextFeature :: tp)) with (stdout_of tp).
      apply streamed_stop; [discriminate|exact Hp].
    + unfold prepend, bind. cbn [fst snd app forget].
      change (stdout_of (EvGetNextFeature :: tp)) with (stdout_of tp).
      apply streamed_stop; [discriminate|exact Hp].
Qed.

Lemma scan_streamed (num_features : Z) (c : list fetch_outcome) :
  streamed (forget (snd (scan print_feature num_features c)))
           (flat_map (records_of (cached_schema c)) (served c))
           (stdout_of (fst (scan print_feature num_features c))).
Proof.
  pose proof (run_streamed num_features (initial c) O eq_refl
                           ltac:(lia) ltac:(cbn; lia)) as H.
  unfold scan.
  destruct (run print_feature num_features (initial c))
    as [tr [[r|e]|]]; cbn [fst snd forget] in H |- *;
    try exact H.
  rewrite bind_value. destruct r as [why st].
  unfold prepend, bind, stderr, emit, ret. cbn [fst snd app forget].
  rewrite stdout_of_app. cbn [stdout_of flat_map app].
  rewrite app_nil_r. exact H.
Qed.

Lemma fst_terminate {A : Type} (m : M A) (code : Z) :
  fst (terminate m code) = fst m.
Proof. now destruct m as [t [[a|e]|]]. Qed.

Lemma answer_terminate {A : Type} (m : M A) (code : Z) :
  answer_of (snd (terminate m code)) = forget (snd m).
Proof. now destruct m as [t [[a|e]|]]. Qed.

Lemma bind_silent {A B : Type} (m : M A) (f : A -> M B) :
  stdout_of (fst m) = [] ->
  (forall a, snd m = Some (Ok a) -> stdout_of (fst (f a)) = []) ->
  stdout_of (fst (bind m f)) = [].
Proof.
  destruct m as [t [[a|e]|]]; cbn [fst snd]; intros Ht Hf;
    try exact Ht.
  rewrite bind_value. unfold prepend. cbn [fst].
  rewrite stdout_of_app, Ht, (Hf a eq_refl). reflexivity.
Qed.

Lemma open_layer_silent (wfs_ds : DataSource) (layer_name : string)
      (flt : option string) :
  stdout_of (fst (open_layer wfs_ds layer_name flt)) = []
  /\ forall lc,
      snd (open_layer wfs_ds layer_name flt) = Some (Ok lc) ->
      exists layer srs,
        GetLayerByName wfs_ds layer_name = Some layer
        /\ GetSpatialRef layer = Some srs.
Proof.
  unfold open_layer.
  destruct (GetLayerByName wfs_ds layer_name) as [layer|];
    [|split; [reflexivity|discriminate]].
  rewrite bind_ret. cbv zeta.
  destruct (GetSpatialRef layer) as [srs|] eqn:Hs;
    destruct (truthy flt); split; try reflexivity; try discriminate;
    intros lc _; now exists layer, srs.
Qed.

(** A run that does not get to a scan and is not a layer listing
    writes nothing to standard output. *)
Lemma no_scan_no_output (Open : string -> option DataSource)
      (argv : list string) :
  ~ listing_mode argv ->
  (forall layer flt, ~ scans Open argv layer flt) ->
  stdout_of (fst (main Open argv)) = [].
Proof.
  intros Hl Hs. unfold main.
  destruct (parse_args argv) as [[[url layer_name] flt]|e] eqn:Hp;
    [|reflexivity].
  rewrite fst_terminate.
  apply bind_silent; [apply stdout_of_banner|]. intros _ _.
  apply bind_silent.
  { destruct (Open ("WFS:" ++ url)%string) as [ds|];
      [destruct (ds_truthy ds)|]; reflexivity. }
  intros wfs_ds Hw.
  destruct (Open ("WFS:" ++ url)%string) as [ds|] eqn:Ho;
    [|discriminate].
  destruct (ds_truthy ds) eqn:Ht; [|discriminate].
  injection Hw as <-.
  destruct (String.eqb_spec layer_name "") as [->|Hne].
  { exfalso. apply Hl. now exists url, flt. }
  apply bind_silent; [|reflexivity].
  unfold print_features_geojson, get_features.
  destruct (open_layer_silent ds layer_name flt) as [Hq Hlc].
  apply bind_silent; [exact Hq|].
  intros lc Hok. destruct (Hlc lc Hok) as (layer & srs & Hg & Hsr).
  exfalso. apply (Hs layer flt).
  now exists url, layer_name, ds, srs.
Qed.

Lemma main_streamed (Open : string -> option DataSource)
      (argv : list string) (layer : Layer) (flt : option string) :
  scans Open argv layer flt ->
  streamed (answer_of (snd (main Open argv)))
           (flat_map (records_of (cached_schema (scanned layer flt)))
                     (served (scanned layer flt)))
           (stdout_of (fst (main Open argv))).
Proof.
  intros Hs. destruct (main_of_scans Open argv layer flt Hs)
    as (th & -> & Hth & _).
  rewrite fst_terminate, answer_terminate. unfold prepend.
  cbn [fst snd]. rewrite stdout_of_app, Hth.
  apply scan_streamed.
Qed.

Lemma lines_of_records (recs : list pyval) (frag : list string) :
  Forall (fun r => no_newline (fst (json_dump r)) = true) recs ->
  no_newline (text_of frag) = true ->
  split_lines (text_of (flat_map line_writes recs ++ frag))
  = (map (fun r => fst (json_dump r)) recs, text_of frag).
Proof.
  intros Hj Hf. rewrite text_of_app.
  induction Hj as [|r recs Hr _ IH].
  - cbn. now apply split_lines_rest.
  - cbn [flat_map line_writes app map].
    change (text_of (fst (json_dump r) :: newline
                         :: flat_map line_writes recs))
      with (fst (json_dump r)
              ++ newline ++ text_of (flat_map line_writes recs))%string.
    rewrite !string_app_assoc, split_lines_line by exact Hr.
    now rewrite IH.
Qed.

Lemma records_of_content (s : list string * list string) (f : Feature)
      (r : pyval) :
  In r (records_of s f) ->
  exists a g name geom d,
    item_of s f = Ok (f, a, g)
    /\ In (name, Some geom) g
    /\ geo_record a geom = Ok r
    /\ r = PyDict d
    /\ dict_get d "properties" = Some (PyDict a).
Proof.
  unfold records_of.
  destruct (item_of s f) as [[[f' a] g]|e] eqn:Hi; [|intros []].
  assert (f' = f) as ->.
  { unfold item_of in Hi.
    destruct (dict_comp (GetField f) (fst s)); [|discriminate].
    destruct (dict_comp (GetGeomFieldRef f) (snd s)); [|discriminate].
    now injection Hi. }
  unfold records_for. rewrite in_flat_map.
  intros ([name [geom|]] & Hin & Hr); cbn [snd] in Hr; [|destruct Hr].
  destruct (geo_record a geom) as [r'|] eqn:Hg; [|destruct Hr].
  destruct Hr as [<-|[]].
  destruct (geo_record_properties a geom r' Hg) as (d & -> & Hd).
  now exists a, g, name, geom, d.
Qed.


End Theory.

(** * The theorems at work on the sample service *)

Import Sample.

Lemma backoff_bound_witness :
  fetches_of (failure_run_trace [Throws; Returns None]) = 2%nat
  /\ sleeps_of (failure_run_trace [Throws; Returns None]) = [1; 2].
Proof.
  pose proof (backoff_bound
                print_feature 5
                (initial [Throws; Returns None; Returns (Some road)])
                [Throws; Returns None] [Returns (Some road)]
                eq_refl ltac:(cbn; lia) eq_refl eq_refl) as H.
  split; [exact (proj1 H)|exact (proj1 (proj2 H))].
Defined.

Lemma end_of_data_is_retried_witness :
  exists pre o,
    fst (scan print_feature 5 [])
    = pre ++ abort_events o 3
          ++ [EvStderr DFinished; EvStderr (DFinalCount 0)].
Proof.
  exact (proj1 (proj2 (end_of_data_is_retried
                         print_feature 5 []
                         (fst (scan print_feature 5 [])) ABORTED
                         {| cursor := []; n_features := 0; backoff := 3;
                            names := None; gnames := None |}
                         eq_refl))).
Defined.

Lemma abort_exit_status_witness :
  snd (main (Open 4 stalling) argv) = Some (Exited 0).
Proof.
  refine (proj1 (proj1 (abort_exit_status (Open 4 stalling) argv)
                       (fst (print_features_geojson (service 4 stalling)
                                                    "roads" None))
                       {| cursor := []; n_features := 2; backoff := 3;
                          names := Some ["name"%string; "lanes"%string];
                          gnames := Some ["geom"%string] |}
                       _)).
  exists "http://example.org/wfs"%string, "roads"%string, None,
    (service 4 stalling).
  split; [reflexivity|]. split; [discriminate|].
  split; [reflexivity|]. split; [reflexivity|]. vm_compute. reflexivity.
Defined.

Lemma exceptions_propagate_witness :
  exists t,
    run print_feature 5 (initial [Returns (Some broken); Returns (Some road)])
    = (EvGetNextFeature :: t, Some (Raise ShapelyError)).
Proof.
  destruct (proj1 (exceptions_propagate
                     5 (initial [Returns (Some broken); Returns (Some road)])
                     broken [Returns (Some road)] ShapelyError
                     eq_refl
                     ltac:(right; eexists _, _; split; [reflexivity|];
                           right; eexists; split; [reflexivity|];
                           exists [], "geom"%string, [], [];
                           split; [reflexivity|]; split; [constructor|];
                           left; reflexivity)))
    as (t & H & _).
  exists t. exact H.
Defined.


Lemma one_line_per_geometry_witness :
  List.length
    (lines_for [("name"%string, PyStr "D4")]
               [point Byte.x05 Byte.x06; None; point Byte.x07 Byte.x08])
  = 4%nat.
Proof.
  refine (proj1 (proj2 (proj2 (proj2 (one_line_per_geometry
                                        two_geoms
                                        [("name"%string, PyStr "D4")]
                                        ["centre"; "gate"; "exit"]%string
                                        [point Byte.x05 Byte.x06; None;
                                         point Byte.x07 Byte.x08]
                                        _ eq_refl _ _))))).
  - repeat constructor; cbn; intuition discriminate.
  - intros [|[|[|i]]] Hi; try reflexivity. cbn in Hi. lia.
  - repeat constructor; cbn; eexists; split; reflexivity.
Defined.

Lemma no_newline_escape (s : string) : no_newline (escape s) = true.
Proof.
  induction s as [|ch s IH]; [reflexivity|].
  cbn [escape]. destruct (Ascii.eqb ch "010"%char) eqn:E; cbn.
  - exact IH.
  - now rewrite E, IH.
Qed.

Lemma sample_json_single_line (v : pyval) :
  no_newline (fst (json_dump v)) = true.
Proof.
  cbn. destruct (has_float v); [reflexivity|apply no_newline_escape].
Qed.

(** C1 as the specification states it fails on the sample service: the
    iterator stops on the exhausted retry budget and the exit status is 0,
    not 1. *)
Lemma abort_exit_status_counterexample :
  (exists ts st, scan_stopped (Open 4 stalling) argv ABORTED ts st)
  /\ option_map exit_status (snd (main (Open 4 stalling) argv)) = Some 0
  /\ option_map exit_status (snd (main (Open 4 stalling) argv)) <> Some 1.
Proof.
  split; [|split; [vm_compute; reflexivity|vm_compute; discriminate]].
  eexists _, _.
  exists "http://example.org/wfs"%string, "roads"%string, None,
    (service 4 stalling).
  split; [reflexivity|]. split; [discriminate|].
  split; [reflexivity|]. split; [reflexivity|]. vm_compute. reflexivity.
Qed.

(** C3 as the specification states it fails on a cursor that is at the end
    of its data from the start: the iterator sleeps 1, 2 and 4 seconds and
    stops ABORTED, it does not go to EXHAUSTED without a sleep. *)
Lemma end_of_data_counterexample :
  sleeps_of (fst (scan print_feature 5 [])) = [1; 2; 4]
  /\ (exists st, snd (scan print_feature 5 []) = Some (Ok (ABORTED, st)))
  /\ ~ (exists st,
           snd (scan print_feature 5 []) = Some (Ok (EXHAUSTED, st))
           /\ sleeps_of (fst (scan print_feature 5 [])) = []).
Proof.
  split; [reflexivity|]. split; [eexists; reflexivity|].
  intros (st & H & _). vm_compute in H. discriminate.
Qed.

(** C9 as the specification states it fails on a feature whose two
    geometry fields, both non-null, have the same name: one line is
    written, not two. *)
Lemma one_line_per_geometry_counterexample :
  GetGeomFieldCount twin = 2%nat
  /\ GetGeomFieldRef twin 0 = Ok (point Byte.x01 Byte.x02)
  /\ GetGeomFieldRef twin 1 = Ok (point Byte.x03 Byte.x04)
  /\ non_null [point Byte.x01 Byte.x02; point Byte.x03 Byte.x04] = 2%nat
  /\ count_writes (fst (scan print_feature 5 [Returns (Some twin)])) = 2
  /\ List.length
       (fst (split_lines
               (text_of (stdout_of
                           (fst (scan print_feature 5
                                      [Returns (Some twin)]))))))
     = 1%nat.
Proof. repeat split; vm_compute; reflexivity. Qed.

(** C8 at the input on which the code breaks it: with an estimated count
    of 0 the progress line of the 10000th feature divides by zero and the
    process ends with an uncaught exception after 10000 of the 10001
    records, while with an estimated count of 1 the same stream is printed
    to its end and the process exits with status 0. *)
Theorem estimate_zero_divides :
  snd (main (Open 0 long_cursor) argv) = Some (Uncaught ZeroDivisionError)
  /\ count_writes (fst (main (Open 0 long_cursor) argv)) = 20000
  /\ snd (main (Open 1 long_cursor) argv) = Some (Exited 0)
  /\ count_writes (fst (main (Open 1 long_cursor) argv)) = 20002.
Proof. repeat split; vm_compute; reflexivity. Qed.

(** * The further properties at work on the sample service *)

Lemma usage_on_short_argv_witness :
  main (Open 4 stalling) ["dump_wfs.py"%string]
  = ([EvStderr (DUsage "dump_wfs.py")], Some (Exited 1)).
Proof.
  exact (proj1 (usage_on_short_argv (Open 4 stalling)
                                    ["dump_wfs.py"%string])
               ltac:(cbn; lia)).
Defined.

Lemma yields_follow_cursor_witness :
  map (fun it => fst (fst it))
      (yields_of (fst (scan yield_only 4 stalling)))
  = [road; path].
Proof.
  exact (proj2 (yields_follow_cursor 4 stalling) ABORTED
               {| cursor := []; n_features := 2; backoff := 3;
                  names := Some ["name"%string; "lanes"%string];
                  gnames := Some ["geom"%string] |}
               eq_refl).
Defined.

Lemma scans_sample (count : Z) (c : list fetch_outcome) :
  scans (Open count c) argv (layer count c) None.
Proof.
  exists "http://example.org/wfs"%string, "roads"%string,
    (service count c), epsg4326.
  repeat split. discriminate.
Defined.

Lemma stdout_follows_cursor_witness :
  stdout_of (fst (main (Open 4 stalling) argv))
  = flat_map (lines_of_feature (["name"; "lanes"], ["geom"])%string)
             [road; path].
Proof.
  exact (stdout_follows_cursor (Open 4 stalling) argv (layer 4 stalling)
                               None (scans_sample 4 stalling) eq_refl).
Defined.

Lemma final_count_is_served_witness :
  exists pre,
    fst (main (Open 4 stalling) argv)
    = pre ++ [EvStderr DFinished; EvStderr (DFinalCount 2)].
Proof.
  exact (final_count_is_served (Open 4 stalling) argv (layer 4 stalling)
                               None (scans_sample 4 stalling) eq_refl).
Defined.

Lemma progress_every_10000_witness :
  progress_of (fst (main (Open 20000 long_cursor) argv))
  = map (fun m => (m, 20000))
        (due 0 (List.length (served long_cursor))).
Proof.
  refine (progress_every_10000 (Open 20000 long_cursor) argv
                               (layer 20000 long_cursor) None
                               (scans_sample 20000 long_cursor) _).
  vm_compute. reflexivity.
Defined.

Lemma sleep_budget_witness :
  7 <= slept (fst (main (Open 4 stalling) argv)) <= 7 * (2 + 1).
Proof.
  exact (proj2 (sleep_budget (Open 4 stalling) argv (layer 4 stalling)
                             None (scans_sample 4 stalling) eq_refl)).
Defined.

Lemma locals_invariant_witness :
  n_features {| cursor := [Returns None; Returns (Some path)];
                n_features := 1; backoff := 1;
                names := Some ["name"%string; "lanes"%string];
                gnames := Some ["geom"%string] |}
  = Z.of_nat (successes (consumed stalling 2)).
Proof.
  exact (proj1 (locals_invariant print_feature 4 stalling 2 _ eq_refl)).
Defined.

Lemma dict_comp_last_wins_witness :
  dict_keys [("geom"%string, point Byte.x03 Byte.x04)]
  = distinct [] ["geom"%string; "geom"%string].
Proof.
  exact (proj1 (dict_comp_last_wins
                  (GetGeomFieldRef twin) ["geom"%string; "geom"%string]
                  [("geom"%string, point Byte.x03 Byte.x04)] eq_refl)).
Defined.

Lemma dict_comp_by_position_witness :
  dict_comp (GetField road) ["name"%string]
  = dict_comp (GetField (feature [("name"%string, "String"%string,
                                   PyStr "A1")] []))
              ["name"%string].
Proof.
  refine (proj2 (dict_comp_by_position (GetField road) ["name"%string])
                _ _).
  intros [|j] Hj; [reflexivity|]. cbn in Hj. lia.
Defined.

Lemma geo_record_keeps_mapping_witness :
  exists d,
    PyDict [("type"%string, PyStr "Point");
            ("coordinates"%string, PyList [PyInt 1; PyInt 2]);
            ("properties"%string, PyDict [("name"%string, PyStr "A1")])]
    = PyDict d
    /\ dict_get d "properties" = Some (PyDict [("name"%string, PyStr "A1")]).
Proof.
  destruct (@geo_record_keeps_mapping
              lib [("name"%string, PyStr "A1")] [Byte.x01; Byte.x02] _
              eq_refl)
    as (lin & wkb & sh & gd & d & _ & _ & _ & _ & Hr & Hp & _).
  exists d. split; assumption.
Defined.

Lemma estimate_only_in_progress_witness :
  snd (scan print_feature 4 stalling)
  = snd (scan print_feature 1000000 stalling).
Proof.
  exact (proj2 (estimate_only_in_progress
                  print_feature 4 1000000 stalling
                  ltac:(discriminate) ltac:(discriminate))).
Defined.

Lemma capture_schema_names_witness :
  List.length ["name"%string; "lanes"%string] = GetFieldCount road.
Proof.
  exact (proj1 (capture_schema_names road ["name"; "lanes"]%string
                                     ["geom"%string] eq_refl)).
Defined.

Lemma failing_geometry_output_witness :
  print_feature (measured,
                 [("width"%string, PyFloat 4612811918334230528)],
                 [("geom"%string, point Byte.x01 Byte.x01)])
  = ([EvStdout "{"], Some (Raise JsonError)).
Proof.
  refine (proj1 (failing_geometry_output
                   measured
                   [("width"%string, PyFloat 4612811918334230528)]
                   [] [] "geom"%string [Byte.x01; Byte.x01] JsonError
                   ltac:(constructor) _)).
  right. eexists. split; reflexivity.
Defined.

Lemma backoff_reset_witness :
  state_after print_feature 5 3
              (initial [Throws; Returns None; Returns (Some road); Throws;
                        Returns None])
  = Some {| cursor := [Throws; Returns None];
            n_features := 1; backoff := 0;
            names := Some ["name"%string; "lanes"%string];
            gnames := Some ["geom"%string] |}
  /\ sleeps_of (failure_run_trace [Throws; Returns None]) = [1; 2]
  /\ backoff {| cursor := [Throws; Returns None];
                n_features := 1; backoff := 0;
                names := Some ["name"%string; "lanes"%string];
                gnames := Some ["geom"%string] |}
     = Z.of_nat (consecutive_failures
                   (consumed [Throws; Returns None; Returns (Some road);
                              Throws; Returns None] 3))
  /\ state_after print_feature 5 4
                 (initial [Throws; Returns None; Returns (Some road);
                           Throws; Returns None])
     = Some {| cursor := [Returns None];
               n_features := 1; backoff := 1;
               names := Some ["name"%string; "lanes"%string];
               gnames := Some ["geom"%string] |}.
Proof.
  pose proof (backoff_reset
                print_feature 5
                [Throws; Returns None; Returns (Some road); Throws;
                 Returns None] 2%nat
                {| cursor := [Returns (Some road); Throws; Returns None];
                   n_features := 0; backoff := 2;
                   names := None; gnames := None |}
                eq_refl) as (_ & _ & H).
  destruct (H road [Throws; Returns None]
              (fst (process_feature
                      print_feature 5 road
                      {| cursor := [Throws; Returns None];
                         n_features := 0; backoff := 2;
                         names := None; gnames := None |}))
              {| cursor := [Throws; Returns None];
                 n_features := 1; backoff := 2;
                 names := Some ["name"%string; "lanes"%string];
                 gnames := Some ["geom"%string] |}
              eq_refl eq_refl) as (_ & Hs & Hf).
  split; [exact Hs|].
  split; [exact (proj1 (Hf [Throws; Returns None] [] eq_refl eq_refl))|].
  pose proof (backoff_reset
                print_feature 5
                [Throws; Returns None; Returns (Some road); Throws;
                 Returns None] 3%nat
                {| cursor := [Throws; Returns None];
                   n_features := 1; backoff := 0;
                   names := Some ["name"%string; "lanes"%string];
                   gnames := Some ["geom"%string] |}
                eq_refl) as (Hb & Hr & _).
  split; [exact Hb|].
  exact (Hr Throws [Returns None] eq_refl eq_refl ltac:(cbn; lia)).
Defined.

Lemma null_geometry_skipped_witness :
  skipped_of (fst (print_feature
                     (two_geoms, [("name"%string, PyStr "D4")],
                      combine ["centre"; "gate"; "exit"]%string
                              [point Byte.x05 Byte.x06; None;
                               point Byte.x07 Byte.x08])))
  = ["gate"%string]
  /\ stdout_of (fst (print_feature
                       (two_geoms, [("name"%string, PyStr "D4")],
                        combine ["centre"; "gate"; "exit"]%string
                                [point Byte.x05 Byte.x06; None;
                                 point Byte.x07 Byte.x08])))
     = lines_for [("name"%string, PyStr "D4")]
                 [point Byte.x05 Byte.x06; None; point Byte.x07 Byte.x08]
  /\ snd (process_feature print_feature 5 two_geoms
                          (initial [Returns (Some road)]))
     = snd (process_feature (fun _ => ret tt) 5 two_geoms
                            (initial [Returns (Some road)]))
  /\ sleeps_of (fst (process_feature print_feature 5 two_geoms
                                     (initial [Returns (Some road)]))) = [].
Proof.
  assert (H := @null_geometry_skipped
                 lib two_geoms [("name"%string, PyStr "D4")]
                 ["centre"; "gate"; "exit"]%string
                 [point Byte.x05 Byte.x06; None; point Byte.x07 Byte.x08]).
  destruct H as (_ & _ & Hs & Ho & _ & Hl).
  - repeat constructor; cbn; intuition discriminate.
  - reflexivity.
  - intros [|[|[|i]]] Hi; try reflexivity. cbn in Hi. lia.
  - repeat constructor; cbn; eexists; split; reflexivity.
  - split; [exact Hs|]. split; [exact Ho|].
    destruct (Hl 5 (initial [Returns (Some road)])) as (Ha & Hsl & _).
    + intros sch item Hb Hr. vm_compute in Hb. injection Hb as <-.
      vm_compute in Hr. injection Hr as <-. reflexivity.
    + split; [exact Ha|exact Hsl].
Defined.

(** C6 as the specification states it fails on features with two
    geometry fields of one name.  When the null field comes last, the
    feature has its warning but the record of its other field, which is
    not null, is not written; when the null field comes first, its
    record is written and the null field has no warning. *)
Lemma null_geometry_skipped_counterexample :
  (GetGeomFieldRef masked 0 = Ok (point Byte.x01 Byte.x02)
   /\ GetGeomFieldRef masked 1 = Ok None
   /\ snd (main (Open 1 [Returns (Some masked)]) argv) = Some (Exited 0)
   /\ skipped_of (fst (main (Open 1 [Returns (Some masked)]) argv))
      = ["geom"%string]
   /\ stdout_of (fst (main (Open 1 [Returns (Some masked)]) argv)) = [])
  /\ (GetGeomFieldRef unwarned 0 = Ok None
      /\ GetGeomFieldRef unwarned 1 = Ok (point Byte.x03 Byte.x04)
      /\ snd (main (Open 1 [Returns (Some unwarned)]) argv)
         = Some (Exited 0)
      /\ skipped_of (fst (main (Open 1 [Returns (Some unwarned)]) argv))
         = []
      /\ List.length
           (fst (split_lines
                   (text_of (stdout_of
                               (fst (main (Open 1 [Returns (Some unwarned)])
                                          argv))))))
         = 1%nat).
Proof. repeat split; vm_compute; reflexivity. Qed.

Lemma not_scans_elsewhere (layer : Layer) (flt : option string) :
  ~ scans (Open 4 stalling) argv_elsewhere layer flt.
Proof.
  intros (url & layer_name & wfs_ds & srs & Hp & _ & Ho & _).
  vm_compute in Hp. injection Hp as <- _ _. discriminate Ho.
Qed.



Lemma startup_failures_witness :
  main (Open 4 stalling) argv_elsewhere
  = ([EvStderr (DWFS "http://elsewhere.example/wfs");
      EvStderr (DLayer "roads")],
     Some (Uncaught AssertionError))
  /\ main Open_vacant argv
     = ([EvStderr (DWFS "http://example.org/wfs");
         EvStderr (DLayer "roads")],
        Some (Uncaught AssertionError))
  /\ main (Open 4 stalling) argv_tracks
     = ([EvStderr (DWFS "http://example.org/wfs");
         EvStderr (DLayer "tracks")],
        Some (Uncaught AttributeError))
  /\ main (Open_tracks 4 stalling) argv_tracks
     = ([EvStderr (DWFS "http://example.org/wfs");
         EvStderr (DLayer "tracks");
         EvGetFeatureCount; EvStderr (DFeatures 4)],
        Some (Uncaught AttributeError)).
Proof.
  split.
  { exact (proj1 (startup_failures (Open 4 stalling) argv_elsewhere
                                   "http://elsewhere.example/wfs" "roads"
                                   None eq_refl)
                 (or_introl eq_refl)). }
  split.
  { exact (proj1 (startup_failures Open_vacant argv
                                   "http://example.org/wfs" "roads"
                                   None eq_refl)
                 (or_intror (ex_intro _ vacant (conj eq_refl eq_refl)))). }
  split.
  { exact (proj1 (proj2 (startup_failures (Open 4 stalling) argv_tracks
                                          "http://example.org/wfs"
                                          "tracks" None eq_refl))
                 (service 4 stalling) eq_refl
                 ltac:(discriminate) ltac:(discriminate) eq_refl). }
  exact (proj1 (proj2 (proj2 (startup_failures
                                (Open_tracks 4 stalling) argv_tracks
                                "http://example.org/wfs" "tracks" None
                                eq_refl))
                      (service_tracks 4 stalling)
                      (unreferenced 4 stalling) eq_refl
                      ltac:(discriminate) ltac:(discriminate)
                      eq_refl eq_refl)).
Defined.

Lemma layer_listing_witness :
  snd (main (Open 4 stalling) argv_listing) = Some (Exited 0)
  /\ stdout_of (fst (main (Open 4 stalling) argv_listing))
     = [("Printing server layer list and exiting." ++ newline)%string;
        ("Layer count: 1" ++ newline)%string;
        ("Layer 0: roads" ++ newline)%string].
Proof.
  refine (proj2 (proj2 (layer_listing (Open 4 stalling) argv_listing
                                      "http://example.org/wfs" None
                                      (service 4 stalling)
                                      eq_refl eq_refl
                                      ltac:(discriminate)))
                _).
  intros [|i] Hi; [discriminate|]. cbn in Hi. lia.
Defined.

Lemma startup_sequence_witness :
  (fst (main (Open 4 stalling) argv_filtered)
   = [EvStderr (DWFS "http://example.org/wfs"); EvStderr (DLayer "roads");
      EvStderr (DFiltering "lanes>1"); EvSetAttributeFilter "lanes>1";
      EvStderr DFeaturesUnknown; EvStderr (DSR "GEOGCS[WGS 84]")]
     ++ fst (scan print_feature 1000000 stalling))
  /\ (fst (main (Open 4 stalling) argv)
      = [EvStderr (DWFS "http://example.org/wfs");
         EvStderr (DLayer "roads");
         EvGetFeatureCount; EvStderr (DFeatures 4);
         EvStderr (DSR "GEOGCS[WGS 84]")]
        ++ fst (scan print_feature 4 stalling)).
Proof.
  split.
  - exact (proj1 (proj1 (startup_sequence
                           (Open 4 stalling) argv_filtered
                           "http://example.org/wfs" "roads"
                           (Some "lanes>1"%string)
                           (service 4 stalling) (layer 4 stalling)
                           epsg4326 eq_refl ltac:(discriminate)
                           eq_refl ltac:(discriminate) eq_refl eq_refl)
                        "lanes>1"%string eq_refl ltac:(discriminate))).
  - exact (proj1 (proj2 (startup_sequence
                           (Open 4 stalling) argv
                           "http://example.org/wfs" "roads" None
                           (service 4 stalling) (layer 4 stalling)
                           epsg4326 eq_refl ltac:(discriminate)
                           eq_refl ltac:(discriminate) eq_refl eq_refl)
                        (or_introl eq_refl))).
Defined.
